(** * Policy-gated execution gateway: a shallow embedding

    The development follows the two source modules:
    - [modules/heuristics.py]: [HeuristicConfig], [HeuristicValidator] and
      its checks;
    - [modules/action.py]: [run_python_sandbox] and the [SandboxMCP]
      gateway it injects into a plan.

    Python text is modelled by [string]; its characters are the code points
    below 256.  Python integers are [Z], the per-plan call counter is a
    [nat].  The readings of [time.time()] are exact numbers ([Z]); only
    their order and differences are used by the code.  Suspending
    operations are run to their end one after the other; of logging, only
    the formatting of the caught exception is kept, which may raise.  Of [HeuristicValidator], the checks no caller in the two
    modules reaches ([validate_ascii_content], [validate_recursion_depth],
    [validate_memory_usage], [get_validation_report]) are left out. *)

From Stdlib Require Import ZArith Ascii String List Bool Lia.
From stdpp Require Import base gmap strings list pretty.
Import ListNotations.

Set Warnings "-register-all,-abstract-large-number".
Local Open Scope Z_scope.

(** ** Python string primitives *)

Module PyStr.

Definition newline : ascii := "010"%char.

(** [ord(c)] *)
Definition ord (c : ascii) : N := N_of_ascii c.

Definition in_range (lo hi : N) (c : ascii) : bool :=
  ((lo <=? ord c) && (ord c <=? hi))%N.

(** [str.isspace] on one character (also the class [\s] of [re]). *)
Definition is_space (c : ascii) : bool :=
  in_range 9 13 c || in_range 28 32 c
  || (ord c =? 133)%N || (ord c =? 160)%N.

Definition is_digit (c : ascii) : bool := in_range 48 57 c.
Definition is_upper_az (c : ascii) : bool := in_range 65 90 c.
Definition is_lower_az (c : ascii) : bool := in_range 97 122 c.
Definition is_alpha_az (c : ascii) : bool := is_upper_az c || is_lower_az c.
Definition is_alnum_az (c : ascii) : bool := is_alpha_az c || is_digit c.

(** The class [\w] of [re] on text patterns: alphanumeric or underscore. *)
Definition is_word (c : ascii) : bool :=
  is_alnum_az c || (ord c =? 95)%N
  || (ord c =? 170)%N || in_range 178 179 c || (ord c =? 181)%N
  || in_range 185 186 c || in_range 188 190 c
  || in_range 192 214 c || in_range 216 246 c || in_range 248 255 c.

(** [str.lower] on one character. *)
Definition lower_char (c : ascii) : ascii :=
  if is_upper_az c || (in_range 192 222 c && negb (ord c =? 215)%N)
  then ascii_of_N (ord c + 32) else c.

Fixpoint lower (s : string) : string :=
  match s with
  | EmptyString => EmptyString
  | String c s' => String (lower_char c) (lower s')
  end.

(** [len(s)] *)
Definition len (s : string) : Z := Z.of_nat (String.length s).

(** [s.startswith(p)] *)
Fixpoint startswith (p s : string) : bool :=
  match p, s with
  | EmptyString, _ => true
  | String a p', String b s' => Ascii.eqb a b && startswith p' s'
  | String _ _, EmptyString => false
  end.

(** [k in s] *)
Fixpoint contains (k s : string) : bool :=
  if startswith k s then true
  else
    match s with
    | EmptyString => false
    | String _ s' => contains k s'
    end.

(** [s.split('\n')] *)
Fixpoint split_lines (s : string) : list string :=
  match s with
  | EmptyString => [EmptyString]
  | String c s' =>
      if Ascii.eqb c newline then EmptyString :: split_lines s'
      else match split_lines s' with
           | h :: t => String c h :: t
           | [] => [String c EmptyString]
           end
  end.

Fixpoint lstrip (s : string) : string :=
  match s with
  | EmptyString => EmptyString
  | String c s' => if is_space c then lstrip s' else s
  end.

Fixpoint rstrip (s : string) : string :=
  match s with
  | EmptyString => EmptyString
  | String c s' =>
      match rstrip s' with
      | EmptyString => if is_space c then EmptyString else String c EmptyString
      | r => String c r
      end
  end.

(** [s.strip()] *)
Definition strip (s : string) : string := rstrip (lstrip s).

(** [sep.join(l)] *)
Definition join (sep : string) (l : list string) : string :=
  String.concat sep l.

(** [x in l] for a list of strings *)
Definition mem (x : string) (l : list string) : bool :=
  existsb (String.eqb x) l.

(** Truth value of a string: [bool(s)]. *)
Definition nonempty (s : string) : bool :=
  match s with EmptyString => false | _ => true end.

End PyStr.

(** ** Regular expressions of [re], as far as the validators use them *)

Module Re.
Import PyStr.

Inductive regex : Type :=
| Eps                            (* the empty pattern, also [()] *)
| Chr (p : ascii -> bool)        (* one character of a class *)
| Seq (r1 r2 : regex)
| Alt (r1 r2 : regex)
| Star (r : regex)
| WordB                          (* [\b] *)
| Eos.                           (* [$] without MULTILINE *)

Definition word_before (prev : option ascii) : bool :=
  match prev with Some c => is_word c | None => false end.

Definition word_after (s : string) : bool :=
  match s with String c _ => is_word c | EmptyString => false end.

Definition at_end (s : string) : bool :=
  match s with
  | EmptyString => true
  | String c EmptyString => Ascii.eqb c newline
  | _ => false
  end.

(** [matches r prev s k]: some prefix of [s] matches [r] (the character
    before it being [prev]) and the continuation [k] accepts the rest.
    A starred pattern is tried for up to [length s] rounds: a round that
    consumes nothing adds no match. *)
Fixpoint rounds (step : option ascii -> string -> (option ascii -> string -> bool) -> bool)
         (k : option ascii -> string -> bool) (n : nat)
         (prev : option ascii) (s : string) {struct n} : bool :=
  if k prev s then true
  else
    match n with
    | O => false
    | S n' => step prev s (fun p' s' => rounds step k n' p' s')
    end.

Fixpoint matches (r : regex) (prev : option ascii) (s : string)
         (k : option ascii -> string -> bool) {struct r} : bool :=
  match r with
  | Eps => k prev s
  | Chr p =>
      match s with
      | String c s' => if p c then k (Some c) s' else false
      | EmptyString => false
      end
  | Seq r1 r2 => matches r1 prev s (fun p' s' => matches r2 p' s' k)
  | Alt r1 r2 => if matches r1 prev s k then true else matches r2 prev s k
  | Star r1 => rounds (matches r1) k (String.length s) prev s
  | WordB => if xorb (word_before prev) (word_after s) then k prev s else false
  | Eos => if at_end s then k prev s else false
  end.

Definition accept : option ascii -> string -> bool := fun _ _ => true.

Fixpoint search_from (r : regex) (prev : option ascii) (s : string) : bool :=
  if matches r prev s accept then true
  else
    match s with
    | EmptyString => false
    | String c s' => search_from r (Some c) s'
    end.

(** [re.search(r, s) is not None] *)
Definition search (r : regex) (s : string) : bool := search_from r None s.

(** Pattern building blocks. *)
Definition chr (c : ascii) : regex := Chr (Ascii.eqb c).
(** one character under [re.IGNORECASE] *)
Definition chr_i (c : ascii) : regex :=
  Chr (fun x => Ascii.eqb (lower_char x) (lower_char c)).

Fixpoint lit (s : string) : regex :=
  match s with
  | EmptyString => Eps
  | String c s' => Seq (chr c) (lit s')
  end.

Fixpoint lit_i (s : string) : regex :=
  match s with
  | EmptyString => Eps
  | String c s' => Seq (chr_i c) (lit_i s')
  end.

Definition one_of (s : string) : regex := Chr (fun c => contains (String c EmptyString) s).
Definition space : regex := Chr is_space.                       (* [\s] *)
Definition dot : regex := Chr (fun c => negb (Ascii.eqb c newline)).  (* [.] *)
Definition opt (r : regex) : regex := Alt r Eps.                (* [r?] *)
Definition plus (r : regex) : regex := Seq r (Star r).          (* [r+] *)

Fixpoint rep (n : nat) (r : regex) : regex :=                   (* [r{n}] *)
  match n with O => Eps | S n' => Seq r (rep n' r) end.

Definition at_least (n : nat) (r : regex) : regex := Seq (rep n r) (Star r).  (* [r{n,}] *)

Fixpoint seqs (rs : list regex) : regex :=
  match rs with
  | [] => Eps
  | r :: rs' => Seq r (seqs rs')
  end.

End Re.

(** ** Python values, exceptions and the library interface *)

(** Values of the JSON fragment: what tool arguments, parsed JSON and the
    value returned by a plan are made of.  A [dict] keeps its items in
    insertion order. *)
Inductive PyVal : Type :=
| VNone
| VBool (b : bool)
| VInt (n : Z)
| VStr (s : string)
| VList (items : list PyVal)
| VDict (items : list (string * PyVal)).

Abbreviation dict := (list (string * PyVal)).

(** [k in d] *)
Definition dict_has (k : string) (d : dict) : bool :=
  existsb (fun kv => String.eqb k (fst kv)) d.

(** [d[k]] when [k in d] *)
Fixpoint dict_lookup (k : string) (d : dict) : option PyVal :=
  match d with
  | [] => None
  | (k', v) :: d' => if String.eqb k k' then Some v else dict_lookup k d'
  end.

(** [d.get(k, dflt)] *)
Definition dict_get (k : string) (dflt : PyVal) (d : dict) : PyVal :=
  match dict_lookup k d with Some v => v | None => dflt end.

(** [bool(v)] *)
Definition truthy (v : PyVal) : bool :=
  match v with
  | VNone => false
  | VBool b => b
  | VInt n => negb (n =? 0)
  | VStr s => PyStr.nonempty s
  | VList l => match l with [] => false | _ => true end
  | VDict d => match d with [] => false | _ => true end
  end.

(** [x or y] *)
Definition py_or (x y : PyVal) : PyVal := if truthy x then x else y.

Definition type_name (v : PyVal) : string :=
  match v with
  | VNone => "NoneType"
  | VBool _ => "bool"
  | VInt _ => "int"
  | VStr _ => "str"
  | VList _ => "list"
  | VDict _ => "dict"
  end.

(** Exceptions, by the classes the code distinguishes.  [NonException]
    stands for the classes outside [Exception] ([SystemExit],
    [KeyboardInterrupt], [GeneratorExit], [asyncio.CancelledError]). *)
Inductive ExnClass : Type :=
| RuntimeError | ValueError | TypeError | AttributeError | SyntaxError
| TimeoutError               (* [asyncio.TimeoutError] *)
| HeuristicViolation
| OtherException
| NonException.

(** An exception object: its class, the text [str(e)] returns, and what
    its [__format__] and its [__str__] raise when they do not return (a
    class of the plan or of the dispatcher may define them so; [None]
    for the classes of the library and of this code).  [f"{e}"] calls
    [__format__], [str(e)] calls [__str__]. *)
Inductive PyExn : Type := mkPyExn {
  exn_class : ExnClass;
  exn_str : string;
  exn_format_raises : option PyExn;
  exn_str_raises : option PyExn
}.

(** An exception whose [__format__] and [__str__] return. *)
Abbreviation mkExn cls text := (mkPyExn cls text None None).

(** [isinstance(e, Exception)] *)
Definition is_Exception (e : PyExn) : bool :=
  match exn_class e with NonException => false | _ => true end.

(** A computation that returns or raises. *)
Inductive Res (A : Type) : Type :=
| Ok (a : A)
| Raised (e : PyExn).
Arguments Ok {A} a.
Arguments Raised {A} e.

Definition bind {A B : Type} (m : Res A) (f : A -> Res B) : Res B :=
  match m with Ok a => f a | Raised e => Raised e end.

Notation "x <- m ;; k" := (bind m (fun x => k))
  (at level 100, m at next level, right associativity).

(** [str(e)] *)
Definition str_of (e : PyExn) : Res string :=
  match exn_str_raises e with
  | Some raised => Raised raised
  | None => Ok (exn_str e)
  end.

(** [f"{e}"], of which the code keeps nothing but the log line: whether
    it returns. *)
Definition format_of (e : PyExn) : Res unit :=
  match exn_format_raises e with
  | Some raised => Raised raised
  | None => Ok tt
  end.

(** The result of [urllib.parse.urlparse], the three fields the code reads. *)
Record ParseResult : Type := mkParse {
  scheme : string;
  netloc : string;
  hostname : option string
}.

(** What the code calls in Python's library.  A left value is the message
    [str(e)] of the exception the call raises: a [TypeError] or
    [ValueError] of [json.dumps], the [JSONDecodeError] of [json.loads],
    the [ValueError] of [urlparse]. *)
Class PyLib : Type := {
  py_str : PyVal -> string;                 (* [str(v)], [f"{v}"] *)
  json_dumps : PyVal -> string + string;
  json_loads : string -> string + PyVal;
  json_loads_empty : forall v, json_loads EmptyString <> inr v;
  urlparse : string -> string + ParseResult
}.

(** [f"{m}"] for an optional message *)
Definition fmt_msg (m : option string) : string :=
  match m with Some s => s | None => "None" end.

(** ** HeuristicConfig *)

Record HeuristicConfig : Type := mkConfig {
  max_input_length : Z;
  max_json_depth : Z;
  max_files_per_call : Z;
  max_url_calls_per_domain : Z;
  url_call_window_seconds : Z;
  request_timeout_seconds : Z;
  allow_non_ascii : bool;
  blocked_commands : list string;
  blocked_file_operations : list string;
  max_plan_length : Z
}.

Definition backslash : string := String "092"%char EmptyString.

Definition default_config : HeuristicConfig := {|
  max_input_length := 50000;
  max_json_depth := 10;
  max_files_per_call := 3;
  max_url_calls_per_domain := 5;
  url_call_window_seconds := 60;
  request_timeout_seconds := 10;
  allow_non_ascii := true;
  blocked_commands :=
    [ "rm -rf"; "rm -fr"; "rmdir /s"; "del /f"; "format";
      "dd if=/dev/zero"; ":(){:|:&};:"; "mkfs"; "sudo rm";
      "> /dev/sda"; "mv /* "; "chmod -R 777 /"; "chown -R" ];
  blocked_file_operations :=
    [ "/etc/"; "/sys/"; "/proc/"; "/dev/"; "/boot/";
      "C:" +:+ backslash +:+ "Windows" +:+ backslash;
      "C:" +:+ backslash +:+ "Program Files" +:+ backslash;
      "/var/"; "/usr/bin/" ];
  max_plan_length := 10000
|}.

(** ** HeuristicValidator *)

(** The checks [validate_tool_call] runs, as a record of which of them
    it invoked and in which order (not part of the Python state). *)
Inductive Check : Type :=
| ChkToolExists
| ChkJson
| ChkApiKey
| ChkUrl (url : PyVal)
| ChkRateLimit (url : string)
| ChkFile
| ChkCommand
| ChkSql.

Record HeuristicValidator : Type := mkValidator {
  config : HeuristicConfig;
  url_call_tracker : gmap string (list Z);
  checks_run : list Check
}.

Definition set_tracker (self : HeuristicValidator) (t : gmap string (list Z))
  : HeuristicValidator :=
  {| config := config self; url_call_tracker := t; checks_run := checks_run self |}.

Definition note (c : Check) (self : HeuristicValidator) : HeuristicValidator :=
  {| config := config self; url_call_tracker := url_call_tracker self;
     checks_run := checks_run self ++ [c] |}.

(** [HeuristicValidator(config)] *)
Definition new_validator (cfg : HeuristicConfig) : HeuristicValidator :=
  {| config := cfg; url_call_tracker := ∅; checks_run := [] |}.

Section Validators.
Context `{PyLib}.
Import PyStr.

(** *** 1. URL validation *)

Definition blocked_hosts : list string :=
  ["localhost"; "127.0.0.1"; "0.0.0.0"; "::1"].

Definition validate_url (url : PyVal) : bool * option string :=
  match url with
  | VStr (String _ _ as u) =>
      match urlparse u with
      | inl e => (false, Some ("Malformed URL: " +:+ e))
      | inr parsed =>
          if negb (mem (scheme parsed) ["http"; "https"]) then
            (false, Some ("Invalid URL scheme: " +:+ scheme parsed
                          +:+ ". Only http/https allowed."))
          else if negb (nonempty (netloc parsed)) then
            (false, Some "URL missing domain/host")
          else
            match hostname parsed with
            | Some h =>
                if mem h blocked_hosts then
                  (false, Some ("Access to " +:+ h
                                +:+ " is blocked for security reasons"))
                else if nonempty h &&
                        (startswith "192.168." h || startswith "10." h
                         || startswith "172.16." h) then
                  (false, Some "Access to private IP range is blocked")
                else (true, None)
            | None => (true, None)
            end
      end
  | _ => (false, Some "URL is empty or not a string")
  end.

(** *** 2. JSON validation *)

(** [max(...)] over a non-empty sequence *)
Definition max_of (first : Z) (rest : list Z) : Z := fold_left Z.max rest first.

(** The nested [get_depth(obj, current_depth)], closed over [max_depth]. *)
Fixpoint get_depth (max_depth : Z) (obj : PyVal) (current_depth : Z) {struct obj} : Z :=
  if current_depth >? max_depth then current_depth
  else
    match obj with
    | VDict items =>
        match map (fun kv => let '(_, v) := kv in
                             get_depth max_depth v (current_depth + 1)) items with
        | [] => current_depth
        | d :: ds => max_of d ds
        end
    | VList items =>
        match map (fun v => get_depth max_depth v (current_depth + 1)) items with
        | [] => current_depth
        | d :: ds => max_of d ds
        end
    | _ => current_depth
    end.

(** [max_depth or self.config.max_json_depth] *)
Definition effective_max_depth (cfg : HeuristicConfig) (max_depth : option Z) : Z :=
  match max_depth with
  | Some m => if m =? 0 then max_json_depth cfg else m
  | None => max_json_depth cfg
  end.

Definition validate_json_input (cfg : HeuristicConfig) (json_str : string)
           (max_depth : option Z) : bool * option string * option PyVal :=
  let max_depth := effective_max_depth cfg max_depth in
  if negb (nonempty json_str) then
    (false, Some "JSON input is empty or not a string", None)
  else
    match json_loads json_str with
    | inl e => (false, Some ("Invalid JSON: " +:+ e), None)
    | inr parsed =>
        let depth := get_depth max_depth parsed 0 in
        if depth >? max_depth then
          (false,
           Some ("JSON depth (" +:+ pretty depth
                 +:+ ") exceeds maximum allowed (" +:+ pretty max_depth +:+ ")"),
           Some parsed)
        else (true, None, Some parsed)
    end.

(** *** 3. Input length validation *)

Definition validate_input_length (cfg : HeuristicConfig) (text : string)
  : bool * option string :=
  let length := len text in
  if length >? max_input_length cfg then
    (false, Some ("Input too long: " +:+ pretty length +:+ " chars (max: "
                  +:+ pretty (max_input_length cfg) +:+ ")"))
  else (true, None).

(** *** 5. Rate limiting *)

(** [current_time] is the value [time.time()] returns in this call. *)
Definition check_url_rate_limit (self : HeuristicValidator) (current_time : Z)
           (url : string) : (bool * option string) * HeuristicValidator :=
  match urlparse url with
  | inl _ => ((false, Some "Cannot parse domain from URL"), self)
  | inr parsed =>
      let domain := netloc parsed in
      let window_start := current_time - url_call_window_seconds (config self) in
      (* Clean old entries *)
      let kept := filter (fun t => window_start < t)
                         (default [] (url_call_tracker self !! domain)) in
      let tracker := <[domain := kept]> (url_call_tracker self) in
      (* Check limit *)
      let call_count := Z.of_nat (length kept) in
      if call_count >=? max_url_calls_per_domain (config self) then
        ((false,
          Some ("Rate limit exceeded for " +:+ domain +:+ ": "
                +:+ pretty call_count +:+ " calls in "
                +:+ pretty (url_call_window_seconds (config self)) +:+ "s (max: "
                +:+ pretty (max_url_calls_per_domain (config self)) +:+ ")")),
         set_tracker self tracker)
      else
        (* Record this call *)
        ((true, None),
         set_tracker self (<[domain := kept ++ [current_time]]> tracker))
  end.

(** *** 6. Timeout configuration *)

Definition get_timeout_config (self : HeuristicValidator) : Z :=
  request_timeout_seconds (config self).

(** *** 7. File input validation *)

(** The inner loop over the blocked prefixes for one path;
    [path.lower()] raises on a path that is not a string. *)
Fixpoint scan_blocked (path : PyVal) (blocked : list string)
  : Res (option string) :=
  match blocked with
  | [] => Ok None
  | b :: rest =>
      match path with
      | VStr p =>
          if contains (lower b) (lower p) then Ok (Some b)
          else scan_blocked path rest
      | _ => Raised (mkExn AttributeError
                      ("'" +:+ type_name path
                       +:+ "' object has no attribute 'lower'"))
      end
  end.

Fixpoint scan_paths (cfg : HeuristicConfig) (paths : list PyVal)
  : Res (bool * option string) :=
  match paths with
  | [] => Ok (true, None)
  | p :: rest =>
      hit <- scan_blocked p (blocked_file_operations cfg) ;;
      match hit with
      | Some b => Ok (false, Some ("Access to " +:+ b +:+ " is blocked for security"))
      | None => scan_paths cfg rest
      end
  end.

Definition validate_file_inputs (cfg : HeuristicConfig) (file_paths : list PyVal)
  : Res (bool * option string) :=
  let n := Z.of_nat (length file_paths) in
  if n >? max_files_per_call cfg then
    Ok (false, Some ("Too many files: " +:+ pretty n +:+ " (max: "
                     +:+ pretty (max_files_per_call cfg) +:+ ")"))
  else scan_paths cfg file_paths.

End Validators.

Section Patterns.
Import PyStr Re.

(** *** 8. Dangerous command detection *)

Definition execution_markers : list string :=
  ["subprocess."; "os.system("; "os.popen("; "exec("; "eval("].

(** [stripped.startswith('#')] for [stripped = line.strip()] *)
Definition is_comment (line : string) : bool := startswith "#" (strip line).

(** [any(keyword in stripped for keyword in [...])] *)
Definition has_marker (stripped : string) : bool :=
  existsb (fun keyword => contains keyword stripped) execution_markers.

(** The loop that collects [code_lines]. *)
Fixpoint code_lines (lines : list string) : list string :=
  match lines with
  | [] => []
  | line :: rest =>
      let stripped := strip line in
      if startswith "#" stripped then code_lines rest
      else if has_marker stripped then stripped :: code_lines rest
      else code_lines rest
  end.

Definition command_patterns : list regex :=
  [ (* rm\s+-[rf]{1,2}\s+/ *)
    seqs [lit "rm"; plus space; chr "-"; one_of "rf"; opt (one_of "rf");
          plus space; chr "/"];
    (* >\s*/dev/sd[a-z] *)
    seqs [chr ">"; Star space; lit "/dev/sd"; Chr is_lower_az];
    (* dd\s+if=.*of=/dev/ *)
    seqs [lit "dd"; plus space; lit "if="; Star dot; lit "of=/dev/"];
    (* mkfs\. *)
    lit "mkfs.";
    (* :()\{.*\|.*&\};: *)
    seqs [chr ":"; Eps; chr "{"; Star dot; chr "|"; Star dot; lit "&};:"] ].

Definition validate_command_safety (cfg : HeuristicConfig) (command : PyVal)
  : bool * option string :=
  match command with
  | VStr command =>
      let lines := split_lines command in
      let command_code := join (String newline EmptyString) (code_lines lines) in
      if negb (nonempty command_code) then (true, None)
      else
        match find (fun blocked_cmd => contains (lower blocked_cmd) (lower command_code))
                   (blocked_commands cfg) with
        | Some blocked_cmd =>
            (false, Some ("Dangerous command detected: '" +:+ blocked_cmd +:+ "'"))
        | None =>
            if existsb (fun pattern => search pattern (lower command_code))
                       command_patterns
            then (false, Some "Dangerous command pattern detected")
            else (true, None)
        end
  | _ => (false, Some "Command is not a string")
  end.

(** *** 9. Tool registry validation *)

Definition validate_tool_exists (tool_name : string) (available_tools : list string)
  : bool * option string :=
  if negb (mem tool_name available_tools) then
    (false, Some ("Tool '" +:+ tool_name +:+ "' not found in registry. "
                  +:+ "Available tools: " +:+ join ", " (take 5 available_tools)
                  +:+ "..."))
  else (true, None).

(** *** 10. Plan validation *)

(** [\bNAME\b] *)
Definition word_pattern (name : string) : regex := seqs [WordB; lit name; WordB].
(** [\bNAME\s*\(] *)
Definition call_pattern (name : string) : regex :=
  seqs [WordB; lit name; Star space; chr "("].

Definition dangerous_patterns : list (regex * string) :=
  [ (word_pattern "subprocess", "subprocess");
    (word_pattern "os.system", "os.system");
    (call_pattern "eval", "eval");
    (call_pattern "exec", "exec");
    (call_pattern "__import__", "__import__");
    (call_pattern "open", "open");
    (call_pattern "file", "file");
    (call_pattern "input", "input");
    (call_pattern "raw_input", "raw_input");
    (call_pattern "execfile", "execfile") ].

(** The inner loop: some line that is not a comment matches [pattern]. *)
Definition line_matches (pattern : regex) (lines : list string) : bool :=
  existsb (fun line => if is_comment line then false else search pattern line) lines.

Definition validate_generated_plan (cfg : HeuristicConfig) (plan_code : string)
  : bool * option string :=
  (* Check length *)
  let '(valid, msg) := validate_input_length cfg plan_code in
  if negb valid then (false, Some ("Plan too long: " +:+ fmt_msg msg))
  else
    (* Check for dangerous imports/operations *)
    match find (fun pn => line_matches (fst pn) (split_lines plan_code))
               dangerous_patterns with
    | Some (_, name) =>
        (false, Some ("Dangerous operation '" +:+ name +:+ "' detected in plan"))
    | None =>
        (* Check for dangerous commands within the code *)
        let '(valid, msg) := validate_command_safety cfg (VStr plan_code) in
        if negb valid then (false, Some ("Dangerous command in plan: " +:+ fmt_msg msg))
        else (true, None)
    end.

(** *** Additional heuristics *)

Definition dquote : ascii := "034"%char.
Definition quote : regex :=                       (* a double or a single quote *)
  Chr (fun c => Ascii.eqb c dquote || Ascii.eqb c "'").
Definition not_quote : regex :=                   (* anything but a quote *)
  Chr (fun c => negb (Ascii.eqb c dquote || Ascii.eqb c "'")).
Definition key_char : regex :=                    (* [a-zA-Z0-9_\-] *)
  Chr (fun c => is_alnum_az c || Ascii.eqb c "_" || Ascii.eqb c "-").

(** The patterns of [validate_api_key_exposure], under [re.IGNORECASE]. *)
Definition api_key_patterns : list regex :=
  [ seqs [lit_i "api"; opt (one_of "_-"); lit_i "key"; opt quote; Star space;
          one_of ":="; Star space; quote; at_least 20 key_char];
    seqs [lit_i "secret"; opt (one_of "_-"); lit_i "key"; opt quote; Star space;
          one_of ":="; Star space; quote; at_least 20 key_char];
    seqs [lit_i "password"; opt quote; Star space; one_of ":="; Star space;
          quote; at_least 8 not_quote];
    (* (sk|pk)_[a-z]{4,}_[a-zA-Z0-9]{20,} *)
    seqs [Alt (lit_i "sk") (lit_i "pk"); chr "_"; at_least 4 (Chr is_alpha_az);
          chr "_"; at_least 20 (Chr is_alnum_az)];
    (* AIza[0-9A-Za-z\\-_]{35}: the class ends with the range from the
       backslash to the underscore *)
    seqs [lit_i "AIza"; rep 35 (Chr (fun c => is_alnum_az c || in_range 92 95 c))] ].

Definition validate_api_key_exposure (text : string) : bool * option string :=
  if existsb (fun pattern => search pattern text) api_key_patterns then
    (false, Some "Potential API key or secret detected in input. Please use environment variables.")
  else (true, None).

(** The patterns of [validate_sql_injection], under [re.IGNORECASE]. *)
Definition sql_patterns : list regex :=
  [ seqs [chr "'"; Star space; lit_i "OR"; plus space; lit "'1'"; Star space;
          chr "="; Star space; lit "'1"];
    seqs [chr ";"; Star space; lit_i "DROP"; plus space; lit_i "TABLE"];
    seqs [lit_i "UNION"; plus space; lit_i "SELECT"];
    seqs [lit "--"; Star space; Eos];
    seqs [chr "'"; Star space; chr ";"] ].

Definition validate_sql_injection (query : string) : bool * option string :=
  if existsb (fun pattern => search pattern query) sql_patterns then
    (false, Some "Potential SQL injection pattern detected")
  else (true, None).

End Patterns.

Section Pipeline.
Context `{PyLib}.
Import PyStr.

(** *** Comprehensive validation pipeline *)

(** [errors.append(prefix + msg)] when the check failed. *)
Definition append_failure (errors : list string) (prefix : string)
           (r : bool * option string) : list string :=
  if fst r then errors else errors ++ [prefix +:+ fmt_msg (snd r)].

(** [# 2. Check arguments]: the [try] block around [json.dumps]. *)
Definition check_arguments (self : HeuristicValidator) (tool_args : dict)
           (errors : list string) : list string * HeuristicValidator :=
  match json_dumps (VDict tool_args) with
  | inr args_str =>
      let self := note ChkJson self in
      let '(valid, msg, _) := validate_json_input (config self) args_str None in
      let errors := append_failure errors "Tool args validation: " (valid, msg) in
      let self := note ChkApiKey self in
      let errors := append_failure errors "" (validate_api_key_exposure args_str) in
      (errors, self)
  | inl e => (errors ++ ["Error validating tool args: " +:+ e], self)
  end.

(** [# 3. Tool-specific validations] *)
Definition check_url_arguments (self : HeuristicValidator) (current_time : Z)
           (tool_args : dict) (errors : list string)
  : list string * HeuristicValidator :=
  if dict_has "url" tool_args || dict_has "input" tool_args then
    match dict_get "input" (VDict []) tool_args with
    | VDict input_dict =>
        match dict_lookup "url" input_dict with
        | Some url =>
            let self := note (ChkUrl url) self in
            let '(valid, msg) := validate_url url in
            if negb valid then
              (append_failure errors "URL validation: " (valid, msg), self)
            else
              match url with
              | VStr u =>
                  (* Check rate limit *)
                  let self := note (ChkRateLimit u) self in
                  let '(r, self) := check_url_rate_limit self current_time u in
                  (append_failure errors "Rate limit: " r, self)
              | _ => (errors, self)   (* [validate_url] accepts strings only *)
              end
        | None => (errors, self)
        end
    | _ => (errors, self)
    end
  else (errors, self).

(** [# 4. File path validation] *)
Definition check_file_arguments (self : HeuristicValidator) (tool_args : dict)
           (errors : list string) : Res (list string) * HeuristicValidator :=
  if dict_has "file_path" tool_args || dict_has "path" tool_args then
    match dict_get "input" (VDict []) tool_args with
    | VDict input_dict =>
        let file_path := py_or (dict_get "file_path" VNone input_dict)
                               (dict_get "path" VNone input_dict) in
        if truthy file_path then
          let self := note ChkFile self in
          (r <- validate_file_inputs (config self) [file_path] ;;
           Ok (append_failure errors "File validation: " r), self)
        else (Ok errors, self)
    | _ => (Ok errors, self)
    end
  else (Ok errors, self).

(** [# 5. Command validation] *)
Definition check_command_arguments (self : HeuristicValidator) (tool_args : dict)
           (errors : list string) : list string * HeuristicValidator :=
  if dict_has "command" tool_args || dict_has "code" tool_args then
    match dict_get "input" (VDict []) tool_args with
    | VDict input_dict =>
        let cmd := py_or (dict_get "command" VNone input_dict)
                         (dict_get "code" (VStr "") input_dict) in
        if truthy cmd then
          let self := note ChkCommand self in
          (append_failure errors "Command safety: "
                          (validate_command_safety (config self) cmd), self)
        else (errors, self)
    | _ => (errors, self)
    end
  else (errors, self).

(** [# 6. Query validation (SQL injection)] *)
Definition check_query_arguments (self : HeuristicValidator) (tool_args : dict)
           (errors : list string) : list string * HeuristicValidator :=
  if dict_has "query" tool_args then
    match dict_get "input" (VDict []) tool_args with
    | VDict input_dict =>
        match dict_lookup "query" input_dict with
        | Some (VStr query) =>
            let self := note ChkSql self in
            (append_failure errors "SQL injection check: "
                            (validate_sql_injection query), self)
        | _ => (errors, self)
        end
    | _ => (errors, self)
    end
  else (errors, self).

Definition validate_tool_call (self : HeuristicValidator) (current_time : Z)
           (tool_name : string) (tool_args : dict) (available_tools : list string)
  : Res (bool * list string) * HeuristicValidator :=
  let errors := [] in
  (* 1. Tool exists *)
  let self := note ChkToolExists self in
  let errors := append_failure errors ""
                  (validate_tool_exists tool_name available_tools) in
  let '(errors, self) := check_arguments self tool_args errors in
  let '(errors, self) := check_url_arguments self current_time tool_args errors in
  match check_file_arguments self tool_args errors with
  | (Raised e, self) => (Raised e, self)
  | (Ok errors, self) =>
      let '(errors, self) := check_command_arguments self tool_args errors in
      let '(errors, self) := check_query_arguments self tool_args errors in
      (Ok (match errors with [] => true | _ => false end, errors), self)
  end.

End Pipeline.

(** ** modules/action.py *)

Definition MAX_TOOL_CALLS_PER_PLAN : nat := 5.

(** What the run does to the outside: it compiles and executes the plan
    text, and it queries the dispatcher. *)
Inductive Event : Type :=
| Executed                                     (* [exec(compile(code, ...))] *)
| ListedTools                                  (* [dispatcher.list_all_tools()] *)
| Forwarded (tool_name : string) (input_dict : dict).  (* [dispatcher.call_tool(...)] *)

(** How an awaited dispatcher call ends. *)
Inductive Dispatched : Type :=
| Returned (v : PyVal)
| Failed (e : PyExn)
| TimedOut.                                    (* [asyncio.wait_for] gave up *)

(** The dispatcher collaborator: its answers may depend on everything
    that happened before in the run. *)
Record Dispatcher : Type := mkDispatcher {
  list_all_tools : list Event -> Res (list string);
  dispatcher_call_tool : list Event -> string -> dict -> Dispatched
}.

(** The surroundings of a run: the dispatcher, and the reading of
    [time.time()] during the [n]-th gateway call (counted from 0). *)
Record Env : Type := mkEnv {
  dispatcher : Dispatcher;
  clock : nat -> Z
}.

(** The state a run works on: the global validator of [get_validator()]
    and the events so far. *)
Record World : Type := mkWorld {
  validator : HeuristicValidator;
  trace : list Event
}.

Definition log_event (e : Event) (w : World) : World :=
  {| validator := validator w; trace := trace w ++ [e] |}.

Definition set_validator (v : HeuristicValidator) (w : World) : World :=
  {| validator := v; trace := trace w |}.

Inductive Severity : Type := SevError | SevWarning | SevInfo.

(** [severity.upper()] *)
Definition severity_upper (s : Severity) : string :=
  match s with SevError => "ERROR" | SevWarning => "WARNING" | SevInfo => "INFO" end.

(** [HeuristicViolation(rule, message, severity)] *)
Definition heuristic_violation (rule message : string) (severity : Severity) : PyExn :=
  mkExn HeuristicViolation
        ("[" +:+ severity_upper severity +:+ "] " +:+ rule +:+ ": " +:+ message).

(** [timeout or self.config.request_timeout_seconds] *)
Definition effective_timeout (self : HeuristicValidator) (timeout : option Z) : Z :=
  match timeout with
  | Some t => if t =? 0 then request_timeout_seconds (config self) else t
  | None => request_timeout_seconds (config self)
  end.

Definition execute_with_timeout (self : HeuristicValidator) (coro : Dispatched)
           (timeout : option Z) : Res PyVal :=
  let timeout := effective_timeout self timeout in
  let violation :=
    heuristic_violation "TIMEOUT"
      ("Operation exceeded " +:+ pretty timeout +:+ "s timeout") SevError in
  match coro with
  | Returned v => Ok v
  | TimedOut => Raised violation
  | Failed e =>
      match exn_class e with
      | TimeoutError => Raised violation
      | _ => Raised e
      end
  end.

(** The plan as the runner sees it.  The body of [solve()] is a tree: it
    returns, raises, or awaits [mcp.call_tool] and goes on with what that
    call returned or raised.  The tree describes the plans that use the
    gateway through [call_tool] only; a plan that writes
    [mcp.call_count], calls [mcp.dispatcher] itself or reaches the global
    validator through an import is outside of it. *)
Inductive Solve : Type :=
| Return (result : PyVal)
| Raise (e : PyExn)
| CallTool (tool_name : string) (input_dict : dict) (k : Res PyVal -> Solve).

(** What [exec(compile(code, ...))] and the lookup of [solve] give. *)
Inductive Loaded : Type :=
| LoadRaises (e : PyExn)       (* a syntax error, or the module body raises *)
| NoSolve                      (* the module binds no [solve] *)
| HasSolve (body : Solve).

Record Plan : Type := mkPlan {
  code : string;
  loaded : Loaded
}.

Record SandboxMCP : Type := mkMCP { call_count : nat }.

Section Runner.
Context `{PyLib}.
Import PyStr.

Definition budget_error : PyExn :=
  mkExn RuntimeError
        ("Exceeded max tool calls (" +:+ pretty MAX_TOOL_CALLS_PER_PLAN
         +:+ ") in solve() plan.").

(** [SandboxMCP.call_tool] *)
Definition call_tool (env : Env) (self : SandboxMCP) (tool_name : string)
           (input_dict : dict) (w : World) : Res PyVal * SandboxMCP * World :=
  let current_time := clock env (call_count self) in
  let self := {| call_count := call_count self + 1 |} in
  if (MAX_TOOL_CALLS_PER_PLAN <? call_count self)%nat then
    (Raised budget_error, self, w)
  else
    let available := list_all_tools (dispatcher env) (trace w) in
    let w := log_event ListedTools w in
    match available with
    | Raised e => (Raised e, self, w)
    | Ok available_tools =>
        let '(checked, v) :=
          validate_tool_call (validator w) current_time tool_name input_dict
                             available_tools in
        let w := set_validator v w in
        match checked with
        | Raised e => (Raised e, self, w)
        | Ok (is_valid, errors) =>
            if negb is_valid then
              (Raised (mkExn RuntimeError
                             ("Tool call validation failed: " +:+ join "; " errors)),
               self, w)
            else
              (* REAL tool call now (with timeout) *)
              let timeout := get_timeout_config (validator w) in
              let coro := dispatcher_call_tool (dispatcher env) (trace w)
                                               tool_name input_dict in
              let w := log_event (Forwarded tool_name input_dict) w in
              match execute_with_timeout (validator w) coro (Some timeout) with
              | Ok result => (Ok result, self, w)
              | Raised e =>
                  match exn_class e with
                  | TimeoutError =>
                      (Raised (mkExn RuntimeError
                                 ("Tool call to '" +:+ tool_name +:+ "' timed out after "
                                  +:+ pretty timeout +:+ "s")), self, w)
                  | HeuristicViolation =>
                      (text <- str_of e ;; Raised (mkExn RuntimeError text), self, w)
                  | _ => (Raised e, self, w)
                  end
              end
        end
    end.

(** Running the body of [solve()] against the gateway. *)
Fixpoint run_solve (env : Env) (body : Solve) (mcp : SandboxMCP) (w : World)
  : Res PyVal * SandboxMCP * World :=
  match body with
  | Return result => (Ok result, mcp, w)
  | Raise e => (Raised e, mcp, w)
  | CallTool tool_name input_dict k =>
      let '(r, mcp, w) := call_tool env mcp tool_name input_dict w in
      run_solve env (k r) mcp w
  end.

(** [# Clean result formatting] *)
Definition format_result (result : PyVal) : Res string :=
  match result with
  | VDict items =>
      match dict_lookup "result" items with
      | Some v => Ok (py_str v)
      | None =>
          match json_dumps result with
          | inr s => Ok s
          | inl e => Raised (mkExn TypeError e)
          end
      end
  | VList items => Ok (join " " (map py_str items))
  | _ => Ok (py_str result)
  end.

(** The [try] block of [run_python_sandbox]. *)
Definition execute_plan (env : Env) (plan : Plan) (w : World) : Res string * World :=
  let w := log_event Executed w in
  match loaded plan with
  | LoadRaises e => (Raised e, w)
  | NoSolve => (Raised (mkExn ValueError "No solve() function found in plan."), w)
  | HasSolve body =>
      let '(r, _, w) := run_solve env body {| call_count := 0 |} w in
      (result <- r ;; format_result result, w)
  end.

(** [run_python_sandbox(code, dispatcher)]: the string it returns, or the
    exception that leaves it. *)
Definition run_python_sandbox (env : Env) (plan : Plan) (w : World)
  : Res string * World :=
  let '(is_safe, error_msg) :=
    validate_generated_plan (config (validator w)) (code plan) in
  if negb is_safe then
    (Ok ("[sandbox error: Security validation failed - " +:+ fmt_msg error_msg +:+ "]"), w)
  else
    match execute_plan env plan w with
    | (Ok s, w) => (Ok s, w)
    | (Raised e, w) =>
        if is_Exception e then
          (_ <- format_of e ;;          (* the message handed to [log] *)
           text <- str_of e ;;
           Ok ("[sandbox error: " +:+ text +:+ "]"), w)
        else (Raised e, w)
    end.

End Runner.

(** ** An instance of the library interface

    Enough of [json], [urllib.parse] and [str] to run the validators and
    the runner on concrete inputs: integers, strings with the standard
    escapes, URLs of the shape [scheme://netloc/path].  The messages of
    the exceptions are abbreviated.  The theorems below hold for every
    instance; this one serves the examples. *)

Module Sample.
Import PyStr.

Definition hex_digit (n : N) : ascii :=
  if (n <? 10)%N then ascii_of_N (48 + n) else ascii_of_N (87 + n).

Definition escape_char (c : ascii) : string :=
  if Ascii.eqb c dquote then backslash +:+ String dquote EmptyString
  else if Ascii.eqb c "092" then backslash +:+ backslash
  else if Ascii.eqb c "010" then backslash +:+ "n"
  else if Ascii.eqb c "013" then backslash +:+ "r"
  else if Ascii.eqb c "009" then backslash +:+ "t"
  else if Ascii.eqb c "008" then backslash +:+ "b"
  else if Ascii.eqb c "012" then backslash +:+ "f"
  else if in_range 32 126 c || (ord c =? 127)%N then String c EmptyString
  else backslash +:+ "u00"
       +:+ String (hex_digit (ord c / 16)) (String (hex_digit (ord c mod 16)) EmptyString).

Fixpoint escape (s : string) : string :=
  match s with
  | EmptyString => EmptyString
  | String c s' => escape_char c +:+ escape s'
  end.

Definition dumps_str (s : string) : string :=
  String dquote (escape s) +:+ String dquote EmptyString.

(** [json.dumps(v)] with the default separators *)
Fixpoint dumps (v : PyVal) : string :=
  match v with
  | VNone => "null"
  | VBool b => if b then "true" else "false"
  | VInt n => pretty n
  | VStr s => dumps_str s
  | VList items => "[" +:+ join ", " (map dumps items) +:+ "]"
  | VDict items =>
      "{" +:+ join ", " (map (fun kv => let '(k, x) := kv in
                                        dumps_str k +:+ ": " +:+ dumps x) items)
      +:+ "}"
  end.

(** *** A parser for the same fragment *)

Fixpoint skip_ws (s : string) : string :=
  match s with
  | String c s' =>
      if Ascii.eqb c " " || Ascii.eqb c "009" || Ascii.eqb c "010" || Ascii.eqb c "013"
      then skip_ws s' else s
  | EmptyString => EmptyString
  end.

Fixpoint digits (s : string) (acc : Z) : Z * string :=
  match s with
  | String c s' =>
      if is_digit c then digits s' (10 * acc + Z.of_N (ord c - 48)) else (acc, s)
  | EmptyString => (acc, s)
  end.

Definition hex_value (c : ascii) : option N :=
  if is_digit c then Some (ord c - 48)%N
  else if in_range 97 102 c then Some (ord c - 87)%N
  else if in_range 65 70 c then Some (ord c - 55)%N
  else None.

(** The characters of a string literal, after its opening quote. *)
Fixpoint string_body (s : string) : option (string * string) :=
  match s with
  | EmptyString => None
  | String c s' =>
      if Ascii.eqb c dquote then Some (EmptyString, s')
      else if Ascii.eqb c "092" then
        match s' with
        | String e s'' =>
            let plain (x : ascii) :=
              match string_body s'' with
              | Some (body, rest) => Some (String x body, rest)
              | None => None
              end in
            if Ascii.eqb e dquote then plain dquote
            else if Ascii.eqb e "092" then plain "092"%char
            else if Ascii.eqb e "/" then plain "/"%char
            else if Ascii.eqb e "n" then plain "010"%char
            else if Ascii.eqb e "r" then plain "013"%char
            else if Ascii.eqb e "t" then plain "009"%char
            else if Ascii.eqb e "b" then plain "008"%char
            else if Ascii.eqb e "f" then plain "012"%char
            else
              match s'' with
              | String "0" (String "0" (String h (String l s3))) =>
                  if Ascii.eqb e "u" then
                    match hex_value h, hex_value l, string_body s3 with
                    | Some a, Some b, Some (body, rest) =>
                        Some (String (ascii_of_N (16 * a + b)) body, rest)
                    | _, _, _ => None
                    end
                  else None
              | _ => None
              end
        | EmptyString => None
        end
      else if (ord c <? 32)%N then None
      else
        match string_body s' with
        | Some (body, rest) => Some (String c body, rest)
        | None => None
        end
  end.

Definition number_end (rest : string) : bool :=
  negb (startswith "." rest || startswith "e" rest || startswith "E" rest).

(** [d[k] = v] *)
Fixpoint dict_set (k : string) (v : PyVal) (d : dict) : dict :=
  match d with
  | [] => [(k, v)]
  | (k', v') :: d' =>
      if String.eqb k k' then (k', v) :: d' else (k', v') :: dict_set k v d'
  end.

Inductive Mode : Type :=
| MValue
| MItems (acc : list PyVal)
| MMembers (acc : dict).

Fixpoint parse (fuel : nat) (m : Mode) (s : string) : option (PyVal * string) :=
  match fuel with
  | O => None
  | S fuel' =>
      let s := skip_ws s in
      match m with
      | MValue =>
          if startswith "null" s then Some (VNone, String.substring 4 (String.length s) s)
          else if startswith "true" s then
            Some (VBool true, String.substring 4 (String.length s) s)
          else if startswith "false" s then
            Some (VBool false, String.substring 5 (String.length s) s)
          else
            match s with
            | String c s' =>
                if Ascii.eqb c dquote then
                  match string_body s' with
                  | Some (body, rest) => Some (VStr body, rest)
                  | None => None
                  end
                else if Ascii.eqb c "[" then
                  match skip_ws s' with
                  | String "]" rest => Some (VList [], rest)
                  | _ => parse fuel' (MItems []) s'
                  end
                else if Ascii.eqb c "{" then
                  match skip_ws s' with
                  | String "}" rest => Some (VDict [], rest)
                  | _ => parse fuel' (MMembers []) s'
                  end
                else if Ascii.eqb c "-" then
                  match s' with
                  | String d _ =>
                      if is_digit d then
                        let '(n, rest) := digits s' 0 in
                        if number_end rest then Some (VInt (- n), rest) else None
                      else None
                  | EmptyString => None
                  end
                else if is_digit c then
                  let '(n, rest) := digits s 0 in
                  if number_end rest then Some (VInt n, rest) else None
                else None
            | EmptyString => None
            end
      | MItems acc =>
          match parse fuel' MValue s with
          | Some (v, rest) =>
              match skip_ws rest with
              | String "," rest' => parse fuel' (MItems (acc ++ [v])) rest'
              | String "]" rest' => Some (VList (acc ++ [v]), rest')
              | _ => None
              end
          | None => None
          end
      | MMembers acc =>
          match s with
          | String c s' =>
              if Ascii.eqb c dquote then
                match string_body s' with
                | Some (key, rest) =>
                    match skip_ws rest with
                    | String ":" rest' =>
                        match parse fuel' MValue rest' with
                        | Some (v, rest'') =>
                            let acc := dict_set key v acc in
                            match skip_ws rest'' with
                            | String "," r => parse fuel' (MMembers acc) r
                            | String "}" r => Some (VDict acc, r)
                            | _ => None
                            end
                        | None => None
                        end
                    | _ => None
                    end
                | None => None
                end
              else None
          | EmptyString => None
          end
      end
  end.

(** [json.loads(s)] *)
Definition loads (s : string) : string + PyVal :=
  match parse (2 * String.length s + 2) MValue s with
  | Some (v, rest) =>
      match skip_ws rest with
      | EmptyString => inr v
      | _ => inl "Extra data"
      end
  | None => inl "Expecting value"
  end.

(** *** [urlparse] on URLs of the common shape *)

Definition is_scheme_char (c : ascii) : bool :=
  is_alnum_az c || Ascii.eqb c "+" || Ascii.eqb c "-" || Ascii.eqb c ".".

(** [s.partition(c)]: the text before the first [c], and the text after
    it when there is one. *)
Fixpoint partition (c : ascii) (s : string) : string * option string :=
  match s with
  | EmptyString => (EmptyString, None)
  | String x s' =>
      if Ascii.eqb x c then (EmptyString, Some s')
      else let '(a, b) := partition c s' in (String x a, b)
  end.

Fixpoint all_chars (p : ascii -> bool) (s : string) : bool :=
  match s with
  | EmptyString => true
  | String c s' => p c && all_chars p s'
  end.

(** The text up to the first of [/], [?] and [#]. *)
Fixpoint netloc_of (s : string) : string :=
  match s with
  | EmptyString => EmptyString
  | String c s' =>
      if Ascii.eqb c "/" || Ascii.eqb c "?" || Ascii.eqb c "#" then EmptyString
      else String c (netloc_of s')
  end.

(** The text after the last [@], when there is one. *)
Fixpoint after_last_at (s : string) : option string :=
  match s with
  | EmptyString => None
  | String c s' =>
      match after_last_at s' with
      | Some rest => Some rest
      | None => if Ascii.eqb c "@" then Some s' else None
      end
  end.

Definition after_userinfo (s : string) : string := default s (after_last_at s).

Definition sample_urlparse (url : string) : string + ParseResult :=
  let '(sch, rest) :=
    match partition ":" url with
    | (String c _ as before, Some after) =>
        if is_alpha_az c && all_chars is_scheme_char before
        then (lower before, after) else (EmptyString, url)
    | _ => (EmptyString, url)
    end in
  let loc := if startswith "//" rest
             then netloc_of (String.substring 2 (String.length rest) rest)
             else EmptyString in
  if xorb (contains "[" loc) (contains "]" loc) then inl "Invalid IPv6 URL"
  else
    let host := after_userinfo loc in
    let host := if startswith "[" host
                then fst (partition "]" (String.substring 1 (String.length host) host))
                else fst (partition ":" host) in
    inr {| scheme := sch; netloc := loc;
           hostname := if nonempty host then Some (lower host) else None |}.

(** *** [str] on the fragment *)

Definition repr_str (s : string) : string := "'" +:+ s +:+ "'".

Fixpoint repr (v : PyVal) : string :=
  match v with
  | VNone => "None"
  | VBool b => if b then "True" else "False"
  | VInt n => pretty n
  | VStr s => repr_str s
  | VList items => "[" +:+ join ", " (map repr items) +:+ "]"
  | VDict items =>
      "{" +:+ join ", " (map (fun kv => let '(k, x) := kv in
                                        repr_str k +:+ ": " +:+ repr x) items)
      +:+ "}"
  end.

Definition sample_str (v : PyVal) : string :=
  match v with
  | VStr s => s
  | _ => repr v
  end.

#[export] Instance lib : PyLib := {|
  py_str := sample_str;
  json_dumps := fun v => inr (dumps v);
  json_loads := loads;
  json_loads_empty := ltac:(intros v; vm_compute; discriminate);
  urlparse := sample_urlparse
|}.

(** *** A dispatcher, its surroundings and a fresh session *)

Definition echo_dispatcher : Dispatcher := {|
  list_all_tools := fun _ => Ok ["search"; "fetch"];
  dispatcher_call_tool := fun _ tool_name input_dict =>
    Returned (VDict [("tool", VStr tool_name); ("args", VDict input_dict)])
|}.

Definition env : Env := {| dispatcher := echo_dispatcher; clock := fun n => Z.of_nat n |}.

Definition fresh_world : World :=
  {| validator := new_validator default_config; trace := [] |}.

(** *** Plans *)

Definition query_args : dict := [("input", VDict [("q", VStr "rocq")])].

(** Two tool calls, whose failures are left to propagate, then a list. *)
Definition two_calls_plan : Plan := {|
  code := "async def solve():
    a = await mcp.call_tool('search', {'input': {'q': 'rocq'}})
    b = await mcp.call_tool('fetch', {'input': {'q': 'rocq'}})
    return ['done', 2]";
  loaded :=
    HasSolve
      (CallTool "search" query_args (fun a =>
         match a with
         | Raised e => Raise e
         | Ok _ =>
             CallTool "fetch" query_args (fun b =>
               match b with
               | Raised e => Raise e
               | Ok _ => Return (VList [VStr "done"; VInt 2])
               end)
         end))
|}.



(** A plan that raises an exception of a class of its own, whose
    [__str__] raises; [__format__] is the inherited one, which calls
    [__str__]. *)
Definition no_text_plan : Plan := {|
  code := "class Odd(Exception):
    def __str__(self):
        raise ValueError('no text')

def solve():
    raise Odd()";
  loaded :=
    HasSolve (Raise {| exn_class := OtherException;
                       exn_str := EmptyString;
                       exn_format_raises := Some (mkExn ValueError "no text");
                       exn_str_raises := Some (mkExn ValueError "no text") |})
|}.

End Sample.


(** ** Notions used to state the properties *)

(** Nesting depth as the specification words it: a leaf lies as deep as
    it has mappings and sequences around it, and the depth of a value is
    that of its deepest leaf (an empty mapping or sequence is a leaf). *)
Fixpoint nesting_depth (v : PyVal) : Z :=
  match v with
  | VList items =>
      match map nesting_depth items with
      | [] => 0
      | d :: ds => 1 + max_of d ds
      end
  | VDict items =>
      match map (fun kv => let '(_, x) := kv in nesting_depth x) items with
      | [] => 0
      | d :: ds => 1 + max_of d ds
      end
  | _ => 0
  end.

(** How the cut-off recursion of [get_depth], started at [base], relates
    to the depth: it agrees with it up to the limit, and ends above the
    limit when the depth does. *)
Definition tracks (max_depth base : Z) (found depth : Z) : Prop :=
  (base + depth <= max_depth -> found = base + depth)
  /\ (max_depth < base + depth -> max_depth < found).

(** The last character of a text. *)
Fixpoint last_char (s : string) : option ascii :=
  match s with
  | EmptyString => None
  | String c EmptyString => Some c
  | String _ s' => last_char s'
  end.

(** The character before the position reached after reading [s], when
    the character before [s] is [prev]. *)
Definition last_or (prev : option ascii) (s : string) : option ascii :=
  match last_char s with Some c => Some c | None => prev end.

Fixpoint all_space (s : string) : bool :=
  match s with
  | EmptyString => true
  | String c s' => PyStr.is_space c && all_space s'
  end.

(** [line] holds a call of [name]: the name, not glued to a word
    character before it, then optional white space and an opening
    parenthesis. *)
Definition has_call (name line : string) : Prop :=
  exists before gap after,
    line = before +:+ name +:+ gap +:+ "(" +:+ after
    /\ Re.word_before (last_char before) = false
    /\ all_space gap = true.

(** The markers of dynamic code evaluation among [dangerous_patterns]. *)
Definition dynamic_evaluation_markers : list string := ["eval"; "exec"].

(** The nested [url] of tool arguments: the value under ['url'] of the
    mapping under ['input']. *)
Definition nested_url (tool_args : dict) : option PyVal :=
  match dict_lookup "input" tool_args with
  | Some (VDict input_dict) => dict_lookup "url" input_dict
  | _ => None
  end.

(** The same configuration with another [max_plan_length]. *)
Definition with_max_plan_length (m : Z) (cfg : HeuristicConfig) : HeuristicConfig :=
  {| max_input_length := max_input_length cfg;
     max_json_depth := max_json_depth cfg;
     max_files_per_call := max_files_per_call cfg;
     max_url_calls_per_domain := max_url_calls_per_domain cfg;
     url_call_window_seconds := url_call_window_seconds cfg;
     request_timeout_seconds := request_timeout_seconds cfg;
     allow_non_ascii := allow_non_ascii cfg;
     blocked_commands := blocked_commands cfg;
     blocked_file_operations := blocked_file_operations cfg;
     max_plan_length := m |}.

Fixpoint filler (n : nat) : string :=
  match n with
  | O => EmptyString
  | S n' => String "x" (filler n')
  end.

(** A harmless plan of 10001 characters: two lines of code and a long
    comment. *)
Definition oversized_plan : string :=
  "def solve():
    return 1
#" +:+ filler 9974.

(** The two checks of the URL step. *)
Definition is_url_check (c : Check) : bool :=
  match c with
  | ChkUrl _ | ChkRateLimit _ => true
  | _ => false
  end.

Section Calls.
Context `{PyLib}.

(** The checks the URL step is to run on [tool_args]: URL validation of
    the nested url when there is one, and after it the rate-limit check
    when that validation passed. *)
Definition url_checks (tool_args : dict) : list Check :=
  match nested_url tool_args with
  | None => []
  | Some url =>
      ChkUrl url ::
      (if fst (validate_url url)
       then match url with VStr u => [ChkRateLimit u] | _ => [] end
       else [])
  end.

(** The tool calls of a run, issued one after the other through the
    gateway, whatever each of them returns or raises. *)
Fixpoint issue (env : Env) (calls : list (string * dict)) (mcp : SandboxMCP) (w : World)
  : list (Res PyVal) * SandboxMCP * World :=
  match calls with
  | [] => ([], mcp, w)
  | (tool_name, input_dict) :: rest =>
      let '(r, mcp, w) := call_tool env mcp tool_name input_dict w in
      let '(rs, mcp, w) := issue env rest mcp w in
      (r :: rs, mcp, w)
  end.

(** The calls the body of [solve()] issues when it runs from [mcp] and [w]. *)
Fixpoint calls_of (env : Env) (body : Solve) (mcp : SandboxMCP) (w : World)
  : list (string * dict) :=
  match body with
  | CallTool tool_name input_dict k =>
      let '(r, mcp', w') := call_tool env mcp tool_name input_dict w in
      (tool_name, input_dict) :: calls_of env (k r) mcp' w'
  | _ => []
  end.

(** A call the validation pipeline rejects. *)
Definition rejected_by_validation (r : Res PyVal) : Prop :=
  exists errors,
    r = Raised (mkExn RuntimeError
                      ("Tool call validation failed: " +:+ PyStr.join "; " errors)).

End Calls.

(** A step of the pipeline that ran no check. *)
Ltac no_new_checks :=
  exists []; split; [ symmetry; apply app_nil_r | reflexivity ].

(** ** Notions for the further properties *)

(** No domain holds more timestamps than the quota. *)
Definition within_quota (self : HeuristicValidator) : Prop :=
  forall domain stamps,
    url_call_tracker self !! domain = Some stamps ->
    Z.of_nat (length stamps) <= max_url_calls_per_domain (config self).

Definition is_forwarded (e : Event) : bool :=
  match e with Forwarded _ _ => true | _ => false end.

Definition is_listing (e : Event) : bool :=
  match e with ListedTools => true | _ => false end.

(** How many events of a kind a trace holds. *)
Definition count_events (kind : Event -> bool) (t : list Event) : nat :=
  length (List.filter kind t).

(** [line] holds the word [name]: the name with no word character right
    before it and none right after it. *)
Definition has_word (name line : string) : Prop :=
  exists before after,
    line = before +:+ name +:+ after
    /\ Re.word_before (last_char before) = false
    /\ Re.word_after after = false.

(** The names [dangerous_patterns] looks for as calls, and as words. *)
Definition call_markers : list string :=
  ["eval"; "exec"; "__import__"; "open"; "file"; "input"; "raw_input"; "execfile"].

Definition word_markers : list string := ["subprocess"; "os.system"].

(** The mapping under ['input'] that the steps of the pipeline read:
    [tool_args.get('input', {})] when it is a [dict]. *)
Definition input_dict_of (tool_args : dict) : option dict :=
  match dict_get "input" (VDict []) tool_args with
  | VDict input_dict => Some input_dict
  | _ => None
  end.

(** The path the file step validates, when it validates one. *)
Definition examined_path (tool_args : dict) : option PyVal :=
  if dict_has "file_path" tool_args || dict_has "path" tool_args then
    match input_dict_of tool_args with
    | Some input_dict =>
        let file_path := py_or (dict_get "file_path" VNone input_dict)
                               (dict_get "path" VNone input_dict) in
        if truthy file_path then Some file_path else None
    | None => None
    end
  else None.

(** The command the command step validates, when it validates one. *)
Definition examined_command (tool_args : dict) : option PyVal :=
  if dict_has "command" tool_args || dict_has "code" tool_args then
    match input_dict_of tool_args with
    | Some input_dict =>
        let cmd := py_or (dict_get "command" VNone input_dict)
                         (dict_get "code" (VStr "") input_dict) in
        if truthy cmd then Some cmd else None
    | None => None
    end
  else None.

(** The query the SQL step validates, when it validates one. *)
Definition examined_query (tool_args : dict) : option string :=
  if dict_has "query" tool_args then
    match input_dict_of tool_args with
    | Some input_dict =>
        match dict_lookup "query" input_dict with
        | Some (VStr query) => Some query
        | _ => None
        end
    | None => None
    end
  else None.

(** Two texts equal up to the case of their letters. *)
Definition same_fold (a b : string) : Prop := PyStr.lower a = PyStr.lower b.

Fixpoint all_of (p : ascii -> bool) (s : string) : bool :=
  match s with
  | EmptyString => true
  | String c s' => p c && all_of p s'
  end.

(** Surroundings in which every forwarded call times out. *)
Definition timing_out_env : Env := {|
  dispatcher := {| list_all_tools := fun _ => Ok ["search"; "fetch"];
                   dispatcher_call_tool := fun _ _ _ => TimedOut |};
  clock := fun n => Z.of_nat n
|}.

(** The character classes of the secret patterns. *)
Definition is_quote_char (c : ascii) : bool := Ascii.eqb c dquote || Ascii.eqb c "'".

Definition is_key_char (c : ascii) : bool :=
  PyStr.is_alnum_az c || Ascii.eqb c "_" || Ascii.eqb c "-".

(** A label of a secret: [api] or [secret], an optional [_] or [-],
    then [key], in whatever letter case. *)
Definition key_label (label : string) : Prop :=
  exists a sep k,
    label = a +:+ sep +:+ k
    /\ (same_fold a "api" \/ same_fold a "secret")
    /\ (sep = EmptyString \/ sep = "_" \/ sep = "-")
    /\ same_fold k "key".

(** An assignment of [secret] under [label]: the label, an optional
    quote, white space, [:] or [=], white space, a quote, the secret. *)
Definition assigns (label secret text : string) : Prop :=
  exists before q1 gap1 d gap2 q2 after,
    text = before +:+ label +:+ q1 +:+ gap1 +:+ String d (gap2 +:+ String q2 (secret +:+ after))
    /\ (q1 = EmptyString \/ exists c, q1 = String c EmptyString /\ is_quote_char c = true)
    /\ all_space gap1 = true
    /\ (d = ":" \/ d = "=")%char
    /\ all_space gap2 = true
    /\ is_quote_char q2 = true.


(** * Properties *)

(** ** Nesting depth *)

Section Depth.

(** Induction over values, with the hypothesis for all children. *)
Lemma PyVal_children_ind (P : PyVal -> Prop) :
  P VNone -> (forall b, P (VBool b)) -> (forall n, P (VInt n)) ->
  (forall s, P (VStr s)) ->
  (forall items, Forall P items -> P (VList items)) ->
  (forall items, Forall (fun kv => P (snd kv)) items -> P (VDict items)) ->
  forall v, P v.
Proof.
  intros HN HB HI HS HL HD.
  fix IH 1. intros [ | b | n | s | items | items ].
  - exact HN.
  - apply HB.
  - apply HI.
  - apply HS.
  - apply HL. induction items as [ | x xs IHxs ]; constructor; [ apply IH | exact IHxs ].
  - apply HD. induction items as [ | [k x] xs IHxs ]; constructor; [ apply IH | exact IHxs ].
Qed.

Lemma tracks_max m c d1 n1 d2 n2 :
  tracks m c d1 n1 -> tracks m c d2 n2 -> tracks m c (Z.max d1 d2) (Z.max n1 n2).
Proof. unfold tracks. lia. Qed.

Lemma tracks_max_of m c ds ns :
  Forall2 (tracks m c) ds ns ->
  forall d n, tracks m c d n -> tracks m c (max_of d ds) (max_of n ns).
Proof.
  unfold max_of. induction 1 as [ | d' n' ds ns Hd _ IH ]; intros d n Hdn; simpl.
  - exact Hdn.
  - apply IH. now apply tracks_max.
Qed.

Lemma max_of_lower_bound d ds : d <= max_of d ds.
Proof.
  unfold max_of. revert d. induction ds as [ | x xs IH ]; intros d; simpl; [ lia | ].
  specialize (IH (Z.max d x)). lia.
Qed.

Lemma nesting_depth_nonneg v : 0 <= nesting_depth v.
Proof.
  induction v as [ | | | | items IH | items IH ] using PyVal_children_ind; simpl; try lia.
  - destruct items as [ | x xs ]; simpl; [ lia | ].
    inversion IH; subst.
    pose proof (max_of_lower_bound (nesting_depth x) (map nesting_depth xs)). lia.
  - destruct items as [ | [k x] xs ]; simpl; [ lia | ].
    inversion IH; subst. simpl in *.
    pose proof (max_of_lower_bound (nesting_depth x)
                  (map (fun kv : string * PyVal => let '(_, y) := kv in nesting_depth y) xs)).
    lia.
Qed.

Lemma get_depth_tracks max_depth v :
  forall current_depth,
    tracks max_depth current_depth (get_depth max_depth v current_depth) (nesting_depth v).
Proof.
  induction v as [ | | | | items IH | items IH ] using PyVal_children_ind;
    intros c; simpl.
  1-4: unfold tracks; destruct (c >? max_depth) eqn:E; lia.
  - destruct (c >? max_depth) eqn:E.
    + pose proof (nesting_depth_nonneg (VList items)) as Hn. simpl in Hn.
      unfold tracks. lia.
    + destruct items as [ | x xs ]; simpl; [ unfold tracks; lia | ].
      inversion IH as [ | ? ? Hx Hxs ]; subst.
      assert (T : tracks max_depth (c + 1)
                    (max_of (get_depth max_depth x (c + 1))
                            (map (fun v => get_depth max_depth v (c + 1)) xs))
                    (max_of (nesting_depth x) (map nesting_depth xs))).
      { apply tracks_max_of; [ | apply Hx ].
        clear -Hxs. induction Hxs; simpl; constructor; auto. }
      unfold tracks in *. lia.
  - destruct (c >? max_depth) eqn:E.
    + pose proof (nesting_depth_nonneg (VDict items)) as Hn. simpl in Hn.
      unfold tracks. lia.
    + destruct items as [ | [k x] xs ]; simpl; [ unfold tracks; lia | ].
      inversion IH as [ | ? ? Hx Hxs ]; subst. simpl in Hx.
      assert (T : tracks max_depth (c + 1)
                    (max_of (get_depth max_depth x (c + 1))
                            (map (fun kv : string * PyVal =>
                                    let '(_, y) := kv in get_depth max_depth y (c + 1)) xs))
                    (max_of (nesting_depth x)
                            (map (fun kv : string * PyVal =>
                                    let '(_, y) := kv in nesting_depth y) xs))).
      { apply tracks_max_of; [ | apply Hx ].
        clear -Hxs. induction Hxs as [ | [k' y] ? Hy ? IHl ]; simpl; constructor; auto. }
      unfold tracks in *. lia.
Qed.

End Depth.

Section JsonDepth.
Context `{PyLib}.

Lemma json_loads_nonempty json_str parsed :
  json_loads json_str = inr parsed -> PyStr.nonempty json_str = true.
Proof.
  destruct json_str; [ | reflexivity ].
  intros E. now apply json_loads_empty in E.
Qed.

(** C7, as the code has it.  The limit the depth is compared with is the
    caller's [max_depth] when that is an integer other than 0, and the
    configured [max_json_depth] when [max_depth] is left out, [None] or
    0.  For every JSON text that parses, [validate_json_input] fails
    exactly when the nesting depth of the parsed value is strictly above
    that limit, and it succeeds, returning the parsed value, for a value
    whose depth equals the limit. *)
Theorem validate_json_input_depth_boundary
        (cfg : HeuristicConfig) (json_str : string) (max_depth : option Z)
        (parsed : PyVal) (limit : Z) :
  json_loads json_str = inr parsed ->
  (max_depth = Some limit /\ limit <> 0)
  \/ ((max_depth = None \/ max_depth = Some 0) /\ limit = max_json_depth cfg) ->
  (fst (fst (validate_json_input cfg json_str max_depth)) = false
   <-> limit < nesting_depth parsed)
  /\ (nesting_depth parsed = limit ->
      validate_json_input cfg json_str max_depth = (true, None, Some parsed)).
Proof.
  intros Hparse Hlimit.
  assert (Hforce : effective_max_depth cfg max_depth = limit).
  { unfold effective_max_depth.
    destruct Hlimit as [[-> Hnonzero] | [[-> | ->] ->]]; [ | reflexivity | reflexivity ].
    destruct (limit =? 0) eqn:E; [ | reflexivity ]. apply Z.eqb_eq in E. contradiction. }
  pose proof (get_depth_tracks limit parsed 0) as [Hle Hgt].
  unfold validate_json_input. rewrite Hforce.
  rewrite (json_loads_nonempty _ _ Hparse), Hparse. simpl.
  destruct (get_depth limit parsed 0 >? limit) eqn:E; simpl; split.
  - split; [ intros _ | reflexivity ]. lia.
  - intros Heq. lia.
  - split; [ discriminate | intros Hlt ]. specialize (Hgt ltac:(lia)). lia.
  - reflexivity.
Qed.

End JsonDepth.

Section JsonDepthExample.
Import Sample.

Lemma validate_json_input_depth_boundary_witness :
  json_loads "[[1]]" = inr (VList [VList [VInt 1]])
  /\ validate_json_input default_config "[[1]]" (Some 2)
     = (true, None, Some (VList [VList [VInt 1]])).
Proof.
  split; [ vm_compute; reflexivity | ].
  apply (validate_json_input_depth_boundary default_config "[[1]]"
           (Some 2) (VList [VList [VInt 1]]) 2).
  - vm_compute. reflexivity.
  - left. split; [ reflexivity | lia ].
  - vm_compute. reflexivity.
Defined.

(** C7, as stated, fails at [max_depth = 0]: the first line of the
    function replaces a zero by the configured limit (10), so a value
    nested one level deep, above a limit of 0, passes. *)
Lemma validate_json_input_zero_max_depth_passes :
  json_loads "[1]" = inr (VList [VInt 1])
  /\ 0 < nesting_depth (VList [VInt 1])
  /\ validate_json_input default_config "[1]" (Some 0)
     = (true, None, Some (VList [VInt 1])).
Proof. repeat split; vm_compute; reflexivity. Qed.

End JsonDepthExample.

(** ** The rate limiter *)

Section RateLimit.
Context `{PyLib}.

Lemma filter_none_in_window (window_start : Z) (recorded : list Z) :
  (forall t, t ∈ recorded -> t <= window_start) ->
  filter (fun t => window_start < t) recorded = [].
Proof.
  induction recorded as [ | t ts IH ]; intros Hold; [ reflexivity | ].
  rewrite filter_cons. destruct (decide (window_start < t)) as [Hin | _].
  - specialize (Hold t ltac:(left)). lia.
  - apply IH. intros t' Ht'. apply Hold. now right.
Qed.

(** C4. [check_url_rate_limit] is a sliding window per domain.  For a
    URL whose domain parses, the timestamps kept for the domain after the
    call are exactly the recorded ones younger than
    [url_call_window_seconds], followed by the current one when the call
    is allowed; the call fails exactly when one more call would bring the
    count in the window above [max_url_calls_per_domain]; other domains
    are untouched; and once the window has elapsed since all earlier
    calls, the call succeeds again (for a positive quota). *)
Theorem check_url_rate_limit_sliding_window
        (self : HeuristicValidator) (current_time : Z) (url : string)
        (parsed : ParseResult) :
  urlparse url = inr parsed ->
  let domain := netloc parsed in
  let window := url_call_window_seconds (config self) in
  let quota := max_url_calls_per_domain (config self) in
  let recorded := default [] (url_call_tracker self !! domain) in
  let in_window := filter (fun t => current_time - window < t) recorded in
  let allowed := fst (fst (check_url_rate_limit self current_time url)) in
  let after := url_call_tracker (snd (check_url_rate_limit self current_time url)) in
  (forall t, t ∈ in_window <-> t ∈ recorded /\ current_time - t < window)
  /\ after !! domain
     = Some (if allowed then in_window ++ [current_time] else in_window)
  /\ (allowed = false <-> quota < Z.of_nat (length in_window) + 1)
  /\ (forall other, other <> domain -> after !! other = url_call_tracker self !! other)
  /\ ((forall t, t ∈ recorded -> window <= current_time - t) -> 0 < quota ->
      allowed = true /\ after !! domain = Some [current_time]).
Proof.
  intros Hparse domain window quota recorded in_window allowed after.
  assert (Hrun :
    check_url_rate_limit self current_time url =
    if Z.of_nat (length in_window) >=? quota then
      ((false,
        Some ("Rate limit exceeded for " +:+ domain +:+ ": "
              +:+ pretty (Z.of_nat (length in_window)) +:+ " calls in "
              +:+ pretty window +:+ "s (max: " +:+ pretty quota +:+ ")")),
       set_tracker self (<[domain := in_window]> (url_call_tracker self)))
    else
      ((true, None),
       set_tracker self (<[domain := in_window ++ [current_time]]>
                           (<[domain := in_window]> (url_call_tracker self))))).
  { unfold check_url_rate_limit. rewrite Hparse. reflexivity. }
  assert (Hmem : forall t, t ∈ in_window <-> t ∈ recorded /\ current_time - t < window).
  { intros t. unfold in_window. rewrite list_elem_of_filter. intuition lia. }
  assert (Hallowed : allowed = negb (Z.of_nat (length in_window) >=? quota)).
  { unfold allowed. rewrite Hrun. now destruct (_ >=? _). }
  assert (Hafter : after !! domain
                   = Some (if allowed then in_window ++ [current_time] else in_window)).
  { unfold after. rewrite Hallowed, Hrun.
    destruct (_ >=? _); simpl; now rewrite lookup_insert_eq. }
  split; [ exact Hmem | ]. split; [ exact Hafter | ].
  split; [ | split ].
  - rewrite Hallowed. destruct (Z.of_nat (length in_window) >=? quota) eqn:E; simpl.
    + split; [ intros _ | reflexivity ]. lia.
    + split; [ discriminate | intros Hlt ]. lia.
  - intros other Hne. unfold after. rewrite Hrun.
    destruct (_ >=? _); simpl; now rewrite !lookup_insert_ne by (intros E; apply Hne; symmetry; exact E).
  - intros Hold Hquota.
    assert (Hempty : in_window = []).
    { apply filter_none_in_window. intros t Ht. specialize (Hold t Ht). lia. }
    assert (Hyes : allowed = true).
    { rewrite Hallowed, Hempty. change (Z.of_nat (length [])) with 0.
      destruct (0 >=? quota) eqn:E; [ lia | reflexivity ]. }
    split; [ exact Hyes | ]. now rewrite Hafter, Hyes, Hempty.
Qed.

End RateLimit.

Section RateLimitExample.
Import Sample.

(** Five calls at times 0..4 fill the quota of the default configuration;
    at time 60 the first of them has left the window. *)
Lemma check_url_rate_limit_sliding_window_witness :
  let self := {| config := default_config;
                 url_call_tracker := {[ "example.com" := [0; 1; 2; 3; 4] ]};
                 checks_run := [] |} in
  urlparse "https://example.com/a" = inr (mkParse "https" "example.com" (Some "example.com"))
  /\ fst (fst (check_url_rate_limit self 59 "https://example.com/a")) = false
  /\ url_call_tracker (snd (check_url_rate_limit self 60 "https://example.com/a"))
       !! "example.com" = Some [1; 2; 3; 4; 60]
  /\ fst (fst (check_url_rate_limit self 64 "https://example.com/a")) = true.
Proof.
  intros self.
  pose proof (check_url_rate_limit_sliding_window self 59 "https://example.com/a"
                (mkParse "https" "example.com" (Some "example.com")) eq_refl)
    as (_ & _ & Hfail & _).
  pose proof (check_url_rate_limit_sliding_window self 60 "https://example.com/a"
                (mkParse "https" "example.com" (Some "example.com")) eq_refl)
    as (_ & Hafter & _).
  pose proof (check_url_rate_limit_sliding_window self 64 "https://example.com/a"
                (mkParse "https" "example.com" (Some "example.com")) eq_refl)
    as (_ & _ & _ & _ & Hagain).
  split; [ reflexivity | ]. split; [ | split ].
  - apply Hfail. vm_compute. reflexivity.
  - exact Hafter.
  - apply Hagain; [ | reflexivity ].
    intros t Ht. change (t ∈ [0; 1; 2; 3; 4]) in Ht.
    change (60 <= 64 - t).
    repeat (apply elem_of_cons in Ht as [-> | Ht]; [ lia | ]).
    now apply elem_of_nil in Ht.
Defined.

End RateLimitExample.

(** ** Text *)

Section Text.
Import PyStr.

Lemma append_cons c s r : String c s +:+ r = String c (s +:+ r).
Proof. reflexivity. Qed.

Lemma append_empty_l r : EmptyString +:+ r = r.
Proof. reflexivity. Qed.

Lemma append_assoc a b c : (a +:+ b) +:+ c = a +:+ (b +:+ c).
Proof. induction a as [ | x a IH ]; [ reflexivity | ]. now rewrite !append_cons, IH. Qed.

Lemma startswith_append k rest : startswith k (k +:+ rest) = true.
Proof.
  induction k as [ | c k IH ]; [ reflexivity | ].
  rewrite append_cons. simpl. now rewrite Ascii.eqb_refl.
Qed.

Lemma startswith_longer k s r : startswith k s = true -> startswith k (s +:+ r) = true.
Proof.
  revert s. induction k as [ | c k IH ]; intros s Hs; [ reflexivity | ].
  destruct s as [ | x s ]; [ discriminate | ].
  rewrite append_cons. simpl in *.
  apply andb_prop in Hs as [-> Hs]. now rewrite IH.
Qed.

Lemma contains_longer_r k s r : contains k s = true -> contains k (s +:+ r) = true.
Proof.
  induction s as [ | x s IH ]; intros Hs.
  - destruct k; [ now destruct r | discriminate ].
  - rewrite append_cons. cbn [contains] in *.
    destruct (startswith k (String x s)) eqn:E.
    + change (String x (s +:+ r)) with (String x s +:+ r).
      now rewrite (startswith_longer _ _ r E).
    + rewrite (IH Hs). now destruct (startswith k (String x (s +:+ r))).
Qed.

Lemma contains_longer_l k l s : contains k s = true -> contains k (l +:+ s) = true.
Proof.
  intros Hs. induction l as [ | x l IH ]; [ exact Hs | ].
  rewrite append_cons. cbn [contains]. rewrite IH.
  now destruct (startswith k (String x (l +:+ s))).
Qed.

Lemma lstrip_is_suffix s : exists l, s = l +:+ lstrip s.
Proof.
  induction s as [ | c s [l IH] ]; [ now exists EmptyString | ].
  simpl. destruct (is_space c).
  - exists (String c l). now rewrite append_cons, <- IH.
  - now exists EmptyString.
Qed.

Lemma rstrip_is_prefix s : exists r, s = rstrip s +:+ r.
Proof.
  induction s as [ | c s [r IH] ]; [ now exists EmptyString | ].
  simpl. destruct (rstrip s) as [ | y ys ] eqn:E.
  - destruct (is_space c).
    + now exists (String c s).
    + exists r. rewrite append_cons. now rewrite IH at 1.
  - exists r. rewrite append_cons. now rewrite IH at 1.
Qed.

Lemma contains_strip k s : contains k (strip s) = true -> contains k s = true.
Proof.
  intros Hk. unfold strip in Hk.
  destruct (lstrip_is_suffix s) as [l Hl].
  destruct (rstrip_is_prefix (lstrip s)) as [r Hr].
  rewrite Hl. apply contains_longer_l. rewrite Hr. now apply contains_longer_r.
Qed.

Lemma has_marker_strip line : has_marker (strip line) = true -> has_marker line = true.
Proof.
  unfold has_marker. rewrite !existsb_exists.
  intros (marker & Hin & Hc). exists marker. split; [ exact Hin | now apply contains_strip ].
Qed.

Lemma code_lines_filter lines :
  code_lines lines
  = map strip (List.filter (fun line => negb (is_comment line) && has_marker (strip line))
                           lines).
Proof.
  induction lines as [ | line rest IH ]; [ reflexivity | ].
  cbn [code_lines List.filter].
  change (startswith "#" (strip line)) with (is_comment line).
  destruct (is_comment line); cbn [negb andb]; [ exact IH | ].
  destruct (has_marker (strip line)); cbn [map]; now rewrite IH.
Qed.

Lemma code_lines_unmarked lines :
  Forall (fun line => has_marker line = false) lines -> code_lines lines = [].
Proof.
  induction 1 as [ | line rest Hline _ IH ]; [ reflexivity | ].
  cbn [code_lines]. destruct (startswith "#" (strip line)); [ exact IH | ].
  destruct (has_marker (strip line)) eqn:E; [ | exact IH ].
  apply has_marker_strip in E. congruence.
Qed.

(** C5. [validate_command_safety] examines only the lines that hold an
    execution marker and are no comments: the lines it keeps are those,
    stripped, and its verdict depends on the text through them alone.
    Consequently a text none of whose lines holds a marker passes,
    whatever else it contains. *)
Theorem validate_command_safety_only_marked_lines
        (cfg : HeuristicConfig) (text : string) :
  code_lines (split_lines text)
  = map strip (List.filter (fun line => negb (is_comment line) && has_marker (strip line))
                           (split_lines text))
  /\ (forall other,
        code_lines (split_lines other) = code_lines (split_lines text) ->
        validate_command_safety cfg (VStr other) = validate_command_safety cfg (VStr text))
  /\ (Forall (fun line => has_marker line = false) (split_lines text) ->
      validate_command_safety cfg (VStr text) = (true, None)).
Proof.
  split; [ apply code_lines_filter | ]. split.
  - intros other Hsame. unfold validate_command_safety. now rewrite Hsame.
  - intros Hnone. unfold validate_command_safety.
    now rewrite (code_lines_unmarked _ Hnone).
Qed.

(** A text with the blocked command [rm -rf] and no execution marker. *)
Lemma validate_command_safety_only_marked_lines_witness :
  let text := "import shutil
target = 'rm -rf /'
shutil.rmtree(target)" in
  contains "rm -rf" text = true
  /\ Forall (fun line => has_marker line = false) (split_lines text)
  /\ validate_command_safety default_config (VStr text) = (true, None).
Proof.
  intros text. split; [ vm_compute; reflexivity | ].
  assert (Hnone : Forall (fun line => has_marker line = false) (split_lines text)).
  { change (split_lines text)
      with ["import shutil"; "target = 'rm -rf /'"; "shutil.rmtree(target)"].
    repeat (constructor; [ vm_compute; reflexivity | ]). constructor. }
  split; [ exact Hnone | ].
  exact (proj2 (proj2 (validate_command_safety_only_marked_lines default_config text)) Hnone).
Defined.

End Text.

(** ** Patterns *)

Section PatternFacts.
Import PyStr Re.

Lemma last_char_cons c s : last_char (String c s) = last_or (Some c) s.
Proof.
  unfold last_or. revert c. induction s as [ | d s IH ]; intros c; [ reflexivity | ].
  change (last_char (String c (String d s))) with (last_char (String d s)).
  rewrite IH. unfold last_or. now destruct (last_char s).
Qed.

Lemma last_or_cons prev c s : last_or prev (String c s) = last_or (Some c) s.
Proof. unfold last_or at 1. rewrite last_char_cons. unfold last_or. now destruct (last_char s). Qed.

Lemma length_append_l (a b : string) : (String.length a <= String.length (a +:+ b))%nat.
Proof. induction a as [ | c a IH ]; [ apply Nat.le_0_l | ]. rewrite append_cons. simpl. lia. Qed.

Lemma matches_lit name : forall prev rest k,
  matches (lit name) prev (name +:+ rest) k = k (last_or prev name) rest.
Proof.
  induction name as [ | c name IH ]; intros prev rest k; [ reflexivity | ].
  rewrite append_cons, last_or_cons. cbn [lit matches chr].
  now rewrite Ascii.eqb_refl, IH.
Qed.

Lemma rounds_spaces k rest gap : forall n prev,
  all_space gap = true -> (String.length gap <= n)%nat ->
  k (last_or prev gap) rest = true ->
  rounds (matches space) k n prev (gap +:+ rest) = true.
Proof.
  induction gap as [ | c gap IH ]; intros n prev Hsp Hn Hk.
  - rewrite append_empty_l. destruct n; cbn [rounds]; change (last_or prev "") with prev in Hk;
      now rewrite Hk.
  - destruct n as [ | n ]; [ simpl in Hn; lia | ].
    cbn [all_space] in Hsp. apply andb_prop in Hsp as [Hc Hsp].
    rewrite append_cons. cbn [rounds matches space]. rewrite Hc.
    rewrite last_or_cons in Hk.
    rewrite IH; [ | exact Hsp | simpl in Hn; lia | exact Hk ].
    destruct (k prev (String c (gap +:+ rest))); reflexivity.
Qed.

Lemma word_after_append name rest :
  word_after name = true -> word_after (name +:+ rest) = true.
Proof. destruct name; [ discriminate | now rewrite append_cons ]. Qed.

Lemma matches_call_pattern name prev gap after :
  word_before prev = false -> word_after name = true -> all_space gap = true ->
  matches (call_pattern name) prev (name +:+ gap +:+ "(" +:+ after) accept = true.
Proof.
  intros Hb Ha Hsp. unfold call_pattern. cbn [seqs matches].
  rewrite Hb, (word_after_append _ _ Ha). cbn [xorb].
  rewrite matches_lit.
  apply rounds_spaces; [ exact Hsp | | reflexivity ].
  etransitivity; [ apply length_append_l | ]. reflexivity.
Qed.

Lemma search_from_skip r before : forall prev s,
  matches r (last_or prev before) s accept = true ->
  search_from r prev (before +:+ s) = true.
Proof.
  induction before as [ | c before IH ]; intros prev s Hm.
  - rewrite append_empty_l. destruct s; cbn [search_from];
      change (last_or prev "") with prev in Hm; now rewrite Hm.
  - rewrite last_or_cons in Hm.
    rewrite append_cons. cbn [search_from]. rewrite IH; [ | exact Hm ].
    destruct (matches r prev (String c (before +:+ s)) accept); reflexivity.
Qed.

Lemma search_call name line :
  word_after name = true -> has_call name line -> search (call_pattern name) line = true.
Proof.
  intros Hname (before & gap & after & -> & Hb & Hsp).
  apply search_from_skip. apply matches_call_pattern; [ | exact Hname | exact Hsp ].
  unfold last_or. now destruct (last_char before).
Qed.

Lemma find_finds {A : Type} (f : A -> bool) (l : list A) (x : A) :
  In x l -> f x = true -> exists y, find f l = Some y.
Proof.
  intros Hin Hx. destruct (find f l) as [ y | ] eqn:E; [ now exists y | ].
  rewrite (find_none _ _ E x Hin) in Hx. discriminate.
Qed.

Lemma plan_with_dangerous_line_rejected cfg plan_code pattern name line :
  In (pattern, name) dangerous_patterns ->
  In line (split_lines plan_code) -> is_comment line = false ->
  search pattern line = true ->
  exists msg, validate_generated_plan cfg plan_code = (false, Some msg).
Proof.
  intros Hp Hl Hc Hs. unfold validate_generated_plan.
  destruct (validate_input_length cfg plan_code) as [[ | ] msg]; cbn [negb];
    [ | eexists; reflexivity ].
  destruct (find_finds (fun pn => line_matches (fst pn) (split_lines plan_code))
                       dangerous_patterns (pattern, name) Hp) as [[p n] ->].
  - unfold line_matches. apply existsb_exists. exists line. split; [ exact Hl | ].
    cbn [fst]. now rewrite Hc, Hs.
  - eexists; reflexivity.
Qed.

End PatternFacts.

(** ** The runner: validation before execution *)

Section PlanValidation.
Context `{PyLib}.
Import PyStr Re.

(** C3. A plan with a call of a dynamic-evaluation marker such as
    [eval(] on a line that is no comment is rejected by
    [validate_generated_plan]; the runner then returns the formatted
    security error and leaves the session as it was: no [Executed]
    event (the plan is neither compiled nor executed), no query to the
    dispatcher, whatever the plan would do and whatever the dispatcher
    would answer. *)
Theorem plan_with_dynamic_evaluation_never_runs
        (env : Env) (plan : Plan) (w : World) (name line : string) :
  In name dynamic_evaluation_markers ->
  In line (split_lines (code plan)) ->
  is_comment line = false ->
  has_call name line ->
  exists msg,
    validate_generated_plan (config (validator w)) (code plan) = (false, Some msg)
    /\ run_python_sandbox env plan w
       = (Ok ("[sandbox error: Security validation failed - " +:+ msg +:+ "]"), w)
    /\ trace (snd (run_python_sandbox env plan w)) = trace w.
Proof.
  intros Hname Hline Hcomment Hcall.
  assert (Hsearch : search (call_pattern name) line = true).
  { apply search_call; [ | exact Hcall ].
    destruct Hname as [<- | [<- | []]]; reflexivity. }
  assert (Hpattern : In (call_pattern name, name) dangerous_patterns).
  { destruct Hname as [<- | [<- | []]]; cbn; tauto. }
  destruct (plan_with_dangerous_line_rejected (config (validator w)) (code plan) _ _ _
              Hpattern Hline Hcomment Hsearch) as [msg Hmsg].
  exists msg. split; [ exact Hmsg | ].
  unfold run_python_sandbox. rewrite Hmsg. cbn [negb fmt_msg]. split; reflexivity.
Qed.

End PlanValidation.

Section PlanValidationExample.
Import Sample PyStr.

Lemma plan_with_dynamic_evaluation_never_runs_witness :
  let plan := {| code := "def solve():
    return eval('1 + 1')";
                 loaded := HasSolve (Return (VInt 2)) |} in
  run_python_sandbox env plan fresh_world
  = (Ok "[sandbox error: Security validation failed - Dangerous operation 'eval' detected in plan]",
     fresh_world).
Proof.
  intros plan.
  destruct (plan_with_dynamic_evaluation_never_runs env plan fresh_world
              "eval" "    return eval('1 + 1')") as (msg & Hmsg & Hrun & _).
  - vm_compute. tauto.
  - vm_compute. tauto.
  - vm_compute. reflexivity.
  - exists "    return ", "", "'1 + 1')". repeat split; vm_compute; reflexivity.
  - rewrite Hrun. replace msg with "Dangerous operation 'eval' detected in plan"; [ reflexivity | ].
    assert (E : validate_generated_plan (config (validator fresh_world)) (code plan)
                = (false, Some "Dangerous operation 'eval' detected in plan"))
      by (vm_compute; reflexivity).
    congruence.
Defined.

End PlanValidationExample.

Section PlanLength.
Import PyStr.

(** The length check of [validate_generated_plan] is the one of
    [validate_input_length], against [max_input_length]. *)
Lemma validate_generated_plan_length_check cfg plan_code :
  max_input_length cfg < len plan_code ->
  fst (validate_generated_plan cfg plan_code) = false.
Proof.
  intros Hlong. unfold validate_generated_plan, validate_input_length.
  destruct (len plan_code >? max_input_length cfg) eqn:E; [ reflexivity | lia ].
Qed.

(** C2, as the code has it.  [validate_generated_plan] never reads
    [max_plan_length]: its verdict is the same for every value of it, and
    with the default configuration a harmless plan of 10001 characters,
    above [max_plan_length = 10000], passes. *)
Theorem validate_generated_plan_ignores_max_plan_length :
  len oversized_plan = 10001
  /\ max_plan_length default_config = 10000
  /\ validate_generated_plan default_config oversized_plan = (true, None)
  /\ (forall cfg m plan_code,
        validate_generated_plan (with_max_plan_length m cfg) plan_code
        = validate_generated_plan cfg plan_code).
Proof.
  split; [ vm_compute; reflexivity | ].
  split; [ reflexivity | ].
  split; [ vm_compute; reflexivity | ].
  intros cfg m plan_code. reflexivity.
Qed.

End PlanLength.

(** ** The URL step of the pipeline *)

Section UrlStep.
Context `{PyLib}.

Lemma dict_has_lookup k d : dict_has k d = false -> dict_lookup k d = None.
Proof.
  induction d as [ | [k' v] d IH ]; [ reflexivity | ].
  cbn [dict_has existsb dict_lookup fst]. destruct (String.eqb k k'); [ discriminate | exact IH ].
Qed.

Lemma check_arguments_checks self tool_args errors :
  exists new,
    checks_run (snd (check_arguments self tool_args errors)) = checks_run self ++ new
    /\ List.filter is_url_check new = [].
Proof.
  unfold check_arguments. destruct (json_dumps (VDict tool_args)) as [ e | args_str ].
  - no_new_checks.
  - destruct (validate_json_input _ _ _) as [[valid msg] parsed].
    exists [ChkJson; ChkApiKey]. cbn [snd note checks_run config].
    split; [ now rewrite <- app_assoc | reflexivity ].
Qed.

Lemma check_url_rate_limit_checks self current_time url :
  checks_run (snd (check_url_rate_limit self current_time url)) = checks_run self.
Proof.
  unfold check_url_rate_limit. destruct (urlparse url); [ reflexivity | ].
  now destruct (_ >=? _).
Qed.

Lemma check_url_arguments_checks self current_time tool_args errors :
  checks_run (snd (check_url_arguments self current_time tool_args errors))
  = checks_run self ++ url_checks tool_args.
Proof.
  unfold check_url_arguments, url_checks, nested_url, dict_get.
  destruct (dict_has "url" tool_args || dict_has "input" tool_args) eqn:Hkeys.
  - destruct (dict_lookup "input" tool_args) as [ [ | | | | | input_dict ] | ];
      cbn [snd dict_lookup]; try (symmetry; apply app_nil_r).
    destruct (dict_lookup "url" input_dict) as [ url | ];
      [ | symmetry; apply app_nil_r ].
    destruct (validate_url url) as [valid msg] eqn:Hvalid. cbn [fst].
    destruct valid; cbn [negb snd note checks_run]; [ | reflexivity ].
    destruct url as [ | | | u | | ]; cbn [snd checks_run]; try reflexivity.
    pose proof (check_url_rate_limit_checks (note (ChkRateLimit u) (note (ChkUrl (VStr u)) self))
                  current_time u) as Hrate.
    destruct (check_url_rate_limit _ current_time u) as [r self'].
    cbn [snd] in *. rewrite Hrate. cbn [note checks_run]. now rewrite <- app_assoc.
  - apply orb_false_elim in Hkeys as [_ Hinput].
    rewrite (dict_has_lookup _ _ Hinput). cbn [snd]. symmetry; apply app_nil_r.
Qed.

Lemma check_file_arguments_checks self tool_args errors :
  exists new,
    checks_run (snd (check_file_arguments self tool_args errors)) = checks_run self ++ new
    /\ List.filter is_url_check new = [].
Proof.
  unfold check_file_arguments.
  destruct (dict_has "file_path" tool_args || dict_has "path" tool_args);
    [ | no_new_checks ].
  destruct (dict_get "input" (VDict []) tool_args);
    try no_new_checks.
  destruct (truthy _);
    [ | no_new_checks ].
  exists [ChkFile]. split; reflexivity.
Qed.

Lemma check_command_arguments_checks self tool_args errors :
  exists new,
    checks_run (snd (check_command_arguments self tool_args errors)) = checks_run self ++ new
    /\ List.filter is_url_check new = [].
Proof.
  unfold check_command_arguments.
  destruct (dict_has "command" tool_args || dict_has "code" tool_args);
    [ | no_new_checks ].
  destruct (dict_get "input" (VDict []) tool_args);
    try no_new_checks.
  destruct (truthy _);
    [ | no_new_checks ].
  exists [ChkCommand]. split; reflexivity.
Qed.

Lemma check_query_arguments_checks self tool_args errors :
  exists new,
    checks_run (snd (check_query_arguments self tool_args errors)) = checks_run self ++ new
    /\ List.filter is_url_check new = [].
Proof.
  unfold check_query_arguments.
  destruct (dict_has "query" tool_args);
    [ | no_new_checks ].
  destruct (dict_get "input" (VDict []) tool_args);
    try no_new_checks.
  destruct (dict_lookup "query" _) as [ [ | | | query | | ] | ];
    try no_new_checks.
  exists [ChkSql]. split; reflexivity.
Qed.

Lemma filter_url_checks tool_args :
  List.filter is_url_check (url_checks tool_args) = url_checks tool_args.
Proof.
  unfold url_checks. destruct (nested_url tool_args) as [ url | ]; [ | reflexivity ].
  cbn [List.filter is_url_check]. f_equal.
  destruct (fst (validate_url url)); [ | reflexivity ].
  now destruct url.
Qed.

(** C6, as the code has it.  Among the checks one call of
    [validate_tool_call] adds to those run before, the URL checks are:
    none when the arguments have no nested url; the URL validation of
    the nested url when there is one, followed by the rate-limit check
    only when that validation passed.  A [url] that is only a top-level
    key gives no URL check. *)
Theorem validate_tool_call_url_checks
        (self : HeuristicValidator) (current_time : Z) (tool_name : string)
        (tool_args : dict) (available_tools : list string) :
  exists new,
    checks_run (snd (validate_tool_call self current_time tool_name tool_args
                                        available_tools))
    = checks_run self ++ new
    /\ List.filter is_url_check new
       = match nested_url tool_args with
         | None => []
         | Some url =>
             ChkUrl url ::
             (if fst (validate_url url)
              then match url with VStr u => [ChkRateLimit u] | _ => [] end
              else [])
         end
    /\ (dict_lookup "input" tool_args = None -> List.filter is_url_check new = []).
Proof.
  assert (Hnew : exists new,
    checks_run (snd (validate_tool_call self current_time tool_name tool_args
                                        available_tools))
    = checks_run self ++ new
    /\ List.filter is_url_check new = url_checks tool_args).
  { unfold validate_tool_call.
    set (self1 := note ChkToolExists self).
    set (errors1 := append_failure [] "" _).
    destruct (check_arguments_checks self1 tool_args errors1) as (n2 & H2 & F2).
    destruct (check_arguments self1 tool_args errors1) as [errors2 self2]. cbn [snd] in H2.
    pose proof (check_url_arguments_checks self2 current_time tool_args errors2) as H3.
    destruct (check_url_arguments self2 current_time tool_args errors2) as [errors3 self3].
    cbn [snd] in H3.
    destruct (check_file_arguments_checks self3 tool_args errors3) as (n4 & H4 & F4).
    destruct (check_file_arguments self3 tool_args errors3) as [[errors4 | e] self4];
      cbn [snd] in H4.
    - destruct (check_command_arguments_checks self4 tool_args errors4) as (n5 & H5 & F5).
      destruct (check_command_arguments self4 tool_args errors4) as [errors5 self5].
      cbn [snd] in H5.
      destruct (check_query_arguments_checks self5 tool_args errors5) as (n6 & H6 & F6).
      destruct (check_query_arguments self5 tool_args errors5) as [errors6 self6].
      cbn [snd] in *.
      exists ([ChkToolExists] ++ n2 ++ url_checks tool_args ++ n4 ++ n5 ++ n6). split.
      + rewrite H6, H5, H4, H3, H2. subst self1. cbn [note checks_run].
        now rewrite <- !app_assoc.
      + rewrite !List.filter_app, F2, F4, F5, F6, filter_url_checks.
        cbn [List.filter is_url_check]. now rewrite !app_nil_r.
    - cbn [snd].
      exists ([ChkToolExists] ++ n2 ++ url_checks tool_args ++ n4). split.
      + rewrite H4, H3, H2. subst self1. cbn [note checks_run].
        now rewrite <- !app_assoc.
      + rewrite !List.filter_app, F2, F4, filter_url_checks.
        cbn [List.filter is_url_check]. now rewrite !app_nil_r. }
  destruct Hnew as (new & Hrun & Hfilter). exists new.
  split; [ exact Hrun | ]. split; [ exact Hfilter | ].
  intros Hinput. rewrite Hfilter. unfold url_checks, nested_url. now rewrite Hinput.
Qed.

End UrlStep.

Section UrlStepTopLevel.
Import Sample.

(** A [url] given as a top-level key only: no URL check is run. *)
Lemma validate_tool_call_url_checks_witness :
  exists new,
    checks_run (snd (validate_tool_call (new_validator default_config) 0 "fetch"
                       [("url", VStr "https://example.com/a")] ["search"; "fetch"]))
    = [] ++ new
    /\ List.filter is_url_check new = [].
Proof.
  destruct (validate_tool_call_url_checks (new_validator default_config) 0 "fetch"
              [("url", VStr "https://example.com/a")] ["search"; "fetch"])
    as (new & Hrun & _ & Htop).
  exists new. split; [ exact Hrun | ]. apply Htop. reflexivity.
Defined.

End UrlStepTopLevel.

Section UrlStepExample.
Import Sample.

(** C6, as stated, fails: the arguments hold a nested url, its
    validation runs and fails on the scheme, and the rate-limit check is
    not run. *)
Lemma validate_tool_call_skips_rate_limit_on_invalid_url :
  let tool_args := [("input", VDict [("url", VStr "ftp://example.com/file")])] in
  nested_url tool_args = Some (VStr "ftp://example.com/file")
  /\ checks_run (snd (validate_tool_call (new_validator default_config) 0 "fetch"
                                         tool_args ["search"; "fetch"]))
     = [ChkToolExists; ChkJson; ChkApiKey; ChkUrl (VStr "ftp://example.com/file")]
  /\ ~ (exists u,
          In (ChkRateLimit u)
             (checks_run (snd (validate_tool_call (new_validator default_config) 0 "fetch"
                                                  tool_args ["search"; "fetch"])))).
Proof.
  intros tool_args.
  assert (Hrun :
    checks_run (snd (validate_tool_call (new_validator default_config) 0 "fetch"
                                        tool_args ["search"; "fetch"]))
    = [ChkToolExists; ChkJson; ChkApiKey; ChkUrl (VStr "ftp://example.com/file")])
    by (vm_compute; reflexivity).
  split; [ reflexivity | ]. split; [ exact Hrun | ].
  rewrite Hrun. intros [u Hin]. cbn in Hin.
  repeat destruct Hin as [Hin | Hin]; try discriminate Hin; exact Hin.
Qed.

End UrlStepExample.

(** ** The runner: result and failures *)

Section RunnerResult.
Context `{PyLib}.
Import PyStr.

Lemma run_python_sandbox_validated env plan w :
  fst (validate_generated_plan (config (validator w)) (code plan)) = true ->
  run_python_sandbox env plan w
  = match execute_plan env plan w with
    | (Ok s, w') => (Ok s, w')
    | (Raised e, w') =>
        if is_Exception e then
          (_ <- format_of e ;; text <- str_of e ;;
           Ok ("[sandbox error: " +:+ text +:+ "]"), w')
        else (Raised e, w')
    end.
Proof.
  intros Hsafe. unfold run_python_sandbox.
  destruct (validate_generated_plan _ _) as [is_safe msg]. cbn [fst] in Hsafe.
  now rewrite Hsafe.
Qed.

(** C8. When the plan passes validation and its [solve] returns
    [result], the runner returns: the text form of the value under
    ['result'] for a mapping that has this key; the JSON text of any
    other mapping; the text forms of the elements joined by single spaces
    for a sequence; the text form of any other value. *)
Theorem run_python_sandbox_normalizes_result
        (env : Env) (plan : Plan) (w : World) (body : Solve) (result : PyVal)
        (mcp' : SandboxMCP) (w' : World) :
  fst (validate_generated_plan (config (validator w)) (code plan)) = true ->
  loaded plan = HasSolve body ->
  run_solve env body {| call_count := 0 |} (log_event Executed w) = (Ok result, mcp', w') ->
  match result with
  | VDict items =>
      match dict_lookup "result" items with
      | Some v => run_python_sandbox env plan w = (Ok (py_str v), w')
      | None =>
          forall s, json_dumps result = inr s ->
                    run_python_sandbox env plan w = (Ok s, w')
      end
  | VList items =>
      run_python_sandbox env plan w = (Ok (join " " (map py_str items)), w')
  | _ => run_python_sandbox env plan w = (Ok (py_str result), w')
  end.
Proof.
  intros Hsafe Hloaded Hsolve.
  rewrite (run_python_sandbox_validated _ _ _ Hsafe).
  unfold execute_plan. rewrite Hloaded, Hsolve. cbn [bind].
  destruct result as [ | b | n | s | items | items ]; cbn [format_result]; try reflexivity.
  destruct (dict_lookup "result" items) as [ v | ]; [ reflexivity | ].
  intros s Hs. now rewrite Hs.
Qed.


End RunnerResult.

Section RunnerExamples.
Import Sample PyStr.

Lemma run_python_sandbox_normalizes_result_witness :
  fst (run_python_sandbox env two_calls_plan fresh_world) = Ok "done 2"
  /\ trace (snd (run_python_sandbox env two_calls_plan fresh_world))
     = [Executed; ListedTools; Forwarded "search" query_args;
        ListedTools; Forwarded "fetch" query_args].
Proof.
  pose (start := log_event Executed fresh_world).
  pose (body :=
    CallTool "search" query_args (fun a =>
      match a with
      | Raised e => Raise e
      | Ok _ =>
          CallTool "fetch" query_args (fun b =>
            match b with
            | Raised e => Raise e
            | Ok _ => Return (VList [VStr "done"; VInt 2])
            end)
      end)).
  pose (final := run_solve env body {| call_count := 0 |} start).
  assert (Hrun : run_python_sandbox env two_calls_plan fresh_world
                 = (Ok (join " " (map py_str [VStr "done"; VInt 2])), snd final)).
  { apply (run_python_sandbox_normalizes_result env two_calls_plan fresh_world body
             (VList [VStr "done"; VInt 2]) (snd (fst final)) (snd final)).
    - vm_compute. reflexivity.
    - reflexivity.
    - vm_compute. reflexivity. }
  rewrite Hrun. split; vm_compute; reflexivity.
Defined.



(** So does what the handler itself raises: the plan's exception is an
    instance of [Exception] and is caught, but its [__str__] raises when
    the handler formats it, and that [ValueError] leaves the runner. *)
Lemma run_python_sandbox_lets_handler_failure_through :
  validate_generated_plan default_config (code no_text_plan) = (true, None)
  /\ fst (run_python_sandbox env no_text_plan fresh_world)
     = Raised (mkExn ValueError "no text").
Proof. split; vm_compute; reflexivity. Qed.

End RunnerExamples.

(** ** The call budget of the gateway *)

Section CallBudget.
Context `{PyLib}.
Import PyStr.

Lemma call_tool_counts env self tool_name input_dict w :
  call_count (snd (fst (call_tool env self tool_name input_dict w)))
  = S (call_count self).
Proof.
  unfold call_tool. cbn [call_count]. rewrite Nat.add_1_r.
  destruct (MAX_TOOL_CALLS_PER_PLAN <? S (call_count self))%nat; [ reflexivity | ].
  destruct (list_all_tools _ _) as [ available_tools | e ]; [ | reflexivity ].
  destruct (validate_tool_call _ _ _ _ _) as [[ [is_valid errors] | e ] v]; [ | reflexivity ].
  destruct is_valid; cbn [negb]; [ | reflexivity ].
  destruct (execute_with_timeout _ _ _) as [ result | e ]; [ reflexivity | ].
  now destruct (exn_class e).
Qed.

Lemma call_tool_over_budget env self tool_name input_dict w :
  (MAX_TOOL_CALLS_PER_PLAN <= call_count self)%nat ->
  call_tool env self tool_name input_dict w
  = (Raised budget_error, {| call_count := S (call_count self) |}, w).
Proof.
  intros Hfull. unfold call_tool. cbn [call_count]. rewrite Nat.add_1_r.
  destruct (MAX_TOOL_CALLS_PER_PLAN <? S (call_count self))%nat eqn:E; [ reflexivity | ].
  apply Nat.ltb_ge in E. lia.
Qed.

Lemma call_tool_within_budget env self tool_name input_dict w
      available_tools errors v result :
  (call_count self < MAX_TOOL_CALLS_PER_PLAN)%nat ->
  list_all_tools (dispatcher env) (trace w) = Ok available_tools ->
  validate_tool_call (validator w) (clock env (call_count self)) tool_name input_dict
                     available_tools = (Ok (true, errors), v) ->
  dispatcher_call_tool (dispatcher env) (trace w ++ [ListedTools]) tool_name input_dict
  = Returned result ->
  fst (fst (call_tool env self tool_name input_dict w)) = Ok result.
Proof.
  intros Hroom Htools Hvalid Hcall. unfold call_tool. cbn [call_count]. rewrite Nat.add_1_r.
  destruct (MAX_TOOL_CALLS_PER_PLAN <? S (call_count self))%nat eqn:E.
  - apply Nat.ltb_lt in E. lia.
  - rewrite Htools. cbn [log_event validator trace]. rewrite Hvalid.
    cbn [negb set_validator trace validator].
    change (trace (log_event ListedTools w)) with (trace w ++ [ListedTools]).
    rewrite Hcall. reflexivity.
Qed.

Lemma issue_counts env calls : forall mcp w,
  call_count (snd (fst (issue env calls mcp w))) = (call_count mcp + length calls)%nat.
Proof.
  induction calls as [ | [tool_name input_dict] rest IH ]; intros mcp w.
  - cbn [issue fst snd length]. lia.
  - cbn [issue length].
    pose proof (call_tool_counts env mcp tool_name input_dict w) as Hc.
    destruct (call_tool env mcp tool_name input_dict w) as [[r mcp1] w1]. cbn [fst snd] in Hc.
    specialize (IH mcp1 w1).
    destruct (issue env rest mcp1 w1) as [[rs mcp2] w2]. cbn [fst snd] in *. lia.
Qed.

Lemma issue_over_budget env calls : forall mcp w i r,
  (MAX_TOOL_CALLS_PER_PLAN <= call_count mcp + i)%nat ->
  nth_error (fst (fst (issue env calls mcp w))) i = Some r ->
  r = Raised budget_error.
Proof.
  induction calls as [ | [tool_name input_dict] rest IH ]; intros mcp w i r Hfull Hnth.
  - cbn [issue fst] in Hnth. destruct i; discriminate.
  - cbn [issue] in Hnth.
    pose proof (call_tool_counts env mcp tool_name input_dict w) as Hc.
    destruct i as [ | i ].
    + rewrite call_tool_over_budget in Hnth by lia.
      destruct (issue env rest _ w) as [[rs mcp2] w2]. cbn in Hnth. congruence.
    + destruct (call_tool env mcp tool_name input_dict w) as [[r1 mcp1] w1].
      cbn [fst snd] in Hc. specialize (IH mcp1 w1 i r).
      destruct (issue env rest mcp1 w1) as [[rs mcp2] w2]. cbn [fst nth_error] in *.
      apply IH; [ lia | exact Hnth ].
Qed.

(** A run of [solve()] moves the gateway and the session as the calls it
    issues do. *)
Lemma run_solve_issues env body : forall mcp w,
  snd (fst (run_solve env body mcp w))
  = snd (fst (issue env (calls_of env body mcp w) mcp w))
  /\ snd (run_solve env body mcp w) = snd (issue env (calls_of env body mcp w) mcp w).
Proof.
  induction body as [ result | e | tool_name input_dict k IH ]; intros mcp w;
    [ split; reflexivity | split; reflexivity | ].
  cbn [run_solve calls_of].
  destruct (call_tool env mcp tool_name input_dict w) as [[r mcp1] w1] eqn:Hcall.
  cbn [issue]. rewrite Hcall.
  destruct (IH r mcp1 w1) as [Hm Hw].
  destruct (issue env (calls_of env (k r) mcp1 w1) mcp1 w1) as [[rs mcp2] w2].
  cbn [fst snd] in *. now split.
Qed.

(** C1. In a plan run (a fresh gateway and the calls issued so far,
    whatever they were and however they ended): a call issued when five
    or more were issued before fails with the budget error, whatever its
    tool and arguments, and leaves the session untouched; hence every
    result from the sixth on is the budget error.  A call among the
    first five that is valid (the tools are listed, validation passes
    and the dispatcher returns) succeeds with the dispatcher's result. *)
Theorem call_tool_budget (env : Env) (calls : list (string * dict)) (w : World) :
  let mcp := snd (fst (issue env calls {| call_count := 0 |} w)) in
  let w' := snd (issue env calls {| call_count := 0 |} w) in
  (forall tool_name input_dict,
     (MAX_TOOL_CALLS_PER_PLAN <= length calls)%nat ->
     call_tool env mcp tool_name input_dict w'
     = (Raised budget_error, {| call_count := S (length calls) |}, w'))
  /\ (forall i r,
        (MAX_TOOL_CALLS_PER_PLAN <= i)%nat ->
        nth_error (fst (fst (issue env calls {| call_count := 0 |} w))) i = Some r ->
        r = Raised budget_error)
  /\ (forall tool_name input_dict available_tools errors v result,
        (length calls < MAX_TOOL_CALLS_PER_PLAN)%nat ->
        list_all_tools (dispatcher env) (trace w') = Ok available_tools ->
        validate_tool_call (validator w') (clock env (length calls)) tool_name input_dict
                           available_tools = (Ok (true, errors), v) ->
        dispatcher_call_tool (dispatcher env) (trace w' ++ [ListedTools]) tool_name
                             input_dict = Returned result ->
        fst (fst (call_tool env mcp tool_name input_dict w')) = Ok result).
Proof.
  intros mcp w'.
  assert (Hcount : call_count mcp = length calls).
  { unfold mcp. now rewrite issue_counts. }
  split; [ | split ].
  - intros tool_name input_dict Hfull.
    rewrite call_tool_over_budget by (rewrite Hcount; exact Hfull). now rewrite Hcount.
  - intros i r Hi Hnth. eapply issue_over_budget; [ | exact Hnth ]. cbn [call_count]. lia.
  - intros tool_name input_dict available_tools errors v result Hroom Htools Hvalid Hcall.
    eapply call_tool_within_budget; rewrite ?Hcount; eassumption.
Qed.

(** C10. Every call of the gateway's [call_tool] adds one to the call
    counter, whatever becomes of the call, a rejection by validation
    included.  So when the five calls issued so far in a run were all
    rejected by validation, the sixth fails with the budget error,
    whatever its tool and arguments. *)
Theorem rejected_calls_consume_budget (env : Env) :
  (forall self tool_name input_dict w,
     call_count (snd (fst (call_tool env self tool_name input_dict w)))
     = S (call_count self))
  /\ (forall calls w tool_name input_dict,
        length calls = 5%nat ->
        Forall rejected_by_validation
               (fst (fst (issue env calls {| call_count := 0 |} w))) ->
        fst (fst (call_tool env (snd (fst (issue env calls {| call_count := 0 |} w)))
                            tool_name input_dict
                            (snd (issue env calls {| call_count := 0 |} w))))
        = Raised budget_error).
Proof.
  split.
  - intros. apply call_tool_counts.
  - intros calls w tool_name input_dict Hfive _.
    rewrite call_tool_over_budget; [ reflexivity | ].
    rewrite issue_counts, Hfive. cbn. unfold MAX_TOOL_CALLS_PER_PLAN. lia.
Qed.

End CallBudget.

Section CallBudgetExamples.
Import Sample PyStr.

(** Four valid calls were issued; the fifth, valid too, succeeds. *)
Lemma call_tool_budget_witness :
  let calls := [("search", query_args); ("search", query_args);
                ("fetch", query_args); ("search", query_args)] in
  fst (fst (call_tool env (snd (fst (issue env calls {| call_count := 0 |} fresh_world)))
                      "fetch" query_args
                      (snd (issue env calls {| call_count := 0 |} fresh_world))))
  = Ok (VDict [("tool", VStr "fetch"); ("args", VDict query_args)]).
Proof.
  intros calls.
  eapply (proj2 (proj2 (call_tool_budget env calls fresh_world))).
  - cbn. unfold MAX_TOOL_CALLS_PER_PLAN. lia.
  - vm_compute. reflexivity.
  - vm_compute. reflexivity.
  - vm_compute. reflexivity.
Defined.

(** Five calls of a tool that is not in the registry are rejected by
    validation; the sixth call, valid in itself, fails on the budget. *)
Lemma rejected_calls_consume_budget_witness :
  let calls := [("nope", query_args); ("nope", query_args); ("nope", query_args);
                ("nope", query_args); ("nope", query_args)] in
  Forall rejected_by_validation (fst (fst (issue env calls {| call_count := 0 |} fresh_world)))
  /\ fst (fst (call_tool env (snd (fst (issue env calls {| call_count := 0 |} fresh_world)))
                         "search" query_args
                         (snd (issue env calls {| call_count := 0 |} fresh_world))))
     = Raised budget_error.
Proof.
  intros calls.
  assert (Hrejected :
    Forall rejected_by_validation
           (fst (fst (issue env calls {| call_count := 0 |} fresh_world)))).
  { assert (Hresults :
      fst (fst (issue env calls {| call_count := 0 |} fresh_world))
      = repeat (Raised (mkExn RuntimeError
                  ("Tool call validation failed: "
                   +:+ join "; " ["Tool 'nope' not found in registry. Available tools: search, fetch..."])))
               5) by (vm_compute; reflexivity).
    rewrite Hresults. cbn [repeat].
    repeat (constructor; [ eexists; reflexivity | ]). constructor. }
  split; [ exact Hrejected | ].
  exact (proj2 (rejected_calls_consume_budget env) calls fresh_world "search" query_args
               eq_refl Hrejected).
Defined.

End CallBudgetExamples.

(** * Further properties *)

(** ** URL validation *)

Section UrlValidation.
Context `{PyLib}.
Import PyStr.

Lemma mem_In x l : mem x l = true <-> In x l.
Proof.
  unfold mem. rewrite existsb_exists. split.
  - intros (y & Hin & Heq). apply String.eqb_eq in Heq. now subst.
  - intros Hin. exists x. split; [ exact Hin | apply String.eqb_refl ].
Qed.

Lemma mem_not_In x l : mem x l = false <-> ~ In x l.
Proof.
  rewrite <- mem_In. destruct (mem x l); split; intros; congruence.
Qed.

Lemma nonempty_true s : nonempty s = true <-> s <> EmptyString.
Proof. destruct s; simpl; split; intros; congruence. Qed.

(** X1. [validate_url] accepts exactly the non-empty strings that
    [urlparse] parses to a scheme [http] or [https], a non-empty network
    location and a host that is neither one of the four blocked hosts nor
    starts with [192.168.], [10.] or [172.16.]; a URL without a host
    passes these last tests. *)
Theorem validate_url_accepts_public_http (url : PyVal) :
  fst (validate_url url) = true <->
  exists u parsed,
    url = VStr u /\ u <> EmptyString /\ urlparse u = inr parsed
    /\ (scheme parsed = "http" \/ scheme parsed = "https")
    /\ netloc parsed <> EmptyString
    /\ (forall h, hostname parsed = Some h ->
          ~ In h blocked_hosts
          /\ startswith "192.168." h = false
          /\ startswith "10." h = false
          /\ startswith "172.16." h = false).
Proof.
  split.
  - destruct url as [ | | | [ | c u ] | | ]; try discriminate.
    cbn [validate_url]. destruct (urlparse (String c u)) as [ e | parsed ] eqn:Hparse;
      [ discriminate | ].
    destruct (mem (scheme parsed) ["http"; "https"]) eqn:Hscheme; cbn [negb];
      [ | discriminate ].
    destruct (nonempty (netloc parsed)) eqn:Hloc; cbn [negb]; [ | discriminate ].
    intros Hpass. exists (String c u), parsed.
    split; [ reflexivity | ]. split; [ discriminate | ]. split; [ exact Hparse | ].
    split.
    { apply mem_In in Hscheme. destruct Hscheme as [E | [E | []]];
        [ left | right ]; now symmetry. }
    split; [ now apply nonempty_true | ].
    intros h Hh. rewrite Hh in Hpass.
    destruct (mem h blocked_hosts) eqn:Hblocked; [ discriminate | ].
    split; [ now apply mem_not_In | ].
    destruct h as [ | x h ]; [ repeat split; reflexivity | ].
    cbn [nonempty andb] in Hpass.
    destruct (startswith "192.168." (String x h)); [ discriminate | ].
    destruct (startswith "10." (String x h)); [ discriminate | ].
    destruct (startswith "172.16." (String x h)); [ discriminate | ].
    repeat split; reflexivity.
  - intros (u & parsed & -> & Hu & Hparse & Hscheme & Hloc & Hhost).
    destruct u as [ | c u ]; [ congruence | ].
    cbn [validate_url]. rewrite Hparse.
    assert (Hs : mem (scheme parsed) ["http"; "https"] = true).
    { apply mem_In. destruct Hscheme as [-> | ->]; cbn; tauto. }
    rewrite Hs. cbn [negb].
    apply nonempty_true in Hloc. rewrite Hloc. cbn [negb].
    destruct (hostname parsed) as [ h | ]; [ | reflexivity ].
    destruct (Hhost h eq_refl) as (Hblocked & H1 & H2 & H3).
    apply mem_not_In in Hblocked. rewrite Hblocked, H1, H2, H3.
    now destruct (nonempty h).
Qed.

End UrlValidation.

Section UrlValidationExample.
Import Sample PyStr.

Lemma validate_url_accepts_public_http_witness :
  fst (validate_url (VStr "https://example.com/a")) = true
  /\ ~ fst (validate_url (VStr "http://127.0.0.1/a")) = true.
Proof.
  split.
  - apply (proj2 (validate_url_accepts_public_http (VStr "https://example.com/a"))).
    exists "https://example.com/a", (mkParse "https" "example.com" (Some "example.com")).
    split; [ reflexivity | ]. split; [ discriminate | ]. split; [ reflexivity | ].
    split; [ now right | ]. split; [ discriminate | ].
    intros h Hh. injection Hh as <-.
    split; [ | repeat split; reflexivity ].
    cbn. intros [E | [E | [E | [E | []]]]]; discriminate E.
  - intros Hpass.
    apply (proj1 (validate_url_accepts_public_http (VStr "http://127.0.0.1/a"))) in Hpass.
    destruct Hpass as (u & parsed & Hu & _ & Hparse & _ & _ & Hhost).
    injection Hu as <-. vm_compute in Hparse. injection Hparse as <-.
    destruct (Hhost "127.0.0.1" eq_refl) as [Hblocked _].
    apply Hblocked. cbn. tauto.
Defined.

End UrlValidationExample.

(** ** The steps of the pipeline: what they keep and what they report *)

Section PipelineFacts.
Context `{PyLib}.
Import PyStr.

Lemma append_failure_grows errors prefix r :
  append_failure errors prefix r
  = errors ++ (if fst r then [] else [prefix +:+ fmt_msg (snd r)]).
Proof.
  unfold append_failure. destruct (fst r); [ symmetry; apply app_nil_r | reflexivity ].
Qed.

Lemma append_failure_clean errors prefix r extra :
  append_failure errors prefix r = errors ++ extra -> extra = [] -> fst r = true.
Proof.
  rewrite append_failure_grows. intros Heq ->. rewrite app_nil_r in Heq.
  destruct (fst r); [ reflexivity | ].
  apply (f_equal (@length string)) in Heq. rewrite length_app in Heq. simpl in Heq. lia.
Qed.

Lemma grows_twice (a b : list string) :
  a ++ b = [] -> a = [] /\ b = [].
Proof. destruct a; simpl; [ intros ->; now split | discriminate ]. Qed.

Lemma check_arguments_frame self tool_args errors :
  config (snd (check_arguments self tool_args errors)) = config self
  /\ url_call_tracker (snd (check_arguments self tool_args errors)) = url_call_tracker self.
Proof.
  unfold check_arguments. destruct (json_dumps (VDict tool_args)); [ now split | ].
  destruct (validate_json_input _ _ _) as [[valid msg] parsed]. now split.
Qed.

Lemma check_arguments_errors self tool_args errors :
  exists extra,
    fst (check_arguments self tool_args errors) = errors ++ extra
    /\ (extra = [] ->
        exists args_str,
          json_dumps (VDict tool_args) = inr args_str
          /\ fst (fst (validate_json_input (config self) args_str None)) = true
          /\ fst (validate_api_key_exposure args_str) = true).
Proof.
  unfold check_arguments. destruct (json_dumps (VDict tool_args)) as [ e | args_str ].
  - eexists. split; [ reflexivity | discriminate ].
  - cbn [note config].
    destruct (validate_json_input (config self) args_str None) as [[valid msg] parsed] eqn:Hjson.
    cbn [fst]. rewrite !append_failure_grows, <- app_assoc. cbn [fst snd].
    eexists. split; [ reflexivity | ].
    intros Hclean. apply grows_twice in Hclean as [Hv Hk].
    exists args_str. split; [ reflexivity | ].
    rewrite Hjson. cbn [fst].
    split; [ now destruct valid | now destruct (fst (validate_api_key_exposure args_str)) ].
Qed.

Lemma check_url_rate_limit_config self current_time url :
  config (snd (check_url_rate_limit self current_time url)) = config self.
Proof.
  unfold check_url_rate_limit. destruct (urlparse url); [ reflexivity | ].
  now destruct (_ >=? _).
Qed.

(** The verdict of the rate limiter and the timestamps it keeps depend on
    the configuration and the timestamps only. *)
Lemma check_url_rate_limit_same a b current_time url :
  config a = config b -> url_call_tracker a = url_call_tracker b ->
  fst (check_url_rate_limit a current_time url) = fst (check_url_rate_limit b current_time url)
  /\ url_call_tracker (snd (check_url_rate_limit a current_time url))
     = url_call_tracker (snd (check_url_rate_limit b current_time url)).
Proof.
  intros Hc Ht. unfold check_url_rate_limit. rewrite Hc, Ht.
  destruct (urlparse url); [ now split | ].
  destruct (_ >=? _); now split.
Qed.

Lemma check_url_arguments_config self current_time tool_args errors :
  config (snd (check_url_arguments self current_time tool_args errors)) = config self.
Proof.
  unfold check_url_arguments.
  destruct (dict_has "url" tool_args || dict_has "input" tool_args); [ | reflexivity ].
  destruct (dict_get "input" (VDict []) tool_args) as [ | | | | | input_dict ];
    try reflexivity.
  destruct (dict_lookup "url" input_dict) as [ url | ]; [ | reflexivity ].
  destruct (validate_url url) as [[ | ] msg]; cbn [negb]; [ | reflexivity ].
  destruct url as [ | | | u | | ]; try reflexivity.
  pose proof (check_url_rate_limit_config
                (note (ChkRateLimit u) (note (ChkUrl (VStr u)) self)) current_time u) as Hc.
  destruct (check_url_rate_limit _ current_time u) as [r self']. exact Hc.
Qed.

(** What the URL step does, by the nested url. *)
Lemma check_url_arguments_cases self current_time tool_args errors :
  match nested_url tool_args with
  | None => check_url_arguments self current_time tool_args errors = (errors, self)
  | Some url =>
      if fst (validate_url url) then
        match url with
        | VStr u =>
            let after := check_url_rate_limit
                           (note (ChkRateLimit u) (note (ChkUrl url) self)) current_time u in
            check_url_arguments self current_time tool_args errors
            = (append_failure errors "Rate limit: " (fst after), snd after)
        | _ => True
        end
      else
        check_url_arguments self current_time tool_args errors
        = (append_failure errors "URL validation: " (validate_url url),
           note (ChkUrl url) self)
  end.
Proof.
  unfold check_url_arguments, nested_url, dict_get.
  destruct (dict_has "url" tool_args || dict_has "input" tool_args) eqn:Hkeys.
  - destruct (dict_lookup "input" tool_args) as [ [ | | | | | input_dict ] | ];
      cbn [dict_lookup]; try reflexivity.
    destruct (dict_lookup "url" input_dict) as [ url | ]; [ | reflexivity ].
    destruct (validate_url url) as [valid msg] eqn:Hvalid. cbn [fst].
    destruct valid; cbn [negb]; [ | reflexivity ].
    destruct url as [ | | | u | | ]; try exact I.
    cbn zeta. now destruct (check_url_rate_limit _ current_time u).
  - apply orb_false_elim in Hkeys as [_ Hinput].
    now rewrite (dict_has_lookup _ _ Hinput).
Qed.

Lemma validate_url_string url : fst (validate_url url) = true -> exists u, url = VStr u.
Proof. destruct url; try discriminate. intros _. now eexists. Qed.

Lemma check_file_arguments_frame self tool_args errors :
  config (snd (check_file_arguments self tool_args errors)) = config self
  /\ url_call_tracker (snd (check_file_arguments self tool_args errors))
     = url_call_tracker self.
Proof.
  unfold check_file_arguments.
  destruct (dict_has "file_path" tool_args || dict_has "path" tool_args); [ | now split ].
  destruct (dict_get "input" (VDict []) tool_args); try now split.
  destruct (truthy _); now split.
Qed.

Lemma check_file_arguments_cases self tool_args errors :
  check_file_arguments self tool_args errors
  = match examined_path tool_args with
    | Some file_path =>
        (r <- validate_file_inputs (config self) [file_path] ;;
         Ok (append_failure errors "File validation: " r), note ChkFile self)
    | None => (Ok errors, self)
    end.
Proof.
  unfold check_file_arguments, examined_path, input_dict_of.
  destruct (dict_has "file_path" tool_args || dict_has "path" tool_args); [ | reflexivity ].
  destruct (dict_get "input" (VDict []) tool_args); try reflexivity.
  now destruct (truthy _).
Qed.

Lemma check_command_arguments_cases self tool_args errors :
  check_command_arguments self tool_args errors
  = match examined_command tool_args with
    | Some cmd =>
        (append_failure errors "Command safety: "
                        (validate_command_safety (config self) cmd),
         note ChkCommand self)
    | None => (errors, self)
    end.
Proof.
  unfold check_command_arguments, examined_command, input_dict_of.
  destruct (dict_has "command" tool_args || dict_has "code" tool_args); [ | reflexivity ].
  destruct (dict_get "input" (VDict []) tool_args); try reflexivity.
  now destruct (truthy _).
Qed.

Lemma check_query_arguments_cases self tool_args errors :
  check_query_arguments self tool_args errors
  = match examined_query tool_args with
    | Some query =>
        (append_failure errors "SQL injection check: " (validate_sql_injection query),
         note ChkSql self)
    | None => (errors, self)
    end.
Proof.
  unfold check_query_arguments, examined_query, input_dict_of.
  destruct (dict_has "query" tool_args); [ | reflexivity ].
  destruct (dict_get "input" (VDict []) tool_args); try reflexivity.
  now destruct (dict_lookup "query" _) as [ [ | | | | | ] | ].
Qed.

Lemma check_command_arguments_frame self tool_args errors :
  config (snd (check_command_arguments self tool_args errors)) = config self
  /\ url_call_tracker (snd (check_command_arguments self tool_args errors))
     = url_call_tracker self.
Proof.
  rewrite check_command_arguments_cases. now destruct (examined_command tool_args).
Qed.

Lemma check_query_arguments_frame self tool_args errors :
  config (snd (check_query_arguments self tool_args errors)) = config self
  /\ url_call_tracker (snd (check_query_arguments self tool_args errors))
     = url_call_tracker self.
Proof.
  rewrite check_query_arguments_cases. now destruct (examined_query tool_args).
Qed.

(** The pipeline after its URL step keeps configuration and timestamps. *)
Lemma validate_tool_call_frame self current_time tool_name tool_args available_tools :
  let self1 := snd (check_arguments (note ChkToolExists self) tool_args
                      (append_failure [] "" (validate_tool_exists tool_name available_tools))) in
  let errors1 := fst (check_arguments (note ChkToolExists self) tool_args
                      (append_failure [] "" (validate_tool_exists tool_name available_tools))) in
  let after := snd (check_url_arguments self1 current_time tool_args errors1) in
  config (snd (validate_tool_call self current_time tool_name tool_args available_tools))
  = config self
  /\ url_call_tracker (snd (validate_tool_call self current_time tool_name tool_args
                                               available_tools))
     = url_call_tracker after
  /\ config self1 = config self
  /\ url_call_tracker self1 = url_call_tracker self.
Proof.
  intros self1 errors1 after.
  destruct (check_arguments_frame (note ChkToolExists self) tool_args
              (append_failure [] "" (validate_tool_exists tool_name available_tools)))
    as [Hc1 Ht1].
  fold self1 in Hc1, Ht1. cbn [note config url_call_tracker] in Hc1, Ht1.
  pose proof (check_url_arguments_config self1 current_time tool_args errors1) as Hc2.
  fold after in Hc2.
  unfold validate_tool_call.
  destruct (check_arguments (note ChkToolExists self) tool_args _) as [e1 s1] eqn:E1.
  subst self1 errors1. cbn [fst snd] in *.
  destruct (check_url_arguments s1 current_time tool_args e1) as [e2 s2] eqn:E2.
  subst after. cbn [snd] in *.
  destruct (check_file_arguments_frame s2 tool_args e2) as [Hc3 Ht3].
  destruct (check_file_arguments s2 tool_args e2) as [[e3 | x] s3]; cbn [snd] in *.
  - destruct (check_command_arguments_frame s3 tool_args e3) as [Hc4 Ht4].
    destruct (check_command_arguments s3 tool_args e3) as [e4 s4]. cbn [snd] in *.
    destruct (check_query_arguments_frame s4 tool_args e4) as [Hc5 Ht5].
    destruct (check_query_arguments s4 tool_args e4) as [e5 s5]. cbn [snd] in *.
    repeat split; congruence.
  - repeat split; congruence.
Qed.

End PipelineFacts.

Section PipelineReport.
Context `{PyLib}.
Import PyStr.

Lemma one_failure_clean (r : bool * option string) (prefix : string) :
  (if fst r then [] else [prefix +:+ fmt_msg (snd r)]) = [] -> fst r = true.
Proof. now destruct (fst r). Qed.

Lemma check_url_arguments_errors self current_time tool_args errors :
  exists extra,
    fst (check_url_arguments self current_time tool_args errors) = errors ++ extra
    /\ (extra = [] ->
        forall url, nested_url tool_args = Some url ->
          fst (validate_url url) = true
          /\ forall u, url = VStr u ->
               fst (fst (check_url_rate_limit self current_time u)) = true).
Proof.
  pose proof (check_url_arguments_cases self current_time tool_args errors) as Hcases.
  destruct (nested_url tool_args) as [ url | ].
  - destruct (fst (validate_url url)) eqn:Hvalid.
    + destruct (validate_url_string _ Hvalid) as [u ->]. cbn zeta in Hcases.
      rewrite Hcases. cbn [fst]. rewrite append_failure_grows.
      eexists. split; [ reflexivity | ].
      intros Hclean url' Hurl. injection Hurl as <-. split; [ exact Hvalid | ].
      intros u' Hu. injection Hu as <-.
      apply one_failure_clean in Hclean.
      destruct (check_url_rate_limit_same
                  (note (ChkRateLimit u) (note (ChkUrl (VStr u)) self)) self
                  current_time u eq_refl eq_refl) as [Hsame _].
      now rewrite <- Hsame.
    + rewrite Hcases. cbn [fst]. rewrite append_failure_grows, Hvalid.
      eexists. split; [ reflexivity | discriminate ].
  - rewrite Hcases. exists []. split; [ symmetry; apply app_nil_r | discriminate ].
Qed.

Lemma check_file_arguments_errors self tool_args errors out :
  fst (check_file_arguments self tool_args errors) = Ok out ->
  exists extra,
    out = errors ++ extra
    /\ (extra = [] ->
        forall file_path, examined_path tool_args = Some file_path ->
          exists r, validate_file_inputs (config self) [file_path] = Ok r /\ fst r = true).
Proof.
  rewrite check_file_arguments_cases.
  destruct (examined_path tool_args) as [ file_path | ]; cbn [fst].
  - cbn [note config].
    destruct (validate_file_inputs (config self) [file_path]) as [ r | e ] eqn:Hr;
      cbn [bind]; [ | discriminate ].
    intros Hout. injection Hout as <-. rewrite append_failure_grows.
    eexists. split; [ reflexivity | ].
    intros Hclean p Hp. injection Hp as <-. exists r.
    split; [ exact Hr | now apply one_failure_clean in Hclean ].
  - intros Hout. injection Hout as <-.
    exists []. split; [ symmetry; apply app_nil_r | discriminate ].
Qed.

Lemma check_command_arguments_errors self tool_args errors :
  exists extra,
    fst (check_command_arguments self tool_args errors) = errors ++ extra
    /\ (extra = [] ->
        forall cmd, examined_command tool_args = Some cmd ->
          fst (validate_command_safety (config self) cmd) = true).
Proof.
  rewrite check_command_arguments_cases.
  destruct (examined_command tool_args) as [ cmd | ]; cbn [fst].
  - rewrite append_failure_grows. eexists. split; [ reflexivity | ].
    intros Hclean c Hc. injection Hc as <-. now apply one_failure_clean in Hclean.
  - exists []. split; [ symmetry; apply app_nil_r | discriminate ].
Qed.

Lemma check_query_arguments_errors self tool_args errors :
  exists extra,
    fst (check_query_arguments self tool_args errors) = errors ++ extra
    /\ (extra = [] ->
        forall query, examined_query tool_args = Some query ->
          fst (validate_sql_injection query) = true).
Proof.
  rewrite check_query_arguments_cases.
  destruct (examined_query tool_args) as [ query | ]; cbn [fst].
  - rewrite append_failure_grows. eexists. split; [ reflexivity | ].
    intros Hclean q Hq. injection Hq as <-. now apply one_failure_clean in Hclean.
  - exists []. split; [ symmetry; apply app_nil_r | discriminate ].
Qed.

(** The report of a pipeline that did not raise, check by check. *)
Lemma validate_tool_call_report self current_time tool_name tool_args available_tools
      is_valid errors :
  fst (validate_tool_call self current_time tool_name tool_args available_tools)
  = Ok (is_valid, errors) ->
  exists t a u f c q,
    errors = t ++ a ++ u ++ f ++ c ++ q
    /\ is_valid = match errors with [] => true | _ => false end
    /\ t = (if fst (validate_tool_exists tool_name available_tools) then []
            else [fmt_msg (snd (validate_tool_exists tool_name available_tools))])
    /\ (a = [] ->
        exists args_str,
          json_dumps (VDict tool_args) = inr args_str
          /\ fst (fst (validate_json_input (config self) args_str None)) = true
          /\ fst (validate_api_key_exposure args_str) = true)
    /\ (u = [] ->
        forall url, nested_url tool_args = Some url ->
          fst (validate_url url) = true
          /\ forall x, url = VStr x ->
               fst (fst (check_url_rate_limit self current_time x)) = true)
    /\ (f = [] ->
        forall file_path, examined_path tool_args = Some file_path ->
          exists r, validate_file_inputs (config self) [file_path] = Ok r /\ fst r = true)
    /\ (c = [] ->
        forall cmd, examined_command tool_args = Some cmd ->
          fst (validate_command_safety (config self) cmd) = true)
    /\ (q = [] ->
        forall query, examined_query tool_args = Some query ->
          fst (validate_sql_injection query) = true).
Proof.
  unfold validate_tool_call.
  pose proof (append_failure_grows [] "" (validate_tool_exists tool_name available_tools))
    as Ht. cbn [app] in Ht.
  set (t0 := append_failure [] "" (validate_tool_exists tool_name available_tools)) in *.
  destruct (check_arguments_errors (note ChkToolExists self) tool_args t0) as (a & Ha & Hac).
  destruct (check_arguments_frame (note ChkToolExists self) tool_args t0) as [Hc1 Ht1].
  destruct (check_arguments (note ChkToolExists self) tool_args t0) as [e1 s1].
  cbn [fst snd note config url_call_tracker] in Ha, Hac, Hc1, Ht1. subst e1.
  destruct (check_url_arguments_errors s1 current_time tool_args (t0 ++ a)) as (u & Hu & Huc).
  pose proof (check_url_arguments_config s1 current_time tool_args (t0 ++ a)) as Hc2.
  destruct (check_url_arguments s1 current_time tool_args (t0 ++ a)) as [e2 s2].
  cbn [fst snd] in Hu, Hc2. subst e2.
  pose proof (check_file_arguments_errors s2 tool_args ((t0 ++ a) ++ u)) as Hf.
  destruct (check_file_arguments_frame s2 tool_args ((t0 ++ a) ++ u)) as [Hc3 _].
  destruct (check_file_arguments s2 tool_args ((t0 ++ a) ++ u)) as [[e3 | x] s3];
    cbn [fst snd] in *; [ | discriminate ].
  destruct (Hf e3 eq_refl) as (f & -> & Hfc). clear Hf.
  destruct (check_command_arguments_errors s3 tool_args (((t0 ++ a) ++ u) ++ f))
    as (c & Hc & Hcc).
  destruct (check_command_arguments_frame s3 tool_args (((t0 ++ a) ++ u) ++ f)) as [Hc4 _].
  destruct (check_command_arguments s3 tool_args _) as [e4 s4]. cbn [fst snd] in *. subst e4.
  destruct (check_query_arguments_errors s4 tool_args ((((t0 ++ a) ++ u) ++ f) ++ c))
    as (q & Hq & Hqc).
  destruct (check_query_arguments s4 tool_args _) as [e5 s5]. cbn [fst snd] in *. subst e5.
  intros Hresult. injection Hresult as <- <-.
  exists t0, a, u, f, c, q.
  split; [ now rewrite <- !app_assoc | ]. split; [ reflexivity | ].
  split; [ exact Ht | ]. split; [ exact Hac | ].
  split.
  { intros Hclean url Hurl. destruct (Huc Hclean url Hurl) as [Hv Hr].
    split; [ exact Hv | ]. intros x Hx.
    destruct (check_url_rate_limit_same s1 self current_time x Hc1 Ht1) as [Hsame _].
    rewrite <- Hsame. now apply Hr. }
  split; [ | split ].
  - intros Hclean p Hp. rewrite <- Hc1, <- Hc2. now apply Hfc.
  - intros Hclean cmd Hcmd. rewrite <- Hc1, <- Hc2, <- Hc3. now apply Hcc.
  - intros Hclean query Hquery. now apply Hqc.
Qed.

(** X2. A tool call that [validate_tool_call] declares valid carries no
    error message and passed every check that applies to it: the tool is
    registered; the arguments serialise, within the JSON depth limit and
    without a secret-like pattern; a nested url passes [validate_url] and
    the rate limiter; the path, the command and the query the pipeline
    examines pass their validators. *)
Theorem validate_tool_call_valid_passed_all_checks
        (self : HeuristicValidator) (current_time : Z) (tool_name : string)
        (tool_args : dict) (available_tools errors : list string) :
  fst (validate_tool_call self current_time tool_name tool_args available_tools)
  = Ok (true, errors) ->
  errors = []
  /\ In tool_name available_tools
  /\ (exists args_str,
        json_dumps (VDict tool_args) = inr args_str
        /\ fst (fst (validate_json_input (config self) args_str None)) = true
        /\ fst (validate_api_key_exposure args_str) = true)
  /\ (forall url, nested_url tool_args = Some url ->
        exists u, url = VStr u
          /\ fst (validate_url url) = true
          /\ fst (fst (check_url_rate_limit self current_time u)) = true)
  /\ (forall file_path, examined_path tool_args = Some file_path ->
        exists r, validate_file_inputs (config self) [file_path] = Ok r /\ fst r = true)
  /\ (forall cmd, examined_command tool_args = Some cmd ->
        fst (validate_command_safety (config self) cmd) = true)
  /\ (forall query, examined_query tool_args = Some query ->
        fst (validate_sql_injection query) = true).
Proof.
  intros Hvalid.
  destruct (validate_tool_call_report _ _ _ _ _ _ _ Hvalid)
    as (t & a & u & f & c & q & Herrors & Hflag & Ht & Ha & Hu & Hf & Hc & Hq).
  assert (Hnil : errors = []) by (destruct errors; [ reflexivity | discriminate ]).
  rewrite Hnil in Herrors. symmetry in Herrors.
  apply grows_twice in Herrors as [-> Herrors]. apply grows_twice in Herrors as [-> Herrors].
  apply grows_twice in Herrors as [-> Herrors]. apply grows_twice in Herrors as [-> Herrors].
  apply grows_twice in Herrors as [-> ->].
  split; [ exact Hnil | ]. split.
  { unfold validate_tool_exists in Ht.
    destruct (mem tool_name available_tools) eqn:Hmem; [ now apply mem_In | discriminate ]. }
  split; [ now apply Ha | ]. split.
  { intros url Hurl. destruct (Hu eq_refl url Hurl) as [Hv Hr].
    destruct (validate_url_string _ Hv) as [x ->]. exists x.
    split; [ reflexivity | ]. split; [ exact Hv | now apply Hr ]. }
  split; [ now apply Hf | ]. split; [ now apply Hc | now apply Hq ].
Qed.

(** X3. A tool that is not in the registry is never declared valid, and
    its message leads the report; yet the pipeline goes on: when the
    arguments hold a nested url that passes [validate_url], the rate
    limiter runs as for a registered tool, so the rejected call takes a
    slot of its domain when the limiter allows it. *)
Theorem validate_tool_call_unknown_tool
        (self : HeuristicValidator) (current_time : Z) (tool_name : string)
        (tool_args : dict) (available_tools : list string) :
  ~ In tool_name available_tools ->
  (forall is_valid errors,
     fst (validate_tool_call self current_time tool_name tool_args available_tools)
     = Ok (is_valid, errors) ->
     is_valid = false
     /\ exists rest,
          errors = ("Tool '" +:+ tool_name +:+ "' not found in registry. "
                    +:+ "Available tools: " +:+ join ", " (take 5 available_tools)
                    +:+ "...") :: rest)
  /\ (forall u, nested_url tool_args = Some (VStr u) ->
        fst (validate_url (VStr u)) = true ->
        url_call_tracker (snd (validate_tool_call self current_time tool_name tool_args
                                                  available_tools))
        = url_call_tracker (snd (check_url_rate_limit self current_time u))).
Proof.
  intros Hunknown. split.
  - intros is_valid errors Hresult.
    destruct (validate_tool_call_report _ _ _ _ _ _ _ Hresult)
      as (t & a & u & f & c & q & Herrors & Hflag & Ht & _).
    unfold validate_tool_exists in Ht.
    apply mem_not_In in Hunknown. rewrite Hunknown in Ht. cbn [negb fst snd fmt_msg] in Ht.
    subst t. cbn [app] in Herrors. subst errors.
    split; [ exact Hflag | ]. eexists. reflexivity.
  - intros u Hurl Hvalid.
    destruct (validate_tool_call_frame self current_time tool_name tool_args available_tools)
      as (_ & Hafter & Hc1 & Ht1).
    rewrite Hafter.
    pose proof (check_url_arguments_cases
                  (snd (check_arguments (note ChkToolExists self) tool_args
                          (append_failure [] ""
                             (validate_tool_exists tool_name available_tools))))
                  current_time tool_args
                  (fst (check_arguments (note ChkToolExists self) tool_args
                          (append_failure [] ""
                             (validate_tool_exists tool_name available_tools))))) as Hcases.
    rewrite Hurl, Hvalid in Hcases. cbn zeta in Hcases. rewrite Hcases. cbn [snd].
    apply check_url_rate_limit_same; [ exact Hc1 | exact Ht1 ].
Qed.

End PipelineReport.

Section PipelineReportExamples.
Import Sample PyStr.

Lemma validate_tool_call_valid_passed_all_checks_witness :
  let tool_args := [("input", VDict [("url", VStr "https://example.com/a")])] in
  fst (validate_tool_call (new_validator default_config) 7 "fetch" tool_args
                          ["search"; "fetch"]) = Ok (true, [])
  /\ In "fetch" ["search"; "fetch"]
  /\ exists u, VStr "https://example.com/a" = VStr u
       /\ fst (validate_url (VStr "https://example.com/a")) = true
       /\ fst (fst (check_url_rate_limit (new_validator default_config) 7 u)) = true.
Proof.
  intros tool_args.
  assert (Hvalid : fst (validate_tool_call (new_validator default_config) 7 "fetch" tool_args
                                           ["search"; "fetch"]) = Ok (true, []))
    by (vm_compute; reflexivity).
  destruct (validate_tool_call_valid_passed_all_checks _ _ _ _ _ _ Hvalid)
    as (_ & Htool & _ & Hurl & _).
  split; [ exact Hvalid | ]. split; [ exact Htool | ].
  apply Hurl. reflexivity.
Defined.

(** A call of an unknown tool at time 7 is rejected and leaves its
    timestamp with the domain. *)
Lemma validate_tool_call_unknown_tool_witness :
  let tool_args := [("input", VDict [("url", VStr "https://example.com/a")])] in
  url_call_tracker (snd (validate_tool_call (new_validator default_config) 7 "nope" tool_args
                                            ["search"; "fetch"]))
    !! "example.com" = Some [7].
Proof.
  intros tool_args.
  assert (Hunknown : ~ In "nope" ["search"; "fetch"]).
  { cbn. intros [E | [E | []]]; discriminate E. }
  rewrite (proj2 (validate_tool_call_unknown_tool (new_validator default_config) 7 "nope"
                    tool_args ["search"; "fetch"] Hunknown)
                 "https://example.com/a" eq_refl);
    vm_compute; reflexivity.
Defined.

End PipelineReportExamples.

(** ** The rate window stays within the quota *)

Section Quota.
Context `{PyLib}.
Import PyStr.

Lemma within_quota_same a b :
  config a = config b -> url_call_tracker a = url_call_tracker b ->
  within_quota a -> within_quota b.
Proof. unfold within_quota. intros <- <-. auto. Qed.

Lemma check_url_rate_limit_within_quota self current_time url :
  0 <= max_url_calls_per_domain (config self) ->
  within_quota self ->
  within_quota (snd (check_url_rate_limit self current_time url)).
Proof.
  intros Hq Hin. unfold check_url_rate_limit.
  destruct (urlparse url) as [ e | parsed ]; [ exact Hin | ].
  set (kept := filter _ _).
  destruct (Z.of_nat (length kept) >=? max_url_calls_per_domain (config self)) eqn:E;
    cbn [snd]; intros domain stamps; cbn [set_tracker url_call_tracker config].
  - rewrite lookup_insert. case_decide as Hd.
    + intros Heq. injection Heq as <-.
      destruct (url_call_tracker self !! netloc parsed) as [ old | ] eqn:Hold.
      * specialize (Hin _ _ Hold). subst kept. cbn [default].
        apply Z.le_trans with (Z.of_nat (length old)); [ | exact Hin ].
        apply Nat2Z.inj_le, length_filter.
      * subst kept. cbn [default]. rewrite filter_nil. simpl. lia.
    + apply Hin.
  - rewrite insert_insert_eq, lookup_insert. case_decide as Hd.
    + intros Heq. injection Heq as <-. rewrite length_app. simpl. lia.
    + apply Hin.
Qed.

Lemma check_url_arguments_within_quota self current_time tool_args errors :
  0 <= max_url_calls_per_domain (config self) ->
  within_quota self ->
  within_quota (snd (check_url_arguments self current_time tool_args errors)).
Proof.
  intros Hq Hin.
  pose proof (check_url_arguments_cases self current_time tool_args errors) as Hcases.
  destruct (nested_url tool_args) as [ url | ]; [ | now rewrite Hcases ].
  destruct (fst (validate_url url)) eqn:Hvalid; [ | now rewrite Hcases ].
  destruct (validate_url_string _ Hvalid) as [u ->]. cbn zeta in Hcases.
  rewrite Hcases. cbn [snd].
  apply check_url_rate_limit_within_quota; [ exact Hq | ].
  now apply (within_quota_same self).
Qed.

Lemma validate_tool_call_within_quota self current_time tool_name tool_args available_tools :
  0 <= max_url_calls_per_domain (config self) ->
  within_quota self ->
  config (snd (validate_tool_call self current_time tool_name tool_args available_tools))
  = config self
  /\ within_quota (snd (validate_tool_call self current_time tool_name tool_args
                                           available_tools)).
Proof.
  intros Hq Hin.
  destruct (validate_tool_call_frame self current_time tool_name tool_args available_tools)
    as (Hc & Ht & Hc1 & Ht1).
  split; [ exact Hc | ].
  eapply within_quota_same;
    [ | symmetry; exact Ht | apply check_url_arguments_within_quota ].
  - rewrite Hc. rewrite check_url_arguments_config. now rewrite Hc1.
  - now rewrite Hc1.
  - now apply (within_quota_same self).
Qed.

(** What a call of the gateway does to the validator and to the trace. *)
Lemma call_tool_effect env self tool_name input_dict w :
  let after := snd (call_tool env self tool_name input_dict w) in
  (validator after = validator w
   \/ exists available_tools,
        list_all_tools (dispatcher env) (trace w) = Ok available_tools
        /\ validator after
           = snd (validate_tool_call (validator w) (clock env (call_count self))
                                     tool_name input_dict available_tools))
  /\ (trace after = trace w /\ (MAX_TOOL_CALLS_PER_PLAN <= call_count self)%nat
      \/ trace after = trace w ++ [ListedTools]
         /\ (call_count self < MAX_TOOL_CALLS_PER_PLAN)%nat
      \/ trace after = trace w ++ [ListedTools; Forwarded tool_name input_dict]
         /\ (call_count self < MAX_TOOL_CALLS_PER_PLAN)%nat
         /\ exists available_tools errors,
              list_all_tools (dispatcher env) (trace w) = Ok available_tools
              /\ fst (validate_tool_call (validator w) (clock env (call_count self))
                                         tool_name input_dict available_tools)
                 = Ok (true, errors)).
Proof.
  unfold call_tool. cbn [call_count]. rewrite Nat.add_1_r.
  destruct (MAX_TOOL_CALLS_PER_PLAN <? S (call_count self))%nat eqn:E.
  - apply Nat.ltb_lt in E. cbn [snd]. split; [ now left | left ]. split; [ reflexivity | lia ].
  - apply Nat.ltb_ge in E.
    destruct (list_all_tools (dispatcher env) (trace w)) as [ available_tools | e ] eqn:Htools.
    + cbn [log_event validator trace].
      destruct (validate_tool_call (validator w) (clock env (call_count self)) tool_name
                                   input_dict available_tools)
        as [[ [is_valid errors] | e ] v] eqn:Hcheck.
      * destruct is_valid; cbn [negb].
        -- assert (Hw : forall x : Res PyVal * SandboxMCP * World,
                     snd x = log_event (Forwarded tool_name input_dict)
                               (set_validator v (log_event ListedTools w)) ->
                     (validator (snd x) = validator w
                      \/ exists tools, Ok available_tools = Ok tools
                           /\ validator (snd x) = snd (validate_tool_call (validator w)
                                (clock env (call_count self)) tool_name input_dict tools))
                     /\ (trace (snd x) = trace w /\ (MAX_TOOL_CALLS_PER_PLAN <= call_count self)%nat
                         \/ trace (snd x) = trace w ++ [ListedTools]
                            /\ (call_count self < MAX_TOOL_CALLS_PER_PLAN)%nat
                         \/ trace (snd x) = trace w ++ [ListedTools; Forwarded tool_name input_dict]
                            /\ (call_count self < MAX_TOOL_CALLS_PER_PLAN)%nat
                            /\ exists tools errs, Ok available_tools = Ok tools
                                 /\ fst (validate_tool_call (validator w)
                                      (clock env (call_count self)) tool_name input_dict tools)
                                    = Ok (true, errs))).
           { intros x ->. cbn [log_event set_validator validator trace]. split.
             - right. exists available_tools. now rewrite Hcheck.
             - right. right. split; [ now rewrite <- app_assoc | ]. split; [ lia | ].
               exists available_tools, errors. now rewrite Hcheck. }
           destruct (execute_with_timeout _ _ _) as [ result | e ]; [ now apply Hw | ].
           destruct (exn_class e); now apply Hw.
        -- cbn [snd set_validator log_event validator trace]. split.
           ++ right. exists available_tools. now rewrite Hcheck.
           ++ right. left. split; [ reflexivity | lia ].
      * cbn [snd set_validator log_event validator trace]. split.
        -- right. exists available_tools. now rewrite Hcheck.
        -- right. left. split; [ reflexivity | lia ].
    + cbn [snd log_event validator trace]. split; [ now left | ].
      right. left. split; [ reflexivity | lia ].
Qed.

Lemma call_tool_within_quota env self tool_name input_dict w :
  0 <= max_url_calls_per_domain (config (validator w)) ->
  within_quota (validator w) ->
  config (validator (snd (call_tool env self tool_name input_dict w))) = config (validator w)
  /\ within_quota (validator (snd (call_tool env self tool_name input_dict w))).
Proof.
  intros Hq Hin.
  destruct (call_tool_effect env self tool_name input_dict w) as [[-> | (tools & _ & ->)] _].
  - now split.
  - now apply validate_tool_call_within_quota.
Qed.

(** X4. The rate window stays within the quota across calls of the
    gateway: when no domain holds more timestamps than
    [max_url_calls_per_domain] (a quota that is not negative), none does
    after any sequence of calls of [call_tool], whatever the arguments,
    the counter of the gateway, the clock and the dispatcher are; and
    these calls leave the configuration as it is. *)
Theorem call_tool_keeps_within_quota
        (env : Env) (calls : list (string * dict)) (mcp : SandboxMCP) (w : World) :
  0 <= max_url_calls_per_domain (config (validator w)) ->
  within_quota (validator w) ->
  config (validator (snd (issue env calls mcp w))) = config (validator w)
  /\ within_quota (validator (snd (issue env calls mcp w))).
Proof.
  revert mcp w.
  induction calls as [ | [tool_name input_dict] rest IH ]; intros mcp w Hq Hin;
    [ now split | ].
  cbn [issue].
  destruct (call_tool_within_quota env mcp tool_name input_dict w Hq Hin) as [Hc Hin1].
  destruct (call_tool env mcp tool_name input_dict w) as [[r mcp1] w1]. cbn [snd] in *.
  destruct (IH mcp1 w1) as [Hc2 Hin2]; [ now rewrite Hc | exact Hin1 | ].
  destruct (issue env rest mcp1 w1) as [[rs mcp2] w2]. cbn [snd] in *.
  split; [ congruence | exact Hin2 ].
Qed.

End Quota.

Section QuotaExample.
Import Sample PyStr.

(** Three timestamps are recorded for the domain, the quota is 5: of five
    further calls to it, two are recorded and three are refused. *)
Lemma call_tool_keeps_within_quota_witness :
  let tool_args := [("input", VDict [("url", VStr "https://example.com/a")])] in
  let calls := [("fetch", tool_args); ("fetch", tool_args); ("fetch", tool_args);
                ("fetch", tool_args); ("fetch", tool_args)] in
  let w := {| validator := set_tracker (new_validator default_config)
                                       {[ "example.com" := [0; 0; 0] ]};
              trace := [] |} in
  url_call_tracker (validator (snd (issue env calls {| call_count := 0 |} w)))
    !! "example.com" = Some [0; 0; 0; 0; 1]
  /\ within_quota (validator (snd (issue env calls {| call_count := 0 |} w))).
Proof.
  intros tool_args calls w. split; [ vm_compute; reflexivity | ].
  apply (call_tool_keeps_within_quota env calls {| call_count := 0 |} w).
  - vm_compute. discriminate.
  - intros domain stamps Hlookup. cbn in Hlookup.
    apply lookup_singleton_Some in Hlookup as [_ <-]. vm_compute. discriminate.
Defined.

End QuotaExample.

(** ** What reaches the dispatcher *)

Section Dispatch.
Context `{PyLib}.
Import PyStr.

(** X5. A call of the gateway adds to the trace nothing, a listing of
    the tools, or a listing followed by the forwarded call; it forwards
    the call only within the budget, after the listing succeeded and
    [validate_tool_call] declared the call valid without any error
    message; over the budget it does not touch the dispatcher. *)
Theorem call_tool_forwards_only_valid_calls
        (env : Env) (self : SandboxMCP) (tool_name : string) (input_dict : dict)
        (w : World) :
  exists new,
    trace (snd (call_tool env self tool_name input_dict w)) = trace w ++ new
    /\ (new = [] \/ new = [ListedTools]
        \/ new = [ListedTools; Forwarded tool_name input_dict])
    /\ (In (Forwarded tool_name input_dict) new ->
        (call_count self < MAX_TOOL_CALLS_PER_PLAN)%nat
        /\ exists available_tools,
             list_all_tools (dispatcher env) (trace w) = Ok available_tools
             /\ fst (validate_tool_call (validator w) (clock env (call_count self))
                                        tool_name input_dict available_tools)
                = Ok (true, []))
    /\ ((MAX_TOOL_CALLS_PER_PLAN <= call_count self)%nat -> new = []).
Proof.
  destruct (call_tool_effect env self tool_name input_dict w)
    as [_ [[Ht Hfull] | [[Ht Hroom] | (Ht & Hroom & tools & errors & Htools & Hvalid)]]].
  - exists []. rewrite Ht, app_nil_r. split; [ reflexivity | ]. split; [ now left | ].
    split; [ intros [] | reflexivity ].
  - exists [ListedTools]. split; [ exact Ht | ]. split; [ now right; left | ].
    split; [ | lia ]. intros [Hin | []]. discriminate Hin.
  - exists [ListedTools; Forwarded tool_name input_dict]. split; [ exact Ht | ].
    split; [ now right; right | ]. split; [ | lia ].
    intros _. split; [ exact Hroom | ]. exists tools. split; [ exact Htools | ].
    destruct (validate_tool_call_report _ _ _ _ _ _ _ Hvalid)
      as (t & a & u & f & c & q & _ & Hflag & _).
    rewrite Hvalid. now destruct errors.
Qed.

Lemma count_events_app kind (a b : list Event) :
  count_events kind (a ++ b) = (count_events kind a + count_events kind b)%nat.
Proof. unfold count_events. now rewrite List.filter_app, length_app. Qed.

Lemma call_tool_counts_events kind env self tool_name input_dict w :
  (kind ListedTools && kind (Forwarded tool_name input_dict) = false) ->
  (count_events kind (trace (snd (call_tool env self tool_name input_dict w)))
   <= count_events kind (trace w)
      + (if (call_count self <? MAX_TOOL_CALLS_PER_PLAN)%nat then 1 else 0))%nat.
Proof.
  intros Hkind.
  destruct (call_tool_effect env self tool_name input_dict w)
    as [_ [[Ht Hfull] | [[Ht Hroom] | (Ht & Hroom & _)]]]; rewrite Ht.
  - lia.
  - apply Nat.ltb_lt in Hroom. rewrite Hroom, count_events_app.
    unfold count_events at 2. cbn [List.filter]. destruct (kind ListedTools); simpl; lia.
  - apply Nat.ltb_lt in Hroom. rewrite Hroom, count_events_app.
    unfold count_events at 2. cbn [List.filter].
    destruct (kind ListedTools), (kind (Forwarded tool_name input_dict));
      try discriminate; simpl; lia.
Qed.

Lemma issue_counts_events kind env calls : forall mcp w,
  (forall tool_name input_dict,
     kind ListedTools && kind (Forwarded tool_name input_dict) = false) ->
  (count_events kind (trace (snd (issue env calls mcp w)))
   <= count_events kind (trace w) + (MAX_TOOL_CALLS_PER_PLAN - call_count mcp))%nat.
Proof.
  induction calls as [ | [tool_name input_dict] rest IH ]; intros mcp w Hkind;
    [ cbn [issue snd]; lia | ].
  cbn [issue].
  pose proof (call_tool_counts_events kind env mcp tool_name input_dict w (Hkind _ _)) as Hstep.
  pose proof (call_tool_counts env mcp tool_name input_dict w) as Hcount.
  destruct (call_tool env mcp tool_name input_dict w) as [[r mcp1] w1]. cbn [fst snd] in *.
  specialize (IH mcp1 w1 Hkind). rewrite Hcount in IH.
  destruct (issue env rest mcp1 w1) as [[rs mcp2] w2]. cbn [snd] in *.
  destruct (call_count mcp <? MAX_TOOL_CALLS_PER_PLAN)%nat eqn:E.
  - apply Nat.ltb_lt in E. lia.
  - apply Nat.ltb_ge in E. lia.
Qed.

(** X6. However many calls of [call_tool] are made on one gateway, and
    with whatever arguments, the dispatcher is asked for its tools at
    most [MAX_TOOL_CALLS_PER_PLAN] times less the calls the gateway has
    counted before, and as many calls at most are forwarded to it: 5
    each for a gateway that starts at 0, as [run_python_sandbox] creates
    it. *)
Theorem call_tool_bounded_dispatch
        (env : Env) (calls : list (string * dict)) (mcp : SandboxMCP) (w : World) :
  let after := trace (snd (issue env calls mcp w)) in
  (count_events is_forwarded after
   <= count_events is_forwarded (trace w)
      + (MAX_TOOL_CALLS_PER_PLAN - call_count mcp))%nat
  /\ (count_events is_listing after
      <= count_events is_listing (trace w)
         + (MAX_TOOL_CALLS_PER_PLAN - call_count mcp))%nat.
Proof.
  intros after. split.
  - exact (issue_counts_events is_forwarded env calls mcp w (fun _ _ => eq_refl)).
  - exact (issue_counts_events is_listing env calls mcp w (fun _ _ => eq_refl)).
Qed.

(** X7. A valid call within the budget ends as the dispatcher's call
    does: the returned value is handed on unchanged; a call that does not
    complete in time, or raises [TimeoutError], ends in a [RuntimeError]
    whose text is the one of the [TIMEOUT] violation, with the configured
    number of seconds; a [HeuristicViolation] of the dispatcher becomes a
    [RuntimeError] with the same text (or, when its [str(e)] raises,
    what that raises); any other exception is passed on as it is. *)
Theorem call_tool_dispatch_outcome
        (env : Env) (self : SandboxMCP) (tool_name : string) (input_dict : dict)
        (w : World) (available_tools errors : list string) :
  (call_count self < MAX_TOOL_CALLS_PER_PLAN)%nat ->
  list_all_tools (dispatcher env) (trace w) = Ok available_tools ->
  fst (validate_tool_call (validator w) (clock env (call_count self)) tool_name input_dict
                          available_tools) = Ok (true, errors) ->
  let timed_out :=
    mkExn RuntimeError
          ("[ERROR] TIMEOUT: Operation exceeded "
           +:+ pretty (request_timeout_seconds (config (validator w))) +:+ "s timeout") in
  fst (fst (call_tool env self tool_name input_dict w))
  = match dispatcher_call_tool (dispatcher env) (trace w ++ [ListedTools]) tool_name
                               input_dict with
    | Returned v => Ok v
    | TimedOut => Raised timed_out
    | Failed e =>
        match exn_class e with
        | TimeoutError => Raised timed_out
        | HeuristicViolation => text <- str_of e ;; Raised (mkExn RuntimeError text)
        | _ => Raised e
        end
    end.
Proof.
  intros Hroom Htools Hvalid timed_out.
  destruct (validate_tool_call_frame (validator w) (clock env (call_count self)) tool_name
              input_dict available_tools) as (Hconfig & _).
  unfold call_tool. cbn [call_count]. rewrite Nat.add_1_r.
  destruct (MAX_TOOL_CALLS_PER_PLAN <? S (call_count self))%nat eqn:E;
    [ apply Nat.ltb_lt in E; lia | ].
  rewrite Htools. cbn [log_event validator trace].
  destruct (validate_tool_call (validator w) (clock env (call_count self)) tool_name
                               input_dict available_tools) as [checked v].
  cbn [fst snd] in Hvalid, Hconfig. subst checked.
  cbn [negb set_validator validator trace].
  change (trace (log_event ListedTools w)) with (trace w ++ [ListedTools]).
  unfold execute_with_timeout, effective_timeout, get_timeout_config.
  rewrite Hconfig.
  assert (Hsame : (if request_timeout_seconds (config (validator w)) =? 0
                   then request_timeout_seconds (config (validator w))
                   else request_timeout_seconds (config (validator w)))
                  = request_timeout_seconds (config (validator w)))
    by now destruct (_ =? 0).
  rewrite Hsame.
  destruct (dispatcher_call_tool _ _ _ _) as [ v0 | e | ]; [ reflexivity | | reflexivity ].
  destruct (exn_class e) eqn:Hclass; cbn [exn_class heuristic_violation]; try rewrite Hclass;
    reflexivity.
Qed.

End Dispatch.

Section DispatchExamples.
Import Sample PyStr.

Lemma call_tool_forwards_only_valid_calls_witness :
  trace (snd (call_tool env {| call_count := 0 |} "fetch" query_args fresh_world))
  = [ListedTools; Forwarded "fetch" query_args]
  /\ exists available_tools,
       list_all_tools (dispatcher env) (trace fresh_world) = Ok available_tools
       /\ fst (validate_tool_call (validator fresh_world) (clock env 0) "fetch" query_args
                                  available_tools) = Ok (true, []).
Proof.
  assert (Htrace : trace (snd (call_tool env {| call_count := 0 |} "fetch" query_args
                                         fresh_world))
                   = [ListedTools; Forwarded "fetch" query_args])
    by (vm_compute; reflexivity).
  split; [ exact Htrace | ].
  destruct (call_tool_forwards_only_valid_calls env {| call_count := 0 |} "fetch" query_args
              fresh_world) as (new & Hnew & _ & Hforwarded & _).
  rewrite Htrace in Hnew. cbn [trace fresh_world app] in Hnew. subst new.
  apply Hforwarded. right. now left.
Defined.

Lemma call_tool_dispatch_outcome_witness :
  fst (fst (call_tool timing_out_env {| call_count := 0 |} "fetch" query_args fresh_world))
  = Raised (mkExn RuntimeError "[ERROR] TIMEOUT: Operation exceeded 10s timeout").
Proof.
  rewrite (call_tool_dispatch_outcome timing_out_env {| call_count := 0 |} "fetch" query_args
             fresh_world ["search"; "fetch"] []).
  - vm_compute. reflexivity.
  - cbn. unfold MAX_TOOL_CALLS_PER_PLAN. lia.
  - reflexivity.
  - vm_compute. reflexivity.
Defined.

End DispatchExamples.

(** ** Plans and commands: comments, markers, blocked commands *)

Section PlanFacts.
Import PyStr Re.

Lemma find_same {A : Type} (f g : A -> bool) (l : list A) :
  (forall x, f x = g x) -> find f l = find g l.
Proof.
  intros Hsame. induction l as [ | x l IH ]; [ reflexivity | ].
  cbn [find]. now rewrite Hsame, IH.
Qed.

Lemma line_matches_filter pattern lines :
  line_matches pattern lines
  = existsb (search pattern) (List.filter (fun line => negb (is_comment line)) lines).
Proof.
  unfold line_matches. induction lines as [ | line rest IH ]; [ reflexivity | ].
  cbn [existsb List.filter]. destruct (is_comment line); cbn [negb existsb orb];
    now rewrite IH.
Qed.

Lemma code_lines_skip_comments lines :
  code_lines lines = code_lines (List.filter (fun line => negb (is_comment line)) lines).
Proof.
  induction lines as [ | line rest IH ]; [ reflexivity | ].
  cbn [code_lines List.filter].
  change (startswith "#" (strip line)) with (is_comment line).
  destruct (is_comment line) eqn:E; cbn [negb]; [ exact IH | ].
  cbn [code_lines]. change (startswith "#" (strip line)) with (is_comment line).
  rewrite E. now rewrite IH.
Qed.

Lemma validate_generated_plan_by_lines cfg plan_code :
  len plan_code <= max_input_length cfg ->
  validate_generated_plan cfg plan_code
  = let lines := List.filter (fun line => negb (is_comment line)) (split_lines plan_code) in
    match find (fun pn => existsb (search (fst pn)) lines) dangerous_patterns with
    | Some (_, name) =>
        (false, Some ("Dangerous operation '" +:+ name +:+ "' detected in plan"))
    | None =>
        let command_code := join (String newline EmptyString) (code_lines lines) in
        if negb (nonempty command_code) then (true, None)
        else
          match find (fun blocked_cmd => contains (lower blocked_cmd) (lower command_code))
                     (blocked_commands cfg) with
          | Some blocked_cmd =>
              (false, Some ("Dangerous command in plan: "
                            +:+ "Dangerous command detected: '" +:+ blocked_cmd +:+ "'"))
          | None =>
              if existsb (fun pattern => search pattern (lower command_code))
                         command_patterns
              then (false, Some ("Dangerous command in plan: "
                                 +:+ "Dangerous command pattern detected"))
              else (true, None)
          end
    end.
Proof.
  intros Hlen. unfold validate_generated_plan, validate_input_length.
  destruct (len plan_code >? max_input_length cfg) eqn:E; [ lia | ]. cbn [negb].
  cbn zeta.
  assert (Hfind : find (fun pn => line_matches (fst pn) (split_lines plan_code))
                       dangerous_patterns
                  = find (fun pn => existsb (search (fst pn))
                                      (List.filter (fun line => negb (is_comment line))
                                                   (split_lines plan_code)))
                         dangerous_patterns).
  { apply find_same. intros pn. apply line_matches_filter. }
  rewrite Hfind. clear Hfind.
  destruct (find _ dangerous_patterns) as [ [p name] | ]; [ reflexivity | ].
  unfold validate_command_safety. rewrite <- code_lines_skip_comments.
  destruct (negb (nonempty _)); [ reflexivity | ].
  destruct (find _ (blocked_commands cfg)); [ reflexivity | ].
  now destruct (existsb _ command_patterns).
Qed.

(** X8. Comments never bear on the verdict of [validate_generated_plan]:
    two plans within the length limit with the same lines that are no
    comments get the same verdict, and a plan within the limit all of
    whose lines are comments passes, whatever the comments hold. *)
Theorem validate_generated_plan_ignores_comments (cfg : HeuristicConfig) :
  (forall plan1 plan2,
     len plan1 <= max_input_length cfg ->
     len plan2 <= max_input_length cfg ->
     List.filter (fun line => negb (is_comment line)) (split_lines plan1)
     = List.filter (fun line => negb (is_comment line)) (split_lines plan2) ->
     validate_generated_plan cfg plan1 = validate_generated_plan cfg plan2)
  /\ (forall plan_code,
        len plan_code <= max_input_length cfg ->
        Forall (fun line => is_comment line = true) (split_lines plan_code) ->
        validate_generated_plan cfg plan_code = (true, None)).
Proof.
  split.
  - intros plan1 plan2 H1 H2 Hsame.
    rewrite !validate_generated_plan_by_lines by assumption. now rewrite Hsame.
  - intros plan_code Hlen Hall.
    rewrite validate_generated_plan_by_lines by assumption.
    assert (Hnone : List.filter (fun line => negb (is_comment line)) (split_lines plan_code)
                    = []).
    { induction Hall as [ | line rest Hline _ IH ]; [ reflexivity | ].
      cbn [List.filter]. now rewrite Hline. }
    rewrite Hnone. reflexivity.
Qed.

Lemma matches_word_pattern name prev after :
  word_before prev = false -> word_after name = true ->
  word_before (last_char name) = true -> word_after after = false ->
  matches (word_pattern name) prev (name +:+ after) accept = true.
Proof.
  intros Hb Ha Hlast Hafter. unfold word_pattern. cbn [seqs matches].
  rewrite Hb, (word_after_append _ _ Ha). cbn [xorb].
  rewrite matches_lit. cbn [matches].
  assert (Hend : last_or prev name = last_char name).
  { unfold last_or. destruct (last_char name); [ reflexivity | discriminate ]. }
  rewrite Hend, Hlast, Hafter. reflexivity.
Qed.

Lemma search_word name line :
  word_after name = true -> word_before (last_char name) = true ->
  has_word name line -> search (word_pattern name) line = true.
Proof.
  intros Hfirst Hlast (before & after & -> & Hb & Hafter).
  apply search_from_skip. apply matches_word_pattern; try assumption.
  unfold last_or. now destruct (last_char before).
Qed.

(** X9. A plan is rejected by [validate_generated_plan] as soon as a
    line that is no comment holds a call of one of [eval], [exec],
    [__import__], [open], [file], [input], [raw_input], [execfile], or
    the word [subprocess] or [os.system]. *)
Theorem validate_generated_plan_rejects_markers
        (cfg : HeuristicConfig) (plan_code line name : string) :
  In line (split_lines plan_code) ->
  is_comment line = false ->
  (In name call_markers /\ has_call name line)
  \/ (In name word_markers /\ has_word name line) ->
  fst (validate_generated_plan cfg plan_code) = false.
Proof.
  intros Hline Hcomment Hmarker.
  assert (Hfound : exists pattern,
            In (pattern, name) dangerous_patterns /\ search pattern line = true).
  { destruct Hmarker as [[Hname Hcall] | [Hname Hword]].
    - exists (call_pattern name). split.
      + repeat (destruct Hname as [<- | Hname]; [ cbn; tauto | ]). destruct Hname.
      + apply search_call; [ | exact Hcall ].
        repeat (destruct Hname as [<- | Hname]; [ reflexivity | ]). destruct Hname.
    - exists (word_pattern name). split.
      + repeat (destruct Hname as [<- | Hname]; [ cbn; tauto | ]). destruct Hname.
      + apply search_word; [ | | exact Hword ];
          repeat (destruct Hname as [<- | Hname]; [ reflexivity | ]); destruct Hname. }
  destruct Hfound as (pattern & Hpattern & Hsearch).
  destruct (plan_with_dangerous_line_rejected cfg plan_code pattern name line
              Hpattern Hline Hcomment Hsearch) as [msg ->].
  reflexivity.
Qed.

Lemma lower_append a b : lower (a +:+ b) = lower a +:+ lower b.
Proof.
  induction a as [ | c a IH ]; [ reflexivity | ].
  rewrite append_cons. cbn [lower]. now rewrite IH, append_cons.
Qed.

Lemma concat_holds sep (x : string) (l : list string) :
  In x l -> exists before after, String.concat sep l = before +:+ x +:+ after.
Proof.
  induction l as [ | y l IH ]; intros Hin; [ destruct Hin | ].
  destruct Hin as [-> | Hin].
  - destruct l as [ | z l ].
    + exists EmptyString, EmptyString. cbn [String.concat].
      rewrite append_empty_l. clear. induction x as [ | c x IHx ]; [ reflexivity | ].
      now rewrite append_cons, <- IHx.
    + exists EmptyString. eexists. cbn [String.concat]. rewrite append_empty_l. reflexivity.
  - destruct (IH Hin) as (before & after & Heq).
    destruct l as [ | z l ]; [ destruct Hin | ].
    exists (y +:+ sep +:+ before), after.
    change (String.concat sep (y :: z :: l)) with (y +:+ sep +:+ String.concat sep (z :: l)).
    rewrite Heq. now rewrite !append_assoc.
Qed.

Lemma code_lines_keeps lines line :
  In line lines -> is_comment line = false -> has_marker (strip line) = true ->
  In (strip line) (code_lines lines).
Proof.
  induction lines as [ | l rest IH ]; intros Hin Hc Hm; [ destruct Hin | ].
  cbn [code_lines]. change (startswith "#" (strip l)) with (is_comment l).
  destruct Hin as [-> | Hin].
  - rewrite Hc, Hm. now left.
  - destruct (is_comment l); [ now apply IH | ].
    destruct (has_marker (strip l)); [ right | ]; now apply IH.
Qed.

(** X10. [validate_command_safety] rejects every text with a line that
    is no comment and whose stripped form (the line without its leading
    and trailing white space) holds an execution marker and, in whatever
    letter case, one of the blocked commands.  It is the stripped line
    that is searched: a blocked command that ends in white space, as
    ["mv /* "], is not found at the end of a line. *)
Theorem validate_command_safety_rejects_blocked
        (cfg : HeuristicConfig) (text line blocked_cmd : string) :
  In line (split_lines text) ->
  is_comment line = false ->
  has_marker (strip line) = true ->
  In blocked_cmd (blocked_commands cfg) ->
  contains (lower blocked_cmd) (lower (strip line)) = true ->
  exists reported,
    In reported (blocked_commands cfg)
    /\ validate_command_safety cfg (VStr text)
       = (false, Some ("Dangerous command detected: '" +:+ reported +:+ "'")).
Proof.
  intros Hline Hcomment Hmarker Hblocked Hholds.
  pose proof (code_lines_keeps _ _ Hline Hcomment Hmarker) as Hkept.
  destruct (concat_holds (String newline EmptyString) _ _ Hkept) as (before & after & Hcode).
  unfold validate_command_safety, join. rewrite Hcode.
  assert (Hne : nonempty (before +:+ strip line +:+ after) = true).
  { destruct (strip line) as [ | c s ] eqn:E; [ discriminate Hmarker | ].
    clear. induction before as [ | x b IH ]; [ reflexivity | reflexivity ]. }
  rewrite Hne. cbn [negb].
  assert (Hin : contains (lower blocked_cmd) (lower (before +:+ strip line +:+ after)) = true).
  { rewrite !lower_append. apply contains_longer_l. now apply contains_longer_r. }
  destruct (find_finds (fun b => contains (lower b) (lower (before +:+ strip line +:+ after)))
                       (blocked_commands cfg) blocked_cmd Hblocked Hin) as [reported Hfind].
  rewrite Hfind. exists reported. split; [ | reflexivity ].
  now apply find_some in Hfind.
Qed.

End PlanFacts.

Section PlanFactsExamples.
Import PyStr.

Lemma validate_generated_plan_ignores_comments_witness :
  validate_generated_plan default_config "# eval('1')
# os.system('rm -rf /')" = (true, None).
Proof.
  apply (proj2 (validate_generated_plan_ignores_comments default_config)).
  - vm_compute. discriminate.
  - change (split_lines "# eval('1')
# os.system('rm -rf /')") with ["# eval('1')"; "# os.system('rm -rf /')"].
    repeat (constructor; [ vm_compute; reflexivity | ]). constructor.
Defined.

Lemma validate_generated_plan_rejects_markers_witness :
  fst (validate_generated_plan default_config "import subprocess
def solve():
    return 1") = false.
Proof.
  apply (validate_generated_plan_rejects_markers default_config _ "import subprocess"
           "subprocess").
  - vm_compute. tauto.
  - vm_compute. reflexivity.
  - right. split; [ cbn; tauto | ].
    exists "import ", "". repeat split; vm_compute; reflexivity.
Defined.

Lemma validate_command_safety_rejects_blocked_witness :
  (exists reported,
     In reported (blocked_commands default_config)
     /\ validate_command_safety default_config (VStr "x = 1
  os.popen('SUDO RM file')")
        = (false, Some ("Dangerous command detected: '" +:+ reported +:+ "'")))
  /\ In "mv /* " (blocked_commands default_config)
  /\ validate_command_safety default_config (VStr "eval(x); mv /* ") = (true, None).
Proof.
  split; [ | split; [ vm_compute; tauto | vm_compute; reflexivity ] ].
  apply (validate_command_safety_rejects_blocked default_config _
           "  os.popen('SUDO RM file')" "sudo rm").
  - vm_compute. tauto.
  - vm_compute. reflexivity.
  - vm_compute. reflexivity.
  - cbn. tauto.
  - vm_compute. reflexivity.
Defined.

End PlanFactsExamples.

(** ** The reported JSON depth *)

Section ReportedDepth.
Context `{PyLib}.
Import PyStr.

Lemma max_of_bounds lo hi d ds :
  lo <= d <= hi -> Forall (fun x => lo <= x <= hi) ds -> lo <= max_of d ds <= hi.
Proof.
  unfold max_of. intros Hd Hds. revert d Hd.
  induction Hds as [ | x xs Hx _ IH ]; intros d Hd; [ exact Hd | ].
  cbn [fold_left]. apply IH. lia.
Qed.

(** The cut-off recursion never counts beyond one level above the limit. *)
Lemma get_depth_capped max_depth v :
  forall current_depth,
    current_depth <= get_depth max_depth v current_depth
                  <= Z.max current_depth (max_depth + 1).
Proof.
  induction v as [ | | | | items IH | items IH ] using PyVal_children_ind;
    intros c; cbn [get_depth].
  1-4: destruct (c >? max_depth); lia.
  - destruct (c >? max_depth) eqn:E; [ lia | ].
    destruct items as [ | x xs ]; cbn [map]; [ lia | ].
    inversion IH as [ | ? ? Hx Hxs ]; subst.
    assert (Hb : c + 1 <= max_of (get_depth max_depth x (c + 1))
                                 (map (fun v => get_depth max_depth v (c + 1)) xs)
                       <= max_depth + 1).
    { apply max_of_bounds.
      - specialize (Hx (c + 1)). lia.
      - clear -Hxs E. induction Hxs as [ | y ys Hy _ IHl ]; cbn [map]; constructor;
          [ specialize (Hy (c + 1)); lia | exact IHl ]. }
    lia.
  - destruct (c >? max_depth) eqn:E; [ lia | ].
    destruct items as [ | [k x] xs ]; cbn [map]; [ lia | ].
    inversion IH as [ | ? ? Hx Hxs ]; subst. cbn [snd] in Hx.
    assert (Hb : c + 1 <= max_of (get_depth max_depth x (c + 1))
                                 (map (fun kv : string * PyVal =>
                                         let '(_, y) := kv in get_depth max_depth y (c + 1)) xs)
                       <= max_depth + 1).
    { apply max_of_bounds.
      - specialize (Hx (c + 1)). lia.
      - clear -Hxs E. induction Hxs as [ | [k' y] ys Hy _ IHl ]; cbn [map]; constructor;
          [ cbn [snd] in Hy; specialize (Hy (c + 1)); lia | exact IHl ]. }
    lia.
Qed.

(** X11. When [validate_json_input] fails on the depth, the depth its
    message reports is not the depth of the value: the recursion stops
    one level above the limit, so the message names the limit plus one
    (0 for a negative limit), however deep the value is, and the parsed
    value is returned with it. *)
Theorem validate_json_input_reports_capped_depth
        (cfg : HeuristicConfig) (json_str : string) (max_depth : option Z)
        (parsed : PyVal) :
  json_loads json_str = inr parsed ->
  effective_max_depth cfg max_depth < nesting_depth parsed ->
  validate_json_input cfg json_str max_depth
  = (false,
     Some ("JSON depth (" +:+ pretty (Z.max 0 (effective_max_depth cfg max_depth + 1))
           +:+ ") exceeds maximum allowed ("
           +:+ pretty (effective_max_depth cfg max_depth) +:+ ")"),
     Some parsed).
Proof.
  intros Hparse Hdeep.
  pose proof (get_depth_tracks (effective_max_depth cfg max_depth) parsed 0) as [_ Hgt].
  pose proof (get_depth_capped (effective_max_depth cfg max_depth) parsed 0) as Hcap.
  specialize (Hgt ltac:(lia)).
  unfold validate_json_input.
  rewrite (json_loads_nonempty _ _ Hparse), Hparse. cbn [negb].
  destruct (get_depth _ parsed 0 >? effective_max_depth cfg max_depth) eqn:E; [ | lia ].
  replace (get_depth (effective_max_depth cfg max_depth) parsed 0)
    with (Z.max 0 (effective_max_depth cfg max_depth + 1)) by lia.
  reflexivity.
Qed.

End ReportedDepth.

Section ReportedDepthExample.
Import Sample PyStr.

(** A value of depth 4 against the limit 1: the message says 2. *)
Lemma validate_json_input_reports_capped_depth_witness :
  nesting_depth (VList [VList [VList [VList [VInt 1]]]]) = 4
  /\ validate_json_input default_config "[[[[1]]]]" (Some 1)
     = (false, Some "JSON depth (2) exceeds maximum allowed (1)",
        Some (VList [VList [VList [VList [VInt 1]]]])).
Proof.
  split; [ reflexivity | ].
  rewrite (validate_json_input_reports_capped_depth default_config "[[[[1]]]]" (Some 1)
             (VList [VList [VList [VList [VInt 1]]]])).
  - vm_compute. reflexivity.
  - vm_compute. reflexivity.
  - vm_compute. reflexivity.
Defined.

End ReportedDepthExample.

(** ** File paths *)

Section FilePaths.
Context `{PyLib}.
Import PyStr.

Lemma scan_blocked_strings (p : string) (blocked : list string) :
  scan_blocked (VStr p) blocked
  = Ok (find (fun b => contains (lower b) (lower p)) blocked).
Proof.
  induction blocked as [ | b rest IH ]; [ reflexivity | ].
  cbn [scan_blocked find]. now destruct (contains (lower b) (lower p)).
Qed.

Lemma scan_paths_strings cfg (paths : list string) :
  exists r,
    scan_paths cfg (map VStr paths) = Ok r
    /\ (fst r = true <->
        forall p b, In p paths -> In b (blocked_file_operations cfg) ->
                    contains (lower b) (lower p) = false).
Proof.
  induction paths as [ | p rest (r & Hr & Hiff) ].
  - exists (true, None). split; [ reflexivity | ]. split; [ intros _ ? ? [] | reflexivity ].
  - cbn [map scan_paths]. rewrite scan_blocked_strings. cbn [bind].
    destruct (find (fun b => contains (lower b) (lower p)) (blocked_file_operations cfg))
      as [ b | ] eqn:Hfind.
    + eexists. split; [ reflexivity | ]. cbn [fst]. split; [ discriminate | ].
      intros Hnone. apply find_some in Hfind as [Hin Hc].
      rewrite (Hnone p b (or_introl eq_refl) Hin) in Hc. discriminate.
    + exists r. split; [ exact Hr | ]. rewrite Hiff. split.
      * intros Hrest q b [<- | Hq] Hb; [ | now apply Hrest ].
        exact (find_none _ _ Hfind b Hb).
      * intros Hall q b Hq Hb. apply Hall; [ now right | exact Hb ].
Qed.

(** X12. For paths that are strings, no more of them than
    [max_files_per_call], [validate_file_inputs] returns a verdict and
    does not raise; it passes exactly when no path holds, in whatever
    letter case, one of the blocked file operations.  More paths than
    the limit fail before any path is looked at. *)
Theorem validate_file_inputs_on_strings (cfg : HeuristicConfig) (paths : list string) :
  (Z.of_nat (length paths) <= max_files_per_call cfg ->
   exists r,
     validate_file_inputs cfg (map VStr paths) = Ok r
     /\ (fst r = true <->
         forall p b, In p paths -> In b (blocked_file_operations cfg) ->
                     contains (lower b) (lower p) = false))
  /\ (forall file_paths : list PyVal,
        max_files_per_call cfg < Z.of_nat (length file_paths) ->
        validate_file_inputs cfg file_paths
        = Ok (false, Some ("Too many files: " +:+ pretty (Z.of_nat (length file_paths))
                           +:+ " (max: " +:+ pretty (max_files_per_call cfg) +:+ ")"))).
Proof.
  split.
  - intros Hcount. unfold validate_file_inputs. rewrite length_map.
    destruct (Z.of_nat (length paths) >? max_files_per_call cfg) eqn:E; [ lia | ].
    apply scan_paths_strings.
  - intros file_paths Hmany. unfold validate_file_inputs.
    destruct (Z.of_nat (length file_paths) >? max_files_per_call cfg) eqn:E;
      [ reflexivity | lia ].
Qed.


End FilePaths.

Section FilePathsExamples.
Import Sample PyStr.

Lemma validate_file_inputs_on_strings_witness :
  exists r,
    validate_file_inputs default_config [VStr "notes/todo.txt"; VStr "/ETC/passwd"] = Ok r
    /\ fst r = false.
Proof.
  destruct (proj1 (validate_file_inputs_on_strings default_config
                     ["notes/todo.txt"; "/ETC/passwd"])) as (r & Hr & Hiff).
  - vm_compute. discriminate.
  - exists r. split; [ exact Hr | ].
    destruct (fst r) eqn:E; [ | reflexivity ].
    assert (Hclean : contains (lower "/etc/") (lower "/ETC/passwd") = false).
    { apply (proj1 Hiff eq_refl); cbn; tauto. }
    vm_compute in Hclean. discriminate Hclean.
Defined.


End FilePathsExamples.

(** ** Injection and secret patterns *)

Section InjectionPatterns.
Import PyStr Re.

Lemma same_fold_cons a b x y :
  same_fold (String x a) (String y b) -> lower_char x = lower_char y /\ same_fold a b.
Proof. unfold same_fold. cbn [lower]. intros Heq. now injection Heq. Qed.

Lemma matches_lit_i name : forall text prev rest k,
  same_fold text name ->
  matches (lit_i name) prev (text +:+ rest) k = k (last_or prev text) rest.
Proof.
  induction name as [ | c name IH ]; intros text prev rest k Hfold.
  - destruct text; [ reflexivity | discriminate Hfold ].
  - destruct text as [ | x text ]; [ discriminate Hfold | ].
    apply same_fold_cons in Hfold as [Hx Hrest].
    rewrite append_cons, last_or_cons. cbn [lit_i matches chr_i].
    rewrite Hx, Ascii.eqb_refl. now apply IH.
Qed.

Lemma matches_chr c prev rest k :
  matches (chr c) prev (String c rest) k = k (Some c) rest.
Proof. cbn [matches chr]. now rewrite Ascii.eqb_refl. Qed.

Lemma matches_class p c prev rest k :
  p c = true -> matches (Chr p) prev (String c rest) k = k (Some c) rest.
Proof. intros Hp. cbn [matches]. now rewrite Hp. Qed.

Lemma matches_star_space gap prev rest k :
  all_space gap = true -> k (last_or prev gap) rest = true ->
  matches (Star space) prev (gap +:+ rest) k = true.
Proof.
  intros Hsp Hk. cbn [matches].
  apply rounds_spaces; [ exact Hsp | apply length_append_l | exact Hk ].
Qed.

Lemma matches_plus_space gap prev rest k :
  gap <> EmptyString -> all_space gap = true -> k (last_or prev gap) rest = true ->
  matches (plus space) prev (gap +:+ rest) k = true.
Proof.
  intros Hne Hsp Hk. destruct gap as [ | c gap ]; [ congruence | ].
  cbn [all_space] in Hsp. apply andb_prop in Hsp as [Hc Hsp].
  rewrite last_or_cons in Hk.
  rewrite append_cons. unfold plus. cbn [matches]. fold space.
  change (matches space prev (String c (gap +:+ rest))
            (fun p' s' => matches (Star space) p' s' k) = true).
  unfold space at 1. rewrite matches_class by exact Hc.
  now apply matches_star_space.
Qed.

Lemma matches_star_stops r prev s k :
  k prev s = true -> matches (Star r) prev s k = true.
Proof. intros Hk. cbn [matches]. destruct (String.length s); cbn [rounds]; now rewrite Hk. Qed.

Lemma matches_opt_skip r prev s k :
  k prev s = true -> matches (opt r) prev s k = true.
Proof. intros Hk. unfold opt. cbn [matches]. rewrite Hk. now destruct (matches r prev s k). Qed.

Lemma matches_opt_take r prev s k :
  matches r prev s k = true -> matches (opt r) prev s k = true.
Proof. intros Hr. unfold opt. cbn [matches]. now rewrite Hr. Qed.

Lemma matches_rep p chars : forall prev rest k,
  all_of p chars = true ->
  matches (rep (String.length chars) (Chr p)) prev (chars +:+ rest) k
  = k (last_or prev chars) rest.
Proof.
  induction chars as [ | c chars IH ]; intros prev rest k Hall; [ reflexivity | ].
  cbn [all_of] in Hall. apply andb_prop in Hall as [Hc Hall].
  rewrite append_cons, last_or_cons. cbn [String.length rep matches].
  rewrite Hc. now apply IH.
Qed.

Lemma search_found r before s :
  (forall prev, matches r prev s accept = true) -> search r (before +:+ s) = true.
Proof. intros Hm. apply search_from_skip. apply Hm. Qed.

Lemma sql_rejected pattern query :
  In pattern sql_patterns -> search pattern query = true ->
  validate_sql_injection query = (false, Some "Potential SQL injection pattern detected").
Proof.
  intros Hin Hs. unfold validate_sql_injection.
  assert (Hany : existsb (fun p => search p query) sql_patterns = true).
  { apply existsb_exists. now exists pattern. }
  now rewrite Hany.
Qed.

(** X14. [validate_sql_injection] rejects every query that holds, in
    whatever letter case, [UNION] and [SELECT] with white space between
    them, or a semicolon, optional white space, [DROP], white space and
    [TABLE]; or a single quote, optional white space and a semicolon; or
    that ends in [--] and optional white space. *)
Theorem validate_sql_injection_rejects (query : string) :
  (exists before u gap s after,
     query = before +:+ u +:+ gap +:+ s +:+ after
     /\ same_fold u "UNION" /\ same_fold s "SELECT"
     /\ gap <> EmptyString /\ all_space gap = true)
  \/ (exists before gap1 d gap2 t after,
        query = before +:+ ";" +:+ gap1 +:+ d +:+ gap2 +:+ t +:+ after
        /\ same_fold d "DROP" /\ same_fold t "TABLE"
        /\ all_space gap1 = true /\ gap2 <> EmptyString /\ all_space gap2 = true)
  \/ (exists before gap after,
        query = before +:+ "'" +:+ gap +:+ ";" +:+ after /\ all_space gap = true)
  \/ (exists before gap,
        query = before +:+ "--" +:+ gap /\ all_space gap = true) ->
  validate_sql_injection query = (false, Some "Potential SQL injection pattern detected").
Proof.
  intros [ (before & u & gap & s & after & -> & Hu & Hs & Hne & Hsp)
         | [ (before & gap1 & d & gap2 & t & after & -> & Hd & Ht & Hsp1 & Hne & Hsp2)
           | [ (before & gap & after & -> & Hsp)
             | (before & gap & -> & Hsp) ] ] ].
  - apply (sql_rejected (seqs [lit_i "UNION"; plus space; lit_i "SELECT"]));
      [ cbn; tauto | ].
    apply search_found. intros prev. cbn [seqs matches].
    rewrite (matches_lit_i "UNION") by exact Hu.
    apply matches_plus_space; [ exact Hne | exact Hsp | ].
    now rewrite (matches_lit_i "SELECT") by exact Hs.
  - apply (sql_rejected (seqs [chr ";"; Star space; lit_i "DROP"; plus space; lit_i "TABLE"]));
      [ cbn; tauto | ].
    apply search_found. intros prev. cbn [seqs].
    change (";" +:+ gap1 +:+ d +:+ gap2 +:+ t +:+ after)
      with (String ";" (gap1 +:+ d +:+ gap2 +:+ t +:+ after)).
    cbn [matches]. fold (chr ";"). 
    change (matches (chr ";") prev (String ";" (gap1 +:+ d +:+ gap2 +:+ t +:+ after))
              (fun p' s' =>
                 matches (Star space) p' s'
                   (fun p'0 s'0 =>
                      matches (lit_i "DROP") p'0 s'0
                        (fun p'1 s'1 =>
                           matches (plus space) p'1 s'1
                             (fun p'2 s'2 =>
                                matches (lit_i "TABLE") p'2 s'2
                                  (fun p'3 s'3 => accept p'3 s'3))))) = true).
    rewrite matches_chr.
    apply matches_star_space; [ exact Hsp1 | ].
    rewrite (matches_lit_i "DROP") by exact Hd.
    apply matches_plus_space; [ exact Hne | exact Hsp2 | ].
    now rewrite (matches_lit_i "TABLE") by exact Ht.
  - apply (sql_rejected (seqs [chr "'"; Star space; chr ";"])); [ cbn; tauto | ].
    apply search_found. intros prev.
    change ("'" +:+ gap +:+ ";" +:+ after) with (String "'" (gap +:+ String ";" after)).
    change (matches (chr "'") prev (String "'" (gap +:+ String ";" after))
              (fun p' s' =>
                 matches (Star space) p' s'
                   (fun p'0 s'0 => matches (chr ";") p'0 s'0
                                     (fun p'1 s'1 => accept p'1 s'1))) = true).
    rewrite matches_chr.
    apply matches_star_space; [ exact Hsp | ].
    now rewrite matches_chr.
  - apply (sql_rejected (seqs [lit "--"; Star space; Eos])); [ cbn; tauto | ].
    apply search_found. intros prev. cbn [seqs matches lit].
    change ("--" +:+ gap) with (String "-" (String "-" gap)).
    cbn [matches chr]. rewrite !Ascii.eqb_refl.
    replace gap with (gap +:+ EmptyString).
    + apply rounds_spaces; [ exact Hsp | apply length_append_l | reflexivity ].
    + clear. induction gap as [ | c g IH ]; [ reflexivity | ]. now rewrite append_cons, IH.
Qed.

End InjectionPatterns.

Section InjectionExamples.
Import PyStr.

Lemma validate_sql_injection_rejects_witness :
  validate_sql_injection "SELECT name FROM t Union   Select pw FROM u"
  = (false, Some "Potential SQL injection pattern detected").
Proof.
  apply validate_sql_injection_rejects. left.
  exists "SELECT name FROM t ", "Union", "   ", "Select", " pw FROM u".
  split; [ reflexivity | ]. split; [ reflexivity | ]. split; [ reflexivity | ].
  split; [ discriminate | reflexivity ].
Defined.

End InjectionExamples.

Section SecretPatterns.
Import PyStr Re.

Lemma matches_seqs_cons r rs prev s k :
  matches (seqs (r :: rs)) prev s k
  = matches r prev s (fun p' s' => matches (seqs rs) p' s' k).
Proof. reflexivity. Qed.

Lemma matches_at_least p n : forall chars prev rest k,
  (forall p' s', k p' s' = true) ->
  (n <= String.length chars)%nat -> all_of p chars = true ->
  matches (at_least n (Chr p)) prev (chars +:+ rest) k = true.
Proof.
  unfold at_least. induction n as [ | n IH ]; intros chars prev rest k Hk Hlen Hall.
  - change (matches (Star (Chr p)) prev (chars +:+ rest) k = true).
    apply matches_star_stops, Hk.
  - destruct chars as [ | c chars ]; [ simpl in Hlen; lia | ].
    cbn [all_of] in Hall. apply andb_prop in Hall as [Hc Hall].
    rewrite append_cons.
    change (matches (Chr p) prev (String c (chars +:+ rest))
              (fun p' s' => matches (Seq (rep n (Chr p)) (Star (Chr p))) p' s' k) = true).
    rewrite matches_class by exact Hc.
    apply (IH chars (Some c) rest k Hk); [ simpl in Hlen; lia | exact Hall ].
Qed.

(** The part of the three assignment patterns after the label. *)
Lemma matches_assignment_tail p n q1 gap1 d gap2 q2 secret after prev k :
  (forall p' s', k p' s' = true) ->
  (q1 = EmptyString \/ exists c, q1 = String c EmptyString /\ is_quote_char c = true) ->
  all_space gap1 = true -> (d = ":" \/ d = "=")%char -> all_space gap2 = true ->
  is_quote_char q2 = true ->
  (n <= String.length secret)%nat -> all_of p secret = true ->
  matches (seqs [opt quote; Star space; one_of ":="; Star space; quote;
                 at_least n (Chr p)])
          prev (q1 +:+ gap1 +:+ String d (gap2 +:+ String q2 (secret +:+ after))) k
  = true.
Proof.
  intros Hk Hq1 Hsp1 Hd Hsp2 Hq2 Hlen Hall.
  assert (Hrest : forall prev',
    matches (seqs [Star space; one_of ":="; Star space; quote; at_least n (Chr p)])
            prev' (gap1 +:+ String d (gap2 +:+ String q2 (secret +:+ after))) k = true).
  { intros prev'. rewrite matches_seqs_cons.
    apply matches_star_space; [ exact Hsp1 | ]. cbn beta.
    rewrite matches_seqs_cons. unfold one_of.
    rewrite matches_class by (destruct Hd as [-> | ->]; reflexivity). cbn beta.
    rewrite matches_seqs_cons.
    apply matches_star_space; [ exact Hsp2 | ]. cbn beta.
    rewrite matches_seqs_cons. unfold quote.
    rewrite matches_class by exact Hq2. cbn beta.
    rewrite matches_seqs_cons.
    apply matches_at_least; [ | exact Hlen | exact Hall ].
    intros p' s'. apply Hk. }
  rewrite matches_seqs_cons.
  destruct Hq1 as [-> | (c & -> & Hc)].
  - apply matches_opt_skip. rewrite append_empty_l. apply Hrest.
  - apply matches_opt_take. unfold quote.
    change (String c EmptyString +:+ gap1 +:+ String d (gap2 +:+ String q2 (secret +:+ after)))
      with (String c (gap1 +:+ String d (gap2 +:+ String q2 (secret +:+ after)))).
    rewrite matches_class by exact Hc. apply Hrest.
Qed.

Lemma secret_rejected pattern text :
  In pattern api_key_patterns -> search pattern text = true ->
  validate_api_key_exposure text
  = (false, Some "Potential API key or secret detected in input. Please use environment variables.").
Proof.
  intros Hin Hs. unfold validate_api_key_exposure.
  assert (Hany : existsb (fun p => search p text) api_key_patterns = true).
  { apply existsb_exists. now exists pattern. }
  now rewrite Hany.
Qed.

Lemma matches_key_label word sep k rest prev cont :
  (sep = EmptyString \/ sep = "_" \/ sep = "-") -> same_fold k "key" ->
  forall a, same_fold a word ->
  cont (last_or (last_or (last_or prev a) sep) k) rest = true ->
  matches (lit_i word) prev (a +:+ sep +:+ k +:+ rest)
          (fun p' s' =>
             matches (opt (one_of "_-")) p' s'
                     (fun p'' s'' => matches (lit_i "key") p'' s'' cont)) = true.
Proof.
  intros Hsep Hk a Ha Hcont.
  rewrite (matches_lit_i word) by exact Ha.
  destruct Hsep as [-> | [-> | ->]].
  - apply matches_opt_skip. rewrite append_empty_l.
    now rewrite (matches_lit_i "key") by exact Hk.
  - apply matches_opt_take. unfold one_of.
    change ("_" +:+ k +:+ rest) with (String "_" (k +:+ rest)).
    rewrite matches_class by reflexivity.
    now rewrite (matches_lit_i "key") by exact Hk.
  - apply matches_opt_take. unfold one_of.
    change ("-" +:+ k +:+ rest) with (String "-" (k +:+ rest)).
    rewrite matches_class by reflexivity.
    now rewrite (matches_lit_i "key") by exact Hk.
Qed.

(** X15. [validate_api_key_exposure] rejects every text that assigns,
    with [:] or [=] and a quoted value, twenty or more characters of
    letters, digits, [_] and [-] to a label [api_key], [apikey],
    [api-key], [secret_key] and the like, or eight or more characters
    other than quotes to [password], the labels in whatever letter
    case. *)
Theorem validate_api_key_exposure_rejects (text label secret : string) :
  assigns label secret text ->
  (key_label label /\ (20 <= String.length secret)%nat
   /\ all_of is_key_char secret = true)
  \/ (same_fold label "password" /\ (8 <= String.length secret)%nat
      /\ all_of (fun c => negb (is_quote_char c)) secret = true) ->
  validate_api_key_exposure text
  = (false, Some "Potential API key or secret detected in input. Please use environment variables.").
Proof.
  intros (before & q1 & gap1 & d & gap2 & q2 & after & -> & Hq1 & Hsp1 & Hd & Hsp2 & Hq2).
  intros [ ((a & sep & k & -> & Ha & Hsep & Hk) & Hlen & Hall) | (Hlabel & Hlen & Hall) ].
  - rewrite !append_assoc.
    destruct Ha as [Ha | Ha].
    + apply (secret_rejected
               (seqs [lit_i "api"; opt (one_of "_-"); lit_i "key"; opt quote; Star space;
                      one_of ":="; Star space; quote; at_least 20 key_char]));
        [ cbn; tauto | ].
      apply search_found. intros prev. rewrite !matches_seqs_cons.
      apply matches_key_label; [ exact Hsep | exact Hk | exact Ha | ].
      apply (matches_assignment_tail is_key_char 20); try assumption. reflexivity.
    + apply (secret_rejected
               (seqs [lit_i "secret"; opt (one_of "_-"); lit_i "key"; opt quote; Star space;
                      one_of ":="; Star space; quote; at_least 20 key_char]));
        [ cbn; tauto | ].
      apply search_found. intros prev. rewrite !matches_seqs_cons.
      apply matches_key_label; [ exact Hsep | exact Hk | exact Ha | ].
      apply (matches_assignment_tail is_key_char 20); try assumption. reflexivity.
  - apply (secret_rejected
             (seqs [lit_i "password"; opt quote; Star space; one_of ":="; Star space;
                    quote; at_least 8 not_quote]));
      [ cbn; tauto | ].
    apply search_found. intros prev. rewrite matches_seqs_cons.
    rewrite (matches_lit_i "password") by exact Hlabel.
    apply (matches_assignment_tail (fun c => negb (is_quote_char c)) 8); try assumption.
    reflexivity.
Qed.

End SecretPatterns.

Section SecretExamples.
Import PyStr.

(** The JSON text of arguments that carry a key. *)
Lemma validate_api_key_exposure_rejects_witness :
  validate_api_key_exposure
    ("{" +:+ String dquote ("API_Key" +:+ String dquote (": " +:+ String dquote
       ("sk-0123456789abcdefghij" +:+ String dquote "}"))))
  = (false, Some "Potential API key or secret detected in input. Please use environment variables.").
Proof.
  apply (validate_api_key_exposure_rejects _ "API_Key" "sk-0123456789abcdefghij").
  - exists ("{" +:+ String dquote EmptyString), (String dquote EmptyString), EmptyString,
           ":"%char, " ", dquote, (String dquote "}").
    split; [ reflexivity | ].
    split; [ right; exists dquote; split; reflexivity | ].
    split; [ reflexivity | ]. split; [ now left | ]. split; reflexivity.
  - left. split.
    + exists "API", "_", "Key". split; [ reflexivity | ].
      split; [ left; reflexivity | ]. split; [ right; left; reflexivity | reflexivity ].
    + split; [ vm_compute; lia | reflexivity ].
Defined.

End SecretExamples.

(** ** Arguments without the top-level keys of the later steps *)

Section NestedOnly.
Context `{PyLib}.
Import PyStr.

Lemma one_failure_clean_iff (r : bool * option string) (prefix : string) :
  (if fst r then [] else [prefix +:+ fmt_msg (snd r)]) = [] <-> fst r = true.
Proof. destruct (fst r); split; intros; congruence. Qed.

Lemma check_arguments_errors_iff self tool_args errors :
  exists extra,
    fst (check_arguments self tool_args errors) = errors ++ extra
    /\ (extra = [] <->
        exists args_str,
          json_dumps (VDict tool_args) = inr args_str
          /\ fst (fst (validate_json_input (config self) args_str None)) = true
          /\ fst (validate_api_key_exposure args_str) = true).
Proof.
  unfold check_arguments. destruct (json_dumps (VDict tool_args)) as [ e | args_str ].
  - eexists. split; [ reflexivity | ]. split; [ discriminate | ].
    intros (s & Hs & _). discriminate Hs.
  - cbn [note config].
    destruct (validate_json_input (config self) args_str None) as [[valid msg] parsed] eqn:Hjson.
    cbn [fst]. rewrite !append_failure_grows, <- app_assoc. cbn [fst snd].
    eexists. split; [ reflexivity | ]. split.
    + intros Hclean. apply grows_twice in Hclean as [Hv Hk].
      exists args_str. split; [ reflexivity | ]. rewrite Hjson. cbn [fst].
      split; [ now destruct valid | now destruct (fst (validate_api_key_exposure args_str)) ].
    + intros (s & Hs & Hv & Hk). injection Hs as <-. rewrite Hjson in Hv. cbn [fst] in Hv.
      now rewrite Hv, Hk.
Qed.

Lemma check_url_arguments_errors_iff self current_time tool_args errors :
  exists extra,
    fst (check_url_arguments self current_time tool_args errors) = errors ++ extra
    /\ (extra = [] <->
        forall url, nested_url tool_args = Some url ->
          fst (validate_url url) = true
          /\ forall u, url = VStr u ->
               fst (fst (check_url_rate_limit self current_time u)) = true).
Proof.
  pose proof (check_url_arguments_cases self current_time tool_args errors) as Hcases.
  destruct (nested_url tool_args) as [ url | ].
  - destruct (fst (validate_url url)) eqn:Hvalid.
    + destruct (validate_url_string _ Hvalid) as [u ->]. cbn zeta in Hcases.
      rewrite Hcases. cbn [fst]. rewrite append_failure_grows.
      destruct (check_url_rate_limit_same
                  (note (ChkRateLimit u) (note (ChkUrl (VStr u)) self)) self
                  current_time u eq_refl eq_refl) as [Hsame _].
      eexists. split; [ reflexivity | ]. rewrite one_failure_clean_iff, Hsame. split.
      * intros Hallowed url' Hurl. injection Hurl as <-. split; [ exact Hvalid | ].
        intros u' Hu. injection Hu as <-. exact Hallowed.
      * intros Hcond. now apply (Hcond (VStr u) eq_refl).
    + rewrite Hcases. cbn [fst]. rewrite append_failure_grows, Hvalid.
      eexists. split; [ reflexivity | ]. split; [ discriminate | ].
      intros Hcond. destruct (Hcond url eq_refl) as [Hv _]. congruence.
  - rewrite Hcases. exists []. split; [ symmetry; apply app_nil_r | ].
    split; [ intros _ url Hurl; discriminate Hurl | reflexivity ].
Qed.

(** X16. The file, command and query steps look for their keys at the
    top level of the arguments and read the values under ['input']: for
    arguments without the top-level keys [file_path], [path], [command],
    [code] and [query], whatever the mapping under ['input'] holds,
    [validate_tool_call] does not raise and declares the call valid
    exactly when the tool is registered, the arguments serialise within
    the depth limit and without a secret-like pattern, and a nested url,
    if any, passes [validate_url] and the rate limiter. *)
Theorem validate_tool_call_without_top_level_keys
        (self : HeuristicValidator) (current_time : Z) (tool_name : string)
        (tool_args : dict) (available_tools : list string) :
  dict_has "file_path" tool_args = false -> dict_has "path" tool_args = false ->
  dict_has "command" tool_args = false -> dict_has "code" tool_args = false ->
  dict_has "query" tool_args = false ->
  exists is_valid errors,
    fst (validate_tool_call self current_time tool_name tool_args available_tools)
    = Ok (is_valid, errors)
    /\ (is_valid = true <->
        In tool_name available_tools
        /\ (exists args_str,
              json_dumps (VDict tool_args) = inr args_str
              /\ fst (fst (validate_json_input (config self) args_str None)) = true
              /\ fst (validate_api_key_exposure args_str) = true)
        /\ (forall url, nested_url tool_args = Some url ->
              fst (validate_url url) = true
              /\ forall u, url = VStr u ->
                   fst (fst (check_url_rate_limit self current_time u)) = true)).
Proof.
  intros Hfp Hp Hcmd Hcode Hq.
  unfold validate_tool_call.
  pose proof (append_failure_grows [] "" (validate_tool_exists tool_name available_tools))
    as Ht. cbn [app] in Ht.
  set (t0 := append_failure [] "" (validate_tool_exists tool_name available_tools)) in *.
  destruct (check_arguments_errors_iff (note ChkToolExists self) tool_args t0)
    as (a & Ha & Hac).
  destruct (check_arguments_frame (note ChkToolExists self) tool_args t0) as [Hc1 Ht1].
  destruct (check_arguments (note ChkToolExists self) tool_args t0) as [e1 s1].
  cbn [fst snd note config url_call_tracker] in Ha, Hac, Hc1, Ht1. subst e1.
  destruct (check_url_arguments_errors_iff s1 current_time tool_args (t0 ++ a))
    as (u & Hu & Huc).
  destruct (check_url_arguments s1 current_time tool_args (t0 ++ a)) as [e2 s2].
  cbn [fst] in Hu. subst e2.
  rewrite check_file_arguments_cases. unfold examined_path. rewrite Hfp, Hp. cbn [orb].
  rewrite check_command_arguments_cases. unfold examined_command. rewrite Hcmd, Hcode.
  cbn [orb].
  rewrite check_query_arguments_cases. unfold examined_query. rewrite Hq.
  cbn [fst]. eexists. eexists. split; [ reflexivity | ].
  assert (Htool : t0 = [] <-> In tool_name available_tools).
  { rewrite Ht. unfold validate_tool_exists.
    destruct (mem tool_name available_tools) eqn:Hmem; cbn [negb fst snd].
    - apply mem_In in Hmem. tauto.
    - apply mem_not_In in Hmem. split; [ discriminate | tauto ]. }
  assert (Hrate : forall x,
            fst (fst (check_url_rate_limit s1 current_time x))
            = fst (fst (check_url_rate_limit self current_time x))).
  { intros x. destruct (check_url_rate_limit_same s1 self current_time x Hc1 Ht1) as [-> _].
    reflexivity. }
  split.
  - intros Hvalid.
    assert (Hnil : (t0 ++ a) ++ u = []) by (destruct ((t0 ++ a) ++ u); [ reflexivity | discriminate ]).
    apply grows_twice in Hnil as [Hta ->]. apply grows_twice in Hta as [Ht0 ->].
    split; [ now apply Htool | ]. split; [ now apply Hac | ].
    intros url Hurl. destruct (proj1 Huc eq_refl url Hurl) as [Hv Hr].
    split; [ exact Hv | ]. intros x Hx. rewrite <- Hrate. now apply Hr.
  - intros (Hin & Hargs & Hurl).
    apply Htool in Hin. apply Hac in Hargs.
    assert (Hu0 : u = []).
    { apply Huc. intros url Hnested. destruct (Hurl url Hnested) as [Hv Hr].
      split; [ exact Hv | ]. intros x Hx. rewrite Hrate. now apply Hr. }
    now rewrite Hin, Hargs, Hu0.
Qed.

End NestedOnly.

Section NestedOnlyExample.
Import Sample PyStr.

(** A destructive command under ['input'] alone is not examined. *)
Lemma validate_tool_call_without_top_level_keys_witness :
  let tool_args := [("input", VDict [("command", VStr "os.system('rm -rf /')")])] in
  fst (validate_command_safety default_config (VStr "os.system('rm -rf /')")) = false
  /\ exists errors,
       fst (validate_tool_call (new_validator default_config) 0 "fetch" tool_args
                               ["search"; "fetch"]) = Ok (true, errors).
Proof.
  intros tool_args. split; [ vm_compute; reflexivity | ].
  destruct (validate_tool_call_without_top_level_keys (new_validator default_config) 0 "fetch"
              tool_args ["search"; "fetch"] eq_refl eq_refl eq_refl eq_refl eq_refl)
    as (is_valid & errors & Hrun & Hiff).
  exists errors. rewrite Hrun. f_equal. f_equal. apply Hiff.
  split; [ cbn; tauto | ]. split.
  - eexists. split; [ reflexivity | ]. split; vm_compute; reflexivity.
  - intros url Hurl. discriminate Hurl.
Defined.

End NestedOnlyExample.

(** ** The budget and the rate limiter *)

Section BudgetAndLimiter.
Context `{PyLib}.
Import PyStr.









End BudgetAndLimiter.

Section BudgetAndLimiterExample.
Import Sample PyStr.


End BudgetAndLimiterExample.
